(** * thorium device-control layer: registry lookup, connection manager,
      HV500 codec and TCP transport

    A shallow embedding of
      - control/servers/base_servers/serial_device_server.py
      - control/servers/base_servers/tcp_server.py
      - control/servers/base_servers/visa_server.py
      - control/servers/hv500_server.py
    Python exceptions are values of [exn]; a method that reads or mutates
    an object is a function in the state-and-exception monad [M]; a Python
    [float] is an IEEE-754 binary64 number ([spec_float] with precision 53
    and maximal exponent 1024). Console output ([print]) is not modelled. *)

From Stdlib Require Import ZArith List String Ascii Bool Lia.
From Stdlib Require Import QArith Qabs Qpower Lqa.
From Stdlib Require Import DecimalString.
From Stdlib Require DecimalFacts DecimalPos DecimalZ.
From Stdlib Require Import Floats.SpecFloat.
Import ListNotations.

Local Open Scope string_scope.
Local Open Scope Z_scope.

(** ** Python strings *)

Module PyStr.

(** The carriage return and the line feed. *)
Definition CR : string := String (ascii_of_nat 13) EmptyString.
Definition LF : string := String (ascii_of_nat 10) EmptyString.

(** [needle in hay] *)
Fixpoint str_in (needle hay : string) : bool :=
  String.prefix needle hay
  || match hay with
     | EmptyString => false
     | String _ hay' => str_in needle hay'
     end.

(** [s[:n]] for a non-negative [n] *)
Fixpoint take (n : nat) (s : string) : string :=
  match n, s with
  | O, _ => EmptyString
  | S _, EmptyString => EmptyString
  | S n', String c s' => String c (take n' s')
  end.

(** [s[n:]] for a non-negative [n] *)
Fixpoint drop (n : nat) (s : string) : string :=
  match n, s with
  | O, _ => s
  | S _, EmptyString => EmptyString
  | S n', String _ s' => drop n' s'
  end.

(** [s[-n:]] for a positive [n] *)
Definition last_n (n : nat) (s : string) : string :=
  drop (String.length s - n) s.

(** [s[:-1]] *)
Definition but_last (s : string) : string :=
  take (String.length s - 1) s.

(** [c.lower()] on an ASCII letter *)
Definition lower_ascii (c : ascii) : ascii :=
  let n := nat_of_ascii c in
  if (Nat.leb 65 n && Nat.leb n 90)%bool then ascii_of_nat (n + 32) else c.

(** [s.lower()] *)
Fixpoint lower (s : string) : string :=
  match s with
  | EmptyString => EmptyString
  | String c s' => String (lower_ascii c) (lower s')
  end.


(** [str(n)] for an [int] *)
Definition str_of_int (n : Z) : string :=
  NilZero.string_of_int (Z.to_int n).

(** Truthiness of an optional string attribute: [None] and [""] are falsy. *)
Definition truthy (s : option string) : bool :=
  match s with
  | None => false
  | Some EmptyString => false
  | Some _ => true
  end.

(** The string held by an attribute that passed the truthiness test. *)
Definition value (s : option string) : string :=
  match s with
  | Some x => x
  | None => ""
  end.

End PyStr.

(** ** Exceptions and the state-and-exception monad *)

Inductive exn : Type :=
| SerialDeviceError (value : string)
| SerialConnectionError (code : Z)
| PortRegError (code : Z)          (* subclass of SerialConnectionError *)
| Error (code : Z)                 (* labrad.types.Error *)
| ValueError (msg : string)
| AttributeError (msg : string)
| TypeError (msg : string)
| KeyError (key : string)
| SocketTimeout                    (* socket.timeout / TimeoutError *)
| Exception_ (msg : string)        (* a bare Exception(msg) *)
| UnicodeDecodeError.              (* raised by bytes.decode() *)

Inductive result (A : Type) : Type :=
| Ok (a : A)
| Raise (e : exn).
Arguments Ok {A} a.
Arguments Raise {A} e.

(** A computation over a state [S]: the state it leaves is kept on both
    the normal and the exceptional exit, as mutations are in Python. *)
Definition M (S A : Type) : Type := S -> result A * S.

Definition ret {S A} (a : A) : M S A := fun s => (Ok a, s).
Definition raise {S A} (e : exn) : M S A := fun s => (Raise e, s).
Definition bind {S A B} (m : M S A) (k : A -> M S B) : M S B :=
  fun s => match m s with
           | (Ok a, s') => k a s'
           | (Raise e, s') => (Raise e, s')
           end.
Definition gets {S A} (f : S -> A) : M S A := fun s => (Ok (f s), s).
Definition modify {S} (f : S -> S) : M S unit := fun s => (Ok tt, f s).

(** [try: body  except <class> as e: handler e], where [catches e] tells
    whether [e] is an instance of the class. *)
Definition try_except {S A} (body : M S A) (catches : exn -> bool)
           (handler : exn -> M S A) : M S A :=
  fun s => match body s with
           | (Ok a, s') => (Ok a, s')
           | (Raise e, s') => if catches e then handler e s' else (Raise e, s')
           end.

(** A call whose Deferred is neither yielded nor inspected: the request
    is carried out, its outcome is dropped. *)
Definition fire {S A} (m : M S A) : M S unit :=
  fun s => (Ok tt, snd (m s)).

(** Running a computation on a component of a larger state. *)
Definition zoom {S T A} (proj : T -> S) (upd : S -> T -> T) (m : M S A)
  : M T A :=
  fun t => let (r, s') := m (proj t) in (r, upd s' t).

Declare Scope py_scope.
Delimit Scope py_scope with py.
Notation "x <- m ;; k" := (bind m (fun x => k))
  (at level 100, m at next level, right associativity) : py_scope.
Notation "m ;;; k" := (bind m (fun _ => k))
  (at level 100, right associativity) : py_scope.
Local Open Scope py_scope.

Definition is_Error (e : exn) : bool :=
  match e with Error _ => true | _ => false end.

(** [isinstance(e, SerialConnectionError)]: [PortRegError] is a subclass. *)
Definition is_SerialConnectionError (e : exn) : bool :=
  match e with
  | SerialConnectionError _ | PortRegError _ => true
  | _ => false
  end.

(** [e.code] of an exception that carries one. *)
Definition code_of (e : exn) : option Z :=
  match e with
  | SerialConnectionError c | PortRegError c | Error c => Some c
  | _ => None
  end.

(** ** The configuration registry (external collaborator)

    The LabRAD registry is a tree of directories, each holding keys with
    values, navigated through a per-client cursor. Paths are lists of
    segments in which the empty segment names the root, so that
    [["", "Ports"]] is the directory [Ports] at the root. The registry
    reports a failure by raising [labrad.types.Error] with a numeric code;
    which code a missing directory or a missing key gets is the registry
    service's choice, carried here by [nodir_code] and [nokey_code]. *)

Module Registry.

#[local] Set Warnings "-register-all".

Inductive RegDir : Type :=
| Dir (subdirs : list (string * RegDir)) (keys : list (string * string)).

Definition subdirs (d : RegDir) : list (string * RegDir) :=
  match d with Dir sd _ => sd end.
Definition keys (d : RegDir) : list (string * string) :=
  match d with Dir _ ks => ks end.

Fixpoint assoc {A : Type} (k : string) (l : list (string * A)) : option A :=
  match l with
  | [] => None
  | (k', a) :: l' => if String.eqb k' k then Some a else assoc k l'
  end.

(** The directory reached from [d] by descending through [p]. *)
Fixpoint walk (d : RegDir) (p : list string) : option RegDir :=
  match p with
  | [] => Some d
  | seg :: p' =>
      match assoc seg (subdirs d) with
      | Some d' => walk d' p'
      | None => None
      end
  end.

Record t : Type := mk {
  root : RegDir;
  cwd : list string;            (* the cursor, e.g. [""; "Ports"] *)
  nodir_code : Z;               (* code raised for a missing directory *)
  nokey_code : Z                (* code raised for a missing key *)
}.

Definition set_cwd (p : list string) (r : t) : t :=
  mk (root r) p (nodir_code r) (nokey_code r).

(** The directory an absolute path names. *)
Definition dir_at (r : t) (p : list string) : option RegDir :=
  match p with
  | seg :: p' => if String.eqb seg "" then walk (root r) p' else None
  | [] => None
  end.

(** One segment of a [cd]: the empty segment jumps to the root. *)
Definition step_path (cur : list string) (seg : string) : list string :=
  if String.eqb seg "" then [""] else cur ++ [seg].

(** [reg.cd()] returns the cursor; [reg.cd(path)] moves it and returns the
    new cursor, or raises and leaves it where it was. *)
Definition cd (path : option (list string)) : M t (list string) :=
  fun r =>
    match path with
    | None => (Ok (cwd r), r)
    | Some p =>
        let target := fold_left step_path p (cwd r) in
        match dir_at r target with
        | Some _ => (Ok target, set_cwd target r)
        | None => (Raise (Error (nodir_code r)), r)
        end
    end.

(** [reg.dir()]: the names of the subdirectories and of the keys, in
    listing order. *)
Definition dir : M t (list string * list string) :=
  fun r =>
    match dir_at r (cwd r) with
    | Some d => (Ok (map fst (subdirs d), map fst (keys d)), r)
    | None => (Raise (Error (nodir_code r)), r)
    end.

(** [reg.get(key)] *)
Definition get (key : string) : M t string :=
  fun r =>
    match dir_at r (cwd r) with
    | Some d =>
        match assoc key (keys d) with
        | Some v => (Ok v, r)
        | None => (Raise (Error (nokey_code r)), r)
        end
    | None => (Raise (Error (nodir_code r)), r)
    end.

(** The cursor names an existing directory. *)
Definition wf (r : t) : Prop := dir_at r (cwd r) <> None.

(** The [Ports] directory at the root, when there is one. *)
Definition ports (r : t) : option RegDir := dir_at r [""; "Ports"].

End Registry.

(** ** The serial line behind a connection handle *)

Inductive io_event : Type :=
| Write (s : string)
| ReadLine (got : string)
| Close.

Record Wire : Type := mkWire {
  trace : list io_event;        (* every access to the transport, in order *)
  rx : list string              (* lines the device has yet to deliver *)
}.

(** ** control/servers/base_servers/serial_device_server.py *)

Module SerialDeviceServer.

(** [SerialConnection]: the wrapper around the serial server's proxy; its
    [write], [read_line], ... forward to the proxy, [ID] is the proxy's. *)
Record SerialConnection : Type := mkConn {
  ID : Z;
  conn_port : string;
  conn_timeout : option Q;
  conn_baudrate : option Z
}.

(** The attributes of a server instance. *)
Record Server : Type := mkServer {
  name : option string;
  regKey : option string;
  serNode : option string;
  port : option string;
  timeout : option Q;
  baudrate : option Z;
  ser : option SerialConnection;
  IDN : string;
  listeners : list Z
}.

Definition set_port (p : option string) (s : Server) : Server :=
  mkServer (name s) (regKey s) (serNode s) p (timeout s) (baudrate s)
           (ser s) (IDN s) (listeners s).
Definition set_ser (c : option SerialConnection) (s : Server) : Server :=
  mkServer (name s) (regKey s) (serNode s) (port s) (timeout s) (baudrate s)
           c (IDN s) (listeners s).
Definition set_IDN (i : string) (s : Server) : Server :=
  mkServer (name s) (regKey s) (serNode s) (port s) (timeout s) (baudrate s)
           (ser s) i (listeners s).
Definition set_listeners (l : list Z) (s : Server) : Server :=
  mkServer (name s) (regKey s) (serNode s) (port s) (timeout s) (baudrate s)
           (ser s) (IDN s) l.

(** The server together with what its LabRAD client reaches: the registry,
    the manager's list of running servers as (ID, name) pairs, the outcome
    of opening a port on a serial server ([None], or the code of the
    [labrad.types.Error] it raises), and the serial line. *)
Record World : Type := mkWorld {
  self : Server;
  registry : Registry.t;
  servers : list (Z * string);
  open_error : string -> string -> option Z;
  wire : Wire
}.

Definition set_self (s : Server) (w : World) : World :=
  mkWorld s (registry w) (servers w) (open_error w) (wire w).
Definition set_registry (r : Registry.t) (w : World) : World :=
  mkWorld (self w) r (servers w) (open_error w) (wire w).
Definition set_wire (x : Wire) (w : World) : World :=
  mkWorld (self w) (registry w) (servers w) (open_error w) x.

Definition on_registry {A} (m : M Registry.t A) : M World A :=
  zoom registry set_registry m.
Definition on_self {A} (m : M Server A) : M World A :=
  zoom self set_self m.

(** [getPortFromReg(self, regKey=None)] *)
Definition getPortFromReg (self_name : option string)
           (regKey : option string) : M Registry.t string :=
  (* [reg.cd()] cannot raise, so [tmp] is bound when the handler runs *)
  tmp <- Registry.cd None ;;
  try_except
    (_ <- Registry.cd (Some [""; "Ports"]) ;;
     y <- Registry.dir ;;
     regKey' <- (if negb (PyStr.truthy regKey)
                 then
                   if PyStr.truthy self_name
                   then ret (PyStr.lower (PyStr.take 4 (PyStr.value self_name)))
                   else raise (SerialDeviceError "name attribute is None")
                 else ret (PyStr.value regKey)) ;;
     match filter (fun x => PyStr.str_in regKey' x) (snd y) with
     | portStrKey :: _ =>
         portStrVal <- Registry.get portStrKey ;;
         fire (Registry.cd (Some tmp)) ;;;
         ret portStrVal
     | [] => raise (PortRegError 1)
     end)
    is_Error
    (fun e =>
       fire (Registry.cd (Some tmp)) ;;;
       if match code_of e with Some c => c =? 17 | None => false end
       then raise (PortRegError 0)
       else raise e).

(** [_matchSerial(serNode, potMatch)] *)
Definition _matchSerial (serNode potMatch : string) : bool :=
  let serMatch := PyStr.str_in "serial" (PyStr.lower potMatch) in
  let nodeMatch := PyStr.str_in (PyStr.lower serNode) (PyStr.lower potMatch) in
  serMatch && nodeMatch.

(** [findSerial(self, serNode=None)] *)
Definition findSerial (serNode : option string) : M World string :=
  self_serNode <- gets (fun w => SerialDeviceServer.serNode (self w)) ;;
  let serNode := if PyStr.truthy serNode then serNode else self_serNode in
  servers <- gets servers ;;
  match serNode with
  | Some node =>
      match filter (fun i => _matchSerial node (snd i)) servers with
      | i :: _ => ret (snd i)
      | [] => raise (SerialConnectionError 0)
      end
  | None =>
      (* [_matchSerial] calls [None.lower()] on the first server listed *)
      match servers with
      | _ :: _ =>
          raise (AttributeError "'NoneType' object has no attribute 'lower'")
      | [] => raise (SerialConnectionError 0)
      end
  end.

(** Truthiness of the [timeout] attribute (a LabRAD [Value]). *)
Definition truthy_timeout (t : option Q) : bool :=
  match t with
  | Some q => negb (Qeq_bool q 0)
  | None => false
  end.

(** [cli.servers[serStr]]: the proxy of a running server, by name. *)
Definition proxy_ID (serStr : string) (l : list (Z * string)) : option Z :=
  option_map fst (find (fun i => String.eqb (snd i) serStr) l).

(** [initSerial(self, serStr, port, **kwargs)] *)
Definition initSerial (serStr port : string) (kw_timeout : option Q)
           (kw_baudrate : option Z) : M World unit :=
  self_timeout <- gets (fun w => timeout (self w)) ;;
  let kw_timeout :=
    match kw_timeout with
    | None => if truthy_timeout self_timeout then self_timeout else None
    | Some _ => kw_timeout
    end in
  try_except
    (servers <- gets servers ;;
     open_error <- gets open_error ;;
     match proxy_ID serStr servers with
     | None => raise (KeyError serStr)
     | Some id =>
         (* SerialConnection.__init__: ser.open(port), then the settings *)
         match open_error serStr port with
         | Some c => raise (Error c)
         | None =>
             on_self (modify (set_ser
               (Some (mkConn id port kw_timeout kw_baudrate))))
         end
     end)
    is_Error
    (fun _ =>
       on_self (modify (set_ser None)) ;;;
       raise (SerialConnectionError 1)).

(** [initServer(self)]. The class [SerialDeviceServer] assigns [name],
    [port], [regKey], [serNode], [timeout] and [ser], but no [baudrate]:
    [has_baudrate] tells whether the class of the instance assigns one, as
    [HV500Server] does. Where it does not, reading [self.baudrate] raises
    [AttributeError] once the serial server is found, inside the [try],
    whose handler does not catch it. *)
Definition initServer_of (has_baudrate : bool) : M World unit :=
  s <- gets self ;;
  if negb (PyStr.truthy (regKey s)) || negb (PyStr.truthy (serNode s))
  then raise (SerialDeviceError "Must define regKey & serNode attributes")
  else
    p <- on_registry (getPortFromReg (name s) (regKey s)) ;;
    on_self (modify (set_port (Some p))) ;;;
    try_except
      (serStr <- findSerial (serNode s) ;;
       if has_baudrate
       then initSerial serStr p None (baudrate s)
       else raise (AttributeError "object has no attribute 'baudrate'"))
      is_SerialConnectionError
      (fun e =>
         on_self (modify (set_ser None)) ;;;
         match code_of e with
         | Some 0 => ret tt
         | Some 1 => ret tt
         | _ => raise e
         end).

(** [initServer(self)] on an instance of a class that assigns [baudrate]:
    the attribute [baudrate] of [Server] is the one the class assigns. *)
Definition initServer : M World unit := initServer_of true.

(** [checkConnection(self)] *)
Definition checkConnection : M World unit :=
  s <- gets self ;;
  match ser s with
  | None => raise (SerialConnectionError 2)
  | Some _ => ret tt
  end.

(** [serverConnected(self, ID, name)] *)
Definition serverConnected (ID : Z) (name : string) : M World unit :=
  s <- gets self ;;
  let should_init :=
    match ser s, port s, serNode s with
    | None, Some _, Some node => _matchSerial node name
    | _, _, _ => false
    end in
  match should_init, port s with
  | true, Some p => initSerial name p None None
  | _, _ => ret tt
  end.

(** [serverDisconnected(self, ID, name)] *)
Definition serverDisconnected (ID : Z) (name : string) : M World unit :=
  s <- gets self ;;
  match ser s with
  | Some c =>
      if SerialDeviceServer.ID c =? ID
      then on_self (modify (set_ser None))
      else ret tt
  | None => ret tt
  end.

(** [self.ser.write(s)]: [None] has no attribute [write]. *)
Definition ser_write (data : string) : M World unit :=
  s <- gets self ;;
  match ser s with
  | None => raise (AttributeError "'NoneType' object has no attribute 'write'")
  | Some _ =>
      modify (fun w =>
        set_wire (mkWire (trace (wire w) ++ [Write data]) (rx (wire w))) w)
  end.

(** [self.ser.read_line()]: the next line of the device, or the empty
    string when the serial server's timeout expires with none. *)
Definition ser_read_line : M World string :=
  s <- gets self ;;
  match ser s with
  | None =>
      raise (AttributeError "'NoneType' object has no attribute 'read_line'")
  | Some _ =>
      w <- gets wire ;;
      let got := match rx w with l :: _ => l | [] => "" end in
      modify (set_wire (mkWire (trace w ++ [ReadLine got]) (tl (rx w)))) ;;;
      ret got
  end.

(** [stopServer(self)] *)
Definition stopServer : M World unit :=
  s <- gets self ;;
  match ser s with
  | Some _ =>
      modify (fun w =>
        set_wire (mkWire (trace (wire w) ++ [Close]) (rx (wire w))) w)
  | None => ret tt
  end.

(** *** Selecting a port at the console *)

(** The statement [map(f, xs, ys)] of Python 3 builds an iterator and
    drops it: [f] is called only as an iterator is consumed, so none of
    the updates [f] would make on [d] takes place. *)
Definition map_statement {D : Type} (f : string -> string -> D -> D)
           (xs ys : list string) (d : D) : D := d.

(** The registry together with the console: [stdin] holds the lines
    [input("")] is going to return; with none left the call waits. *)
Record Console : Type := mkConsole {
  con_registry : Registry.t;
  stdin : list string
}.

Definition on_con_registry {A} (m : M Registry.t A) : M Console A :=
  zoom con_registry (fun r c => mkConsole r (stdin c)) m.

(** How far a call that reads the console got. *)
Inductive progress (A : Type) : Type :=
| Returned (a : A)
| AwaitingInput.
Arguments Returned {A} a.
Arguments AwaitingInput {A}.

(** The [while True] loop of [selectPortFromReg]; every round takes one
    line of [lines]. *)
Fixpoint select_loop (keyDict : list (string * string)) (lines : list string)
  : M Registry.t (progress string) * list string :=
  match lines with
  | [] => (ret AwaitingInput, [])
  | selection :: rest =>
      match Registry.assoc selection keyDict with
      | Some key =>
          (portStr <- Registry.get key ;; ret (Returned portStr), rest)
      | None => select_loop keyDict rest
      end
  end.

(** [str(i) for i in range(n)] *)
Definition range_strs (n : nat) : list string :=
  map (fun i => PyStr.str_of_int (Z.of_nat i)) (seq 0 n).

(** [selectPortFromReg(self)] *)
Definition selectPortFromReg : M Console (progress string) :=
  try_except
    (_ <- on_con_registry (Registry.cd (Some [""; "Ports"])) ;;
     portDir <- on_con_registry Registry.dir ;;
     let portKeys := snd portDir in
     match portKeys with
     | [] => raise (PortRegError 2)
     | _ :: _ =>
         let keyDict : list (string * string) := [] in
         let keyDict :=
           map_statement (fun x y d => (x, y) :: d)
                         (range_strs (List.length portKeys)) portKeys keyDict in
         fun c =>
           let (loop, rest) := select_loop keyDict (stdin c) in
           let (r, reg') := loop (con_registry c) in
           (r, mkConsole reg' rest)
     end)
    is_Error
    (fun e =>
       if match code_of e with Some c => c =? 13 | None => false end
       then raise (PortRegError 0)
       else raise e).

End SerialDeviceServer.

(** ** Python floats: IEEE-754 binary64 *)

Module PyFloat.

Definition prec : Z := 53.
Definition emax : Z := 1024.

Definition float : Type := spec_float.

(** The float an [int] operand is converted to, correctly rounded; the
    integers of the source (300, 500, 1000) are converted exactly, so
    that comparing with the float is comparing with the integer. *)
Definition of_int (n : Z) : float := binary_normalize prec emax n 0 false.

Definition add : float -> float -> float := SFadd prec emax.
Definition div : float -> float -> float := SFdiv prec emax.
Definition lt : float -> float -> bool := SFltb.
Definition gt (a b : float) : bool := SFltb b a.

(** The integer nearest to [num / den] ([den > 0]), ties to even. *)
Definition round_half_even (num den : Z) : Z :=
  let q := num / den in
  let r := num mod den in
  match 2 * r ?= den with
  | Lt => q
  | Gt => q + 1
  | Eq => if Z.even q then q else q + 1
  end.

(** The character of a decimal digit. *)
Definition digit_char (d : Z) : ascii := ascii_of_nat (48 + Z.to_nat d).

(** The [width] low-order decimal digits of [n], high digit first. *)
Fixpoint frac_digits (width : nat) (n : Z) : string :=
  match width with
  | O => ""
  | S w => frac_digits w (n / 10) ++ String (digit_char (n mod 10)) ""
  end.

(** A non-negative count [n] of millionths in fixed-point notation. *)
Definition fixed6 (n : Z) : string :=
  PyStr.str_of_int (n / 10 ^ 6) ++ "." ++ frac_digits 6 (n mod 10 ^ 6).

(** [f'{d:.6f}']: the exact binary value rounded to six decimals, ties to
    even; the sign is kept on a value that rounds to zero. *)
Definition format_6f (d : float) : string :=
  match d with
  | S754_nan => "nan"
  | S754_infinity s => if s then "-inf" else "inf"
  | S754_zero s => (if s then "-" else "") ++ fixed6 0
  | S754_finite s m e =>
      let n := if 0 <=? e
               then Zpos m * 2 ^ e * 10 ^ 6
               else round_half_even (Zpos m * 10 ^ 6) (2 ^ (- e)) in
      (if s then "-" else "") ++ fixed6 n
  end.

(** The number a float stands for; 0 for what is not a number. *)
Definition F2Q (x : float) : Q :=
  match x with
  | S754_finite s m e => inject_Z (cond_Zopp s (Zpos m)) * 2 ^ e
  | _ => 0
  end.

Definition is_finite (x : float) : bool :=
  match x with
  | S754_zero _ | S754_finite _ _ _ => true
  | _ => false
  end.

End PyFloat.

(** ** control/servers/hv500_server.py *)

Module HV500Server.
Import SerialDeviceServer.

Definition VLIM : Z := 300.

(** The class attributes of [HV500Server]; [node] is [getNodeName()]. *)
Definition new (node : string) : Server :=
  mkServer (Some "hv500_server") (Some "HV500_HV264") (Some node) None
           (Some (1 # 10)) (Some 9600) None "" [].

(** [channel_to_str(self, channel)] *)
Definition channel_to_str (channel : Z) : string :=
  let _channel := PyStr.str_of_int channel in
  if Nat.ltb 1 (String.length _channel) then _channel else "0" ++ _channel.

(** [voltage_to_kw(self, v)] *)
Definition voltage_to_kw (v : PyFloat.float) : string :=
  let d := PyFloat.div (PyFloat.add v (PyFloat.of_int 500))
                       (PyFloat.of_int 1000) in
  PyFloat.format_6f d.

(** [initServer(self)] *)
Definition initServer : M World unit :=
  SerialDeviceServer.initServer ;;;
  on_self (modify (set_listeners [])) ;;;
  s <- gets self ;;
  match regKey s with
  | Some k => on_self (modify (set_IDN (PyStr.last_n 5 k)))
  | None => raise (TypeError "'NoneType' object is not subscriptable")
  end.

(** [get_ID(self, c)] *)
Definition get_ID : M World string :=
  ser_write ("IDN" ++ PyStr.CR) ;;;
  val <- ser_read_line ;;
  ret val.

Section Parsing.

(** Python's built-in [float(s)] on a string: the float read, or the
    [ValueError] raised. *)
Variable float_of_str : string -> result PyFloat.float.

(** [get_voltage(self, c, channel)] *)
Definition get_voltage (channel : Z) : M World PyFloat.float :=
  let ch_str := channel_to_str channel in
  s <- gets self ;;
  ser_write (IDN s ++ " Q" ++ ch_str ++ PyStr.CR) ;;;
  val <- ser_read_line ;;
  match float_of_str (PyStr.but_last val) with
  | Ok x => ret x
  | Raise e => raise e
  end.

End Parsing.

(** [set_voltage(self, c, channel, voltage)] *)
Definition set_voltage (channel : Z) (voltage : PyFloat.float)
  : M World unit :=
  if PyFloat.gt voltage (PyFloat.of_int VLIM)
     || PyFloat.lt voltage (PyFloat.of_int (- VLIM))
  then raise (ValueError "Voltage setpoint out of bounds.")
  else
    let ch_str := channel_to_str channel in
    let volt_str := voltage_to_kw voltage in
    s <- gets self ;;
    ser_write (IDN s ++ " CH" ++ ch_str ++ " " ++ volt_str ++ PyStr.CR).

End HV500Server.

(** ** The HV500 at the other end of the line *)

Module HV500Device.

(** The value of a decimal digit. *)
Definition digit_value (c : ascii) : option Z :=
  let n := Z.of_nat (nat_of_ascii c) in
  if (48 <=? n) && (n <=? 57) then Some (n - 48) else None.

(** The number an unsigned decimal numeral with at most one point stands
    for; [scale] is the power of ten the digits after the point have
    reached. *)
Fixpoint read_decimal (s : string) (acc : Z) (scale : option Z) : option Q :=
  match s with
  | EmptyString =>
      match scale with
      | Some k => Some (inject_Z acc / inject_Z k)%Q
      | None => Some (inject_Z acc)
      end
  | String c s' =>
      if Ascii.eqb c "."
      then match scale with
           | None => read_decimal s' acc (Some 1)
           | Some _ => None
           end
      else match digit_value c with
           | Some d =>
               read_decimal s' (10 * acc + d) (option_map (Z.mul 10) scale)
           | None => None
           end
  end.

(** Modelled from the spec: the decoding is the device's side of the
    protocol and no code of the repository; it is the inverse of the
    encoding [(volts + 500) / 1000], applied to the number the keyword
    spells: [kw * 1000 - 500] volts. *)
Definition kw_to_voltage (kw : string) : option Q :=
  option_map (fun d => d * 1000 - 500)%Q (read_decimal kw 0 None).

End HV500Device.

(** ** control/servers/base_servers/tcp_server.py *)

Module TCPServer.

(** *** Bytes and text

    A byte string is a [string] with one character per byte. A Python
    [str] is represented by its UTF-8 encoding: texts are concatenated by
    concatenating their encodings, and as the encoding of a character
    never starts inside that of another, [needle in hay] on texts is the
    substring test on the encodings. *)

Definition in_range (lo hi : nat) (b : ascii) : bool :=
  (Nat.leb lo (nat_of_ascii b) && Nat.leb (nat_of_ascii b) hi)%bool.

(** A continuation byte, [0x80..0xBF]. *)
Definition continuation (b : ascii) : bool := in_range 128 191 b.

(** The byte that may follow the lead byte [b0] of a character of three
    or four bytes: no overlong form, no surrogate, nothing above
    U+10FFFF. *)
Definition second_byte (b0 b1 : ascii) : bool :=
  let lead := nat_of_ascii b0 in
  if Nat.eqb lead 224 then in_range 160 191 b1
  else if Nat.eqb lead 237 then in_range 128 159 b1
  else if Nat.eqb lead 240 then in_range 144 191 b1
  else if Nat.eqb lead 244 then in_range 128 143 b1
  else continuation b1.

(** Whether [bytes.decode()] accepts the bytes: well-formed UTF-8. *)
Fixpoint utf8_valid (bytes : string) : bool :=
  match bytes with
  | EmptyString => true
  | String b0 s1 =>
      if in_range 0 127 b0 then utf8_valid s1
      else if in_range 194 223 b0
      then match s1 with
           | String b1 s2 => continuation b1 && utf8_valid s2
           | _ => false
           end
      else if in_range 224 239 b0
      then match s1 with
           | String b1 (String b2 s3) =>
               second_byte b0 b1 && continuation b2 && utf8_valid s3
           | _ => false
           end
      else if in_range 240 244 b0
      then match s1 with
           | String b1 (String b2 (String b3 s4)) =>
               second_byte b0 b1 && continuation b2 && continuation b3
               && utf8_valid s4
           | _ => false
           end
      else false
  end.

(** [bytes.decode()] *)
Definition decode (bytes : string) : result string :=
  if utf8_valid bytes then Ok bytes else Raise UnicodeDecodeError.

(** The connected socket: [inbound] lists the byte strings the successive
    calls of [recv] are going to return, one chunk per call. Once they
    are used up, [recv] times out while the peer keeps the connection
    open, and returns [b''] at every call after the peer has closed it. *)
Record Socket : Type := mkSocket {
  inbound : list string;
  peer_closed : bool;
  outbound : list string
}.

Definition READ_SIZE : Z := 4096.

(** [self.socket.recv(READ_SIZE).decode()]: the bytes received are off
    the socket when [decode] raises. *)
Definition recv : M Socket string :=
  fun s =>
    match inbound s with
    | c :: rest => (decode c, mkSocket rest (peer_closed s) (outbound s))
    | [] => if peer_closed s then (decode "", s) else (Raise SocketTimeout, s)
    end.

(** [get_address(self, key)] *)
Definition get_address (key : string) : M Registry.t string :=
  current_directory <- Registry.cd None ;;
  try_except (Registry.cd (Some [""; "Ports"])) (fun _ => true)
    (fun _ => raise (Exception_ "Cannot find 'Ports' directory in registry."))
  ;;;
  keys <- Registry.dir ;;
  address <-
    (if existsb (String.eqb key) (snd keys)
     then Registry.get key
     else
       fire (Registry.cd (Some current_directory)) ;;;
       raise (Exception_
                ("Cannot find key '" ++ key ++ "' in 'Ports' directory."))) ;;
  fire (Registry.cd (Some current_directory)) ;;;
  ret address.

(** [send(self, str_to_send)] *)
Definition send (str_to_send : string) : M Socket unit :=
  modify (fun s => mkSocket (inbound s) (peer_closed s)
                            (outbound s ++ [str_to_send])).

(** The [while] loop of [readline], entered with [str_to_return]; every
    round is one [recv], and [fuel] bounds the number of rounds: [None]
    is a loop still running when the fuel is used up. *)
Fixpoint readline_loop (fuel : nat) (termination str_to_return : string)
         (s : Socket) : option (result string * Socket) :=
  if negb (PyStr.str_in termination str_to_return)
  then match fuel with
       | O => None
       | S fuel' =>
           match recv s with
           | (Ok chunk, s') =>
               readline_loop fuel' termination (str_to_return ++ chunk) s'
           | (Raise e, s') => Some (Raise e, s')
           end
       end
  else Some (Ok str_to_return, s).

(** [readline(self, termination="\n")], run for at most [fuel] rounds of
    its loop. *)
Definition readline (fuel : nat) (termination : string) (s : Socket)
  : option (result string * Socket) :=
  readline_loop fuel termination "" s.


(** *** Connecting *)

(** A socket object: the peer it is connected to, if any, and the timeout
    set on it, if any. *)
Record Endpoint : Type := mkEndpoint {
  peer : option (string * Z);
  sock_timeout : option Q
}.

(** The attributes of a [TCPServer] instance. *)
Record Server : Type := mkServer {
  regKey : option string;
  port : option Z;
  timeout : Q;
  socket : option Endpoint
}.

Definition set_socket (e : option Endpoint) (s : Server) : Server :=
  mkServer (regKey s) (port s) (timeout s) e.

(** The server with the registry and the network: [connect_error] gives
    the exception [socket.connect] raises on an address, if any. *)
Record World : Type := mkWorld {
  self : Server;
  registry : Registry.t;
  connect_error : string -> Z -> option exn
}.

Definition on_registry {A} (m : M Registry.t A) : M World A :=
  zoom registry (fun r w => mkWorld (self w) r (connect_error w)) m.
Definition on_self {A} (m : M Server A) : M World A :=
  zoom self (fun s w => mkWorld s (registry w) (connect_error w)) m.

(** [get_address(self, key)] with the attribute [regKey] for [key]: the
    value [None] is in no listing, and prints as [None]. *)
Definition get_address_of (key : option string) : M Registry.t string :=
  match key with
  | Some k => get_address k
  | None =>
      current_directory <- Registry.cd None ;;
      try_except (Registry.cd (Some [""; "Ports"])) (fun _ => true)
        (fun _ =>
           raise (Exception_ "Cannot find 'Ports' directory in registry."))
      ;;;
      _ <- Registry.dir ;;
      fire (Registry.cd (Some current_directory)) ;;;
      raise (Exception_ "Cannot find key 'None' in 'Ports' directory.")
  end.

(** [initServer(self)] *)
Definition initServer : M World unit :=
  s <- gets self ;;
  address <- on_registry (get_address_of (regKey s)) ;;
  on_self (modify (set_socket (Some (mkEndpoint None None)))) ;;;
  match port s with
  | None =>
      raise (TypeError
               "'NoneType' object cannot be interpreted as an integer")
  | Some p =>
      connect_error <- gets connect_error ;;
      match connect_error address p with
      | Some e => raise e
      | None =>
          on_self (modify (set_socket
            (Some (mkEndpoint (Some (address, p)) None)))) ;;;
          on_self (modify (set_socket
            (Some (mkEndpoint (Some (address, p)) (Some (timeout s))))))
      end
  end.

End TCPServer.

(** ** control/servers/base_servers/visa_server.py *)

Module VisaServer.

(** An attribute of an instance: the class [VisaServer] assigns none,
    so an attribute is missing until a subclass or a method assigns it,
    and reading a missing one raises [AttributeError]. *)
Inductive attribute (A : Type) : Type :=
| Missing
| Holds (a : A).
Arguments Missing {A}.
Arguments Holds {A} a.

(** The attributes of a [VisaServer] instance; [name] is the one of
    [LabradServer] or of the subclass. *)
Record Server : Type := mkServer {
  name : option string;
  regKey : attribute (option string);
  port : attribute (option string);
  usb_links : attribute (list (string * option string));
  instruments : attribute (list string);
  address : attribute string;
  device : attribute string       (* the resource opened, by its address *)
}.

Definition set_port (p : option string) (s : Server) : Server :=
  mkServer (name s) (regKey s) (Holds p) (usb_links s) (instruments s)
           (address s) (device s).
Definition set_usb_links (l : list (string * option string)) (s : Server)
  : Server :=
  mkServer (name s) (regKey s) (port s) (Holds l) (instruments s)
           (address s) (device s).
Definition set_instruments (l : list string) (s : Server) : Server :=
  mkServer (name s) (regKey s) (port s) (usb_links s) (Holds l) (address s)
           (device s).
Definition set_address (a : string) (s : Server) : Server :=
  mkServer (name s) (regKey s) (port s) (usb_links s) (instruments s)
           (Holds a) (device s).
Definition set_device (d : string) (s : Server) : Server :=
  mkServer (name s) (regKey s) (port s) (usb_links s) (instruments s)
           (address s) (Holds d).

(** How a call into [pyvisa] ends: with a value, with [VisaIOError], or
    with another exception (a [ValueError] where no VISA backend is
    installed, an [OSError], ...). *)
Inductive visa_call (A : Type) : Type :=
| Gives (a : A)
| VisaIOError
| Fails (e : exn).
Arguments Gives {A} a.
Arguments VisaIOError {A}.
Arguments Fails {A} e.

(** The server with the registry and the instrument bus: how
    [visa.ResourceManager()], [rm.list_resources()] and
    [rm.open_resource(address)] end. *)
Record World : Type := mkWorld {
  self : Server;
  registry : Registry.t;
  manager : visa_call unit;
  resources : visa_call (list string);
  opens : string -> visa_call unit
}.

Definition on_registry {A} (m : M Registry.t A) : M World A :=
  zoom registry
       (fun r w => mkWorld (self w) r (manager w) (resources w) (opens w)) m.
Definition on_self {A} (m : M Server A) : M World A :=
  zoom self
       (fun s w => mkWorld s (registry w) (manager w) (resources w) (opens w))
       m.

(** The address picked by the [for] loop of [initServer]: that of the
    first link whose address is among the instruments, [""] otherwise. *)
Fixpoint pick_address (links : list (string * string))
         (instruments : list string) : string :=
  match links with
  | [] => ""
  | (_name, address) :: links' =>
      if existsb (String.eqb address) instruments
      then address
      else pick_address links' instruments
  end.

(** A call into [pyvisa] inside the [try] of [initServer]: [VisaIOError]
    goes to the handler, which prints and lets the method return; any
    other exception leaves the method. *)
Definition in_try {A} (c : visa_call A) (k : A -> M World unit)
  : M World unit :=
  match c with
  | Gives a => k a
  | VisaIOError => ret tt
  | Fails e => raise e
  end.

(** [initServer(self, links)] *)
Definition initServer (links : list (string * string)) : M World unit :=
  rm <- gets manager ;;
  in_try rm (fun _ =>
    listing <- gets resources ;;
    in_try listing (fun listed =>
      on_self (modify (set_instruments listed)) ;;;
      if Nat.eqb (List.length listed) 0
      then ret tt
      else
        on_self (modify (set_address "")) ;;;
        on_self (modify (set_address (pick_address links listed))) ;;;
        if String.eqb (pick_address links listed) ""
        then ret tt
        else
          opens <- gets opens ;;
          in_try (opens (pick_address links listed)) (fun _ =>
            on_self (modify (set_device (pick_address links listed)))))).

(** [getPortFromReg(self, regKey=None)]; [None] is the [None] returned by
    falling off the end of the function. *)
Definition getPortFromReg (self_name : option string)
           (regKey : option string) : M Registry.t (option string) :=
  tmp <- Registry.cd None ;;
  try_except
    (_ <- Registry.cd (Some [""; "Ports"]) ;;
     y <- Registry.dir ;;
     regKey' <- (if negb (PyStr.truthy regKey)
                 then
                   if PyStr.truthy self_name
                   then ret (PyStr.lower (PyStr.take 4 (PyStr.value self_name)))
                   else raise (Exception_ "name attribute is None")
                 else ret (PyStr.value regKey)) ;;
     match filter (fun x => PyStr.str_in regKey' x) (snd y) with
     | portStrKey :: _ =>
         portStrVal <- Registry.get portStrKey ;;
         fire (Registry.cd (Some tmp)) ;;;
         ret (Some portStrVal)
     | [] => raise (Exception_ "")
     end)
    (fun _ => true)
    (fun e =>
       fire (Registry.cd (Some tmp)) ;;;
       match code_of e with
       | Some c => if c =? 17 then ret None else raise e
       | None =>
           raise (AttributeError "'Exception' object has no attribute 'code'")
       end).

(** [loadConfigInfo(self)] *)
Definition loadConfigInfo : M World unit :=
  s <- gets self ;;
  match regKey s with
  | Missing => raise (AttributeError "object has no attribute 'regKey'")
  | Holds k =>
      if negb (PyStr.truthy k)
      then raise (Exception_ "self.regKey must be defined to find the port!")
      else
        p <- on_registry (getPortFromReg (name s) k) ;;
        on_self (modify (set_port p)) ;;;
        on_self (modify (set_usb_links [(PyStr.value k, p)]))
  end.

End VisaServer.

(** * Properties *)

(** ** Strings *)

Module PyStrFacts.
Import PyStr.

Lemma append_nil_r (s : string) : s ++ "" = s.
Proof. induction s as [|c s IH]; simpl; [reflexivity | now rewrite IH]. Qed.

Lemma append_assoc (a b c : string) : (a ++ b) ++ c = a ++ (b ++ c).
Proof. induction a as [|x a IH]; simpl; [reflexivity | now rewrite IH]. Qed.

Lemma prefix_nil (h : string) : String.prefix "" h = true.
Proof. destruct h; reflexivity. Qed.

Lemma prefix_app (t : string) : forall s, String.prefix t (t ++ s) = true.
Proof.
  induction t as [|c t IH]; intro s; simpl; [apply prefix_nil|].
  destruct (ascii_dec c c) as [_|N]; [apply IH | now elim N].
Qed.

Lemma prefix_split (t : string) :
  forall h, String.prefix t h = true -> exists s, h = t ++ s.
Proof.
  induction t as [|c t IH]; intros h H.
  - now exists h.
  - destruct h as [|d h]; simpl in H; [discriminate|].
    destruct (ascii_dec c d) as [->|_]; [|discriminate].
    destruct (IH h H) as [s ->]. now exists s.
Qed.

Lemma str_in_cons (t : string) (c : ascii) (h : string) :
  str_in t (String c h) = String.prefix t (String c h) || str_in t h.
Proof. reflexivity. Qed.

Lemma str_in_nil (t : string) : str_in t "" = String.prefix t "".
Proof. simpl. apply orb_false_r. Qed.

(** [needle in hay] holds exactly when [hay] splits around [needle]. *)
Lemma str_in_spec (t h : string) :
  str_in t h = true <-> exists p s, h = p ++ t ++ s.
Proof.
  split.
  - induction h as [|c h IH]; intro H.
    + rewrite str_in_nil in H. destruct (prefix_split _ _ H) as [s E].
      now exists "", s.
    + rewrite str_in_cons in H. apply orb_true_iff in H. destruct H as [H|H].
      * destruct (prefix_split _ _ H) as [s E]. now exists "", s.
      * destruct (IH H) as (p & s & ->). now exists (String c p), s.
  - intros (p & s & ->). induction p as [|c p IH].
    + change ("" ++ t ++ s) with (t ++ s).
      destruct (t ++ s) eqn:E.
      * rewrite str_in_nil. destruct t; [reflexivity | discriminate].
      * rewrite str_in_cons, <- E, prefix_app. reflexivity.
    + change (String c p ++ t ++ s) with (String c (p ++ t ++ s)).
      rewrite str_in_cons, IH. apply orb_true_r.
Qed.



End PyStrFacts.

(** ** The TCP transport *)

Module TCPServerFacts.
Import PyStr PyStrFacts TCPServer.





Lemma recv_undecodable (c : string) (rest : list string) (closed : bool)
      (sent : list string) :
  utf8_valid c = false ->
  recv (mkSocket (c :: rest) closed sent)
  = (Raise UnicodeDecodeError, mkSocket rest closed sent).
Proof. intro V. unfold recv, decode. cbn [inbound]. now rewrite V. Qed.







(** After the line of the example is returned, a second [readline] finds
    nothing to return: the line is delivered exactly once. *)
Example readline_example_once :
  readline 4 LF (mkSocket ["12."; "5" ++ LF] false [])
  = Some (Ok ("12.5" ++ LF), mkSocket [] false [])
  /\ readline 4 LF (mkSocket [] false [])
     = Some (Raise SocketTimeout, mkSocket [] false []).
Proof. split; reflexivity. Qed.




End TCPServerFacts.

(** ** The registry *)

Module RegistryFacts.
Import Registry.

(** A cursor the registry can have handed out: an absolute path, with no
    empty segment after the leading one, that names a directory. *)
Definition wf_cursor (r : t) : Prop :=
  exists p, cwd r = "" :: p
            /\ Forall (fun seg => seg <> "") p
            /\ walk (root r) p <> None.

Lemma fold_step_path (p : list string) :
  Forall (fun seg => seg <> "") p ->
  forall cur, fold_left step_path p cur = (cur ++ p)%list.
Proof.
  induction 1 as [|seg p Hseg _ IH]; intro cur; simpl.
  - now rewrite app_nil_r.
  - unfold step_path at 2. apply String.eqb_neq in Hseg. rewrite Hseg.
    rewrite IH, <- app_assoc. reflexivity.
Qed.

Lemma set_cwd_cwd (r : t) : set_cwd (cwd r) r = r.
Proof. now destruct r. Qed.

Lemma set_cwd_twice (p q : list string) (r : t) :
  set_cwd p (set_cwd q r) = set_cwd p r.
Proof. reflexivity. Qed.

Lemma dir_at_set_cwd (q p : list string) (r : t) :
  dir_at (set_cwd q r) p = dir_at r p.
Proof. destruct p; reflexivity. Qed.

Lemma cd_none (r : t) : cd None r = (Ok (cwd r), r).
Proof. reflexivity. Qed.

(** Going to [Ports] from anywhere. *)
Lemma cd_ports (r : t) :
  cd (Some [""; "Ports"]) r =
  match ports r with
  | Some _ => (Ok [""; "Ports"], set_cwd [""; "Ports"] r)
  | None => (Raise (Error (nodir_code r)), r)
  end.
Proof. reflexivity. Qed.

(** Going back to a cursor obtained earlier puts the registry back. *)
Lemma cd_back (r : t) (q : list string) :
  wf_cursor r -> cd (Some (cwd r)) (set_cwd q r) = (Ok (cwd r), r).
Proof.
  intros (p & E & Hp & Hw). unfold cd.
  assert (T : fold_left step_path (cwd r) (cwd (set_cwd q r)) = cwd r).
  { rewrite E. simpl. unfold step_path at 2. simpl.
    now rewrite fold_step_path. }
  rewrite T, dir_at_set_cwd. unfold dir_at. rewrite E. simpl.
  destruct (walk (root r) p); [|now elim Hw].
  rewrite <- E, set_cwd_twice, set_cwd_cwd. reflexivity.
Qed.

Lemma cd_back_same (r : t) :
  wf_cursor r -> cd (Some (cwd r)) r = (Ok (cwd r), r).
Proof.
  intro H. rewrite <- (set_cwd_cwd r) at 2. now apply cd_back.
Qed.

Lemma assoc_member {A : Type} (k : string) (l : list (string * A)) :
  In k (map fst l) -> exists a, assoc k l = Some a.
Proof.
  induction l as [|[k' a] l IH]; simpl; [tauto|].
  intros [->|H].
  - rewrite String.eqb_refl. now exists a.
  - destruct (String.eqb k' k); [now exists a | auto].
Qed.

Lemma filter_head_find {A : Type} (f : A -> bool) (l : list A) :
  find f l = match filter f l with x :: _ => Some x | [] => None end.
Proof.
  induction l as [|x l IH]; simpl; [reflexivity|].
  destruct (f x); [reflexivity | exact IH].
Qed.

End RegistryFacts.

(** ** Port resolution and the connection manager *)

Module SerialDeviceServerFacts.
Import PyStr Registry RegistryFacts SerialDeviceServer.

Ltac run :=
  unfold on_registry, on_self in *;
  unfold bind, ret, raise, gets, modify, try_except, fire, zoom in *.

(** The substring [getPortFromReg] looks for: the key it is given, or the
    first four characters of the server's name in lower case. *)
Definition lookup_substring (self_name regKey : option string)
  : option string :=
  if truthy regKey then Some (value regKey)
  else if truthy self_name then Some (lower (take 4 (value self_name)))
  else None.

Definition at_ports (r : Registry.t) : Registry.t :=
  set_cwd [""; "Ports"] r.

Lemma dir_at_ports (r : Registry.t) :
  dir_at (at_ports r) (cwd (at_ports r)) = ports r.
Proof. reflexivity. Qed.

(** The four ways through [getPortFromReg]. *)
Lemma getPortFromReg_no_ports (r : Registry.t) (n k : option string) :
  ports r = None ->
  getPortFromReg n k r
  = (if nodir_code r =? 17 then Raise (PortRegError 0)
     else Raise (Error (nodir_code r)),
     snd (cd (Some (cwd r)) r)).
Proof.
  intro H. unfold getPortFromReg. run. rewrite cd_none, cd_ports, H.
  cbn [is_Error code_of].
  destruct (nodir_code r =? 17); reflexivity.
Qed.

Lemma getPortFromReg_no_name (r : Registry.t) (n k : option string)
      (d : RegDir) :
  ports r = Some d ->
  lookup_substring n k = None ->
  getPortFromReg n k r
  = (Raise (SerialDeviceError "name attribute is None"), at_ports r).
Proof.
  intros H L. unfold getPortFromReg. run. rewrite cd_none, cd_ports, H.
  unfold dir. fold (at_ports r). rewrite dir_at_ports, H.
  unfold lookup_substring in L.
  destruct (truthy k); [discriminate|]. destruct (truthy n); [discriminate|].
  reflexivity.
Qed.

Lemma getPortFromReg_no_match (r : Registry.t) (n k : option string)
      (d : RegDir) (key : string) :
  ports r = Some d ->
  lookup_substring n k = Some key ->
  find (str_in key) (map fst (keys d)) = None ->
  getPortFromReg n k r = (Raise (PortRegError 1), at_ports r).
Proof.
  intros H L F. unfold getPortFromReg. run. rewrite cd_none, cd_ports, H.
  unfold dir. fold (at_ports r). rewrite dir_at_ports, H.
  rewrite filter_head_find in F.
  unfold lookup_substring in L.
  destruct (truthy k); [|destruct (truthy n); [|discriminate]];
    injection L as <-; cbn [negb snd];
    destruct (filter _ _); [reflexivity|discriminate|reflexivity|discriminate].
Qed.

Lemma getPortFromReg_match (r : Registry.t) (n k : option string)
      (d : RegDir) (key found : string) :
  ports r = Some d ->
  lookup_substring n k = Some key ->
  find (str_in key) (map fst (keys d)) = Some found ->
  exists v,
    assoc found (keys d) = Some v
    /\ getPortFromReg n k r
       = (Ok v, snd (cd (Some (cwd r)) (at_ports r))).
Proof.
  intros H L F.
  destruct (assoc_member found (keys d)) as [v Hv].
  { apply find_some in F. tauto. }
  exists v. split; [exact Hv|].
  unfold getPortFromReg. run. rewrite cd_none, cd_ports, H.
  unfold dir, get. fold (at_ports r). rewrite dir_at_ports, H.
  rewrite filter_head_find in F.
  unfold lookup_substring in L.
  destruct (truthy k); [|destruct (truthy n); [|discriminate]];
    injection L as <-; cbn [negb snd];
    (destruct (filter _ _); [discriminate|]); injection F as ->;
    rewrite dir_at_ports, H, Hv; reflexivity.
Qed.

(** The registry of the running example: [Ports] holds the two keys
    "HV500_HV264" and "OTHER_KEY", and the cursor is at the root. *)
Definition example_registry : Registry.t :=
  Registry.mk
    (Dir [("Ports", Dir [] [("HV500_HV264", "COM3"); ("OTHER_KEY", "COM9")]);
          ("Servers", Dir [] [])] [])
    [""] 17 0.

Example getPortFromReg_example :
  fst (getPortFromReg (Some "hv500_server") (Some "HV500") example_registry)
  = Ok "COM3".
Proof. reflexivity. Qed.

(** The cursor after [getPortFromReg]. It is back where it was when a
    port is returned and when [Ports] is missing. *)
Lemma getPortFromReg_restores_on_success
      (r : Registry.t) (n k : option string) (v : string) :
  wf_cursor r ->
  fst (getPortFromReg n k r) = Ok v ->
  snd (getPortFromReg n k r) = r.
Proof.
  intros W E. destruct (ports r) as [d|] eqn:H.
  - destruct (lookup_substring n k) as [key|] eqn:L.
    + destruct (find (str_in key) (map fst (keys d))) as [found|] eqn:F.
      * destruct (getPortFromReg_match r n k d key found H L F)
          as (v' & _ & ->).
        unfold at_ports. now rewrite cd_back.
      * rewrite (getPortFromReg_no_match r n k d key H L F) in E.
        discriminate.
    + rewrite (getPortFromReg_no_name r n k d H L) in E. discriminate.
  - rewrite (getPortFromReg_no_ports r n k H) in *.
    destruct (nodir_code r =? 17); discriminate.
Qed.

Lemma getPortFromReg_restores_on_NotConfigured
      (r : Registry.t) (n k : option string) :
  wf_cursor r ->
  ports r = None ->
  snd (getPortFromReg n k r) = r.
Proof.
  intros W H. rewrite (getPortFromReg_no_ports r n k H).
  now rewrite cd_back_same.
Qed.

(** It is left in [Ports] when no key matches: [PortRegError] is not a
    [labrad.types.Error], so the handler that restores the cursor does not
    run. *)
Lemma getPortFromReg_KeyNotFound_cursor
      (r : Registry.t) (n k : option string) :
  fst (getPortFromReg n k r) = Raise (PortRegError 1) ->
  cwd (snd (getPortFromReg n k r)) = [""; "Ports"].
Proof.
  intro E. destruct (ports r) as [d|] eqn:H.
  - destruct (lookup_substring n k) as [key|] eqn:L.
    + destruct (find (str_in key) (map fst (keys d))) as [found|] eqn:F.
      * destruct (getPortFromReg_match r n k d key found H L F)
          as (v' & _ & E'). rewrite E' in E. discriminate.
      * now rewrite (getPortFromReg_no_match r n k d key H L F).
    + rewrite (getPortFromReg_no_name r n k d H L) in E. discriminate.
  - rewrite (getPortFromReg_no_ports r n k H) in E.
    destruct (nodir_code r =? 17); discriminate.
Qed.

(** The sibling lookup of the TCP server, [get_address], puts the cursor
    back on every path: it restores it before raising on a missing key,
    and a [cd] that fails has not moved it. *)
Lemma existsb_assoc (key : string) (l : list (string * string)) :
  existsb (String.eqb key) (map fst l) = true ->
  exists v, assoc key l = Some v.
Proof.
  intro H. apply existsb_exists in H. destruct H as (k & I & E).
  apply String.eqb_eq in E. subst k. now apply assoc_member.
Qed.

Lemma get_address_restores_cursor (r : Registry.t) (key : string) :
  wf_cursor r -> snd (TCPServer.get_address key r) = r.
Proof.
  intro W. unfold TCPServer.get_address. run.
  rewrite cd_none, cd_ports. destruct (ports r) as [d|] eqn:H.
  - unfold dir, get. fold (at_ports r). rewrite dir_at_ports, H.
    cbn [snd]. destruct (existsb _ _) eqn:X.
    + destruct (existsb_assoc key (keys d) X) as [v Hv].
      rewrite dir_at_ports, H, Hv. unfold at_ports.
      now rewrite cd_back.
    + unfold at_ports. now rewrite cd_back.
  - reflexivity.
Qed.

(** C5 (the defect): from a cursor at the root, with a [Ports] directory
    none of whose keys contains "HV500_HV264", [getPortFromReg] raises
    [PortRegError(1)] and leaves the cursor in [Ports]. *)
Theorem getPortFromReg_KeyNotFound_leaks_cursor :
  let r := Registry.mk (Dir [("Ports", Dir [] [("OTHER_KEY", "COM9")])] [])
                       [""] 17 0 in
  fst (getPortFromReg (Some "hv500_server") (Some "HV500_HV264") r)
  = Raise (PortRegError 1)
  /\ cwd r = [""]
  /\ cwd (snd (getPortFromReg (Some "hv500_server") (Some "HV500_HV264") r))
     = [""; "Ports"].
Proof. cbv zeta. repeat split. Qed.

(** *** The connection manager *)

(** C7: while a handle is held, the notification that a server went away
    drops the handle exactly when it carries the identity of the handle's
    serial server; with any other identity the world is left as it is. *)
Theorem serverDisconnected_by_identity
        (w : World) (c : SerialConnection) (id : Z) (name : string) :
  ser (self w) = Some c ->
  (id <> ID c -> serverDisconnected id name w = (Ok tt, w))
  /\ (id = ID c ->
      serverDisconnected id name w
      = (Ok tt, set_self (set_ser None (self w)) w)
      /\ ser (self (snd (serverDisconnected id name w))) = None).
Proof.
  intro H. unfold serverDisconnected. run. rewrite H. split.
  - intro N. apply not_eq_sym, Z.eqb_neq in N. now rewrite N.
  - intros ->. rewrite Z.eqb_refl. split; reflexivity.
Qed.

(** A connected HV500 server on node "lab": the registry of the running
    example, the serial server of the node with identity 3, and a device
    about to answer "12.50". *)
Definition example_connection : SerialConnection :=
  mkConn 3 "COM3" (Some (1 # 10)%Q) (Some 9600).

Definition example_world : World :=
  mkWorld
    (mkServer (Some "hv500_server") (Some "HV500_HV264") (Some "lab")
              (Some "COM3") (Some (1 # 10)%Q) (Some 9600)
              (Some example_connection) "HV264" [])
    example_registry
    [(3, "lab Serial Server")]
    (fun _ _ => None)
    (mkWire [] ["12.50" ++ LF]).

Lemma serverDisconnected_by_identity_witness :
  ser (self example_world) = Some example_connection
  /\ (4 <> ID example_connection ->
      serverDisconnected 4 "other Serial Server" example_world
      = (Ok tt, example_world))
  /\ (3 = ID example_connection ->
      serverDisconnected 3 "lab Serial Server" example_world
      = (Ok tt, set_self (set_ser None (self example_world)) example_world)
      /\ ser (self (snd (serverDisconnected 3 "lab Serial Server"
                                            example_world))) = None).
Proof.
  split; [reflexivity|]. split.
  - apply (proj1 (serverDisconnected_by_identity example_world
                    example_connection 4 "other Serial Server" eq_refl)).
  - apply (proj2 (serverDisconnected_by_identity example_world
                    example_connection 3 "lab Serial Server" eq_refl)).
Defined.

(** The server before [initServer] has run, in a given environment. *)
Definition startup (node : string) (reg : Registry.t)
           (running : list (Z * string))
           (opening : string -> string -> option Z) : World :=
  mkWorld
    (mkServer (Some "hv500_server") (Some "HV500_HV264") (Some node) None
              (Some (1 # 10)%Q) (Some 9600) None "" [])
    reg running opening (mkWire [] []).

(** A registry without a [Ports] directory. *)
Definition unconfigured_registry : Registry.t :=
  Registry.mk (Dir [("Servers", Dir [] [])] []) [""] 17 0.

(** A registry whose [Ports] directory has no key for the HV500. *)
Definition keyless_registry : Registry.t :=
  Registry.mk (Dir [("Ports", Dir [] [("OTHER_KEY", "COM9")])] []) [""] 17 0.

(** C3 (as stated, refuted): with the [Ports] directory missing, and with
    no matching key in it, [initServer] does not complete: the
    [PortRegError] of the registry lookup comes out of it. *)
Lemma initServer_registry_failure_is_fatal :
  fst (initServer (startup "lab" unconfigured_registry
                           [(3, "lab Serial Server")] (fun _ _ => None)))
  = Raise (PortRegError 0)
  /\ fst (initServer (startup "lab" keyless_registry
                              [(3, "lab Serial Server")] (fun _ _ => None)))
     = Raise (PortRegError 1).
Proof. split; reflexivity. Qed.

(** A server found in the manager's list has a proxy. *)
Lemma proxy_ID_listed (f : Z * string -> bool) (l : list (Z * string))
      (i : Z * string) (rest : list (Z * string)) :
  filter f l = i :: rest -> proxy_ID (snd i) l <> None.
Proof.
  intro F. assert (I : In i l).
  { apply (proj1 (filter_In f i l)). rewrite F. now left. }
  unfold proxy_ID.
  destruct (find (fun j => String.eqb (snd j) (snd i)) l) eqn:E;
    [discriminate|].
  apply (find_none _ _ E) in I. now rewrite String.eqb_refl in I.
Qed.

(** C3 (amended): [initServer] resolves the port outside of its [try]
    block, so a failure of the registry lookup ([PortRegError], whatever
    its code) propagates to the caller, the attributes of the server being
    left as they were; what [initServer] catches is the failure to find
    the serial server of the node and the failure to open the port
    ([SerialConnectionError] 0 and 1): then it completes with the port
    recorded and no handle held. *)
Theorem initServer_failures (w : World) :
  truthy (regKey (self w)) = true ->
  truthy (serNode (self w)) = true ->
  let lookup :=
    getPortFromReg (name (self w)) (regKey (self w)) (registry w) in
  (forall c,
      fst lookup = Raise (PortRegError c) ->
      fst (initServer w) = Raise (PortRegError c)
      /\ self (snd (initServer w)) = self w)
  /\ (forall p,
         fst lookup = Ok p ->
         filter (fun i => _matchSerial (value (serNode (self w))) (snd i))
                (servers w) = [] ->
         fst (initServer w) = Ok tt
         /\ ser (self (snd (initServer w))) = None
         /\ port (self (snd (initServer w))) = Some p)
  /\ (forall p i rest c,
         fst lookup = Ok p ->
         filter (fun i => _matchSerial (value (serNode (self w))) (snd i))
                (servers w) = i :: rest ->
         open_error w (snd i) p = Some c ->
         fst (initServer w) = Ok tt
         /\ ser (self (snd (initServer w))) = None
         /\ port (self (snd (initServer w))) = Some p).
Proof.
  intros Hk Hn lookup. subst lookup.
  unfold initServer, initServer_of. run. rewrite Hk, Hn. cbn [negb orb].
  destruct (getPortFromReg _ _ _) as [res r'] eqn:E. cbn [fst].
  split; [|split].
  - intros c ->. split; reflexivity.
  - intros p -> F. unfold findSerial. run.
    unfold set_registry, set_self.
    cbn [self serNode set_port servers].
    destruct (serNode (self w)) as [node|]; [|discriminate].
    rewrite Hn. cbn [value] in F. rewrite F. repeat split.
  - intros p i rest c -> F O. assert (P := proxy_ID_listed _ _ _ _ F).
    unfold findSerial, initSerial. run.
    unfold set_registry, set_self.
    cbn [self serNode set_port servers open_error].
    destruct (serNode (self w)) as [node|]; [|discriminate].
    rewrite Hn. cbn [value] in F. rewrite F.
    cbn [self serNode servers open_error registry wire].
    destruct (proxy_ID (snd i) (servers w)); [|now elim P].
    rewrite O. repeat split.
Qed.

Lemma initServer_failures_witness :
  let w := startup "lab" unconfigured_registry [(3, "lab Serial Server")]
                   (fun _ _ => None) in
  truthy (regKey (self w)) = true
  /\ truthy (serNode (self w)) = true
  /\ fst (initServer w) = Raise (PortRegError 0)
  /\ self (snd (initServer w)) = self w.
Proof.
  cbv zeta. split; [reflexivity|]. split; [reflexivity|].
  apply (proj1 (initServer_failures
                  (startup "lab" unconfigured_registry
                           [(3, "lab Serial Server")] (fun _ _ => None))
                  eq_refl eq_refl) 0).
  reflexivity.
Defined.

(** With the registry in order and no serial server running on the node,
    [initServer] completes and the device is left disconnected. *)
Example initServer_without_serial_server :
  let w := startup "lab" example_registry [(5, "other Serial Server")]
                   (fun _ _ => None) in
  fst (initServer w) = Ok tt
  /\ ser (self (snd (initServer w))) = None
  /\ port (self (snd (initServer w))) = Some "COM3".
Proof. cbv zeta. repeat split. Qed.

(** No serial server answers on the port: [initServer] completes as
    well, without a handle. *)
Example initServer_port_does_not_open :
  let w := startup "lab" example_registry [(3, "lab Serial Server")]
                   (fun _ _ => Some 0) in
  fst (initServer w) = Ok tt
  /\ ser (self (snd (initServer w))) = None
  /\ port (self (snd (initServer w))) = Some "COM3".
Proof. cbv zeta. repeat split. Qed.

(** And with everything in place the server ends up connected. *)
Example initServer_connects :
  let w := startup "lab" example_registry [(3, "lab Serial Server")]
                   (fun _ _ => None) in
  fst (HV500Server.initServer w) = Ok tt
  /\ self (snd (HV500Server.initServer w)) = self example_world.
Proof. cbv zeta. repeat split. Qed.

End SerialDeviceServerFacts.

(** ** The HV500 codec *)

Module HV500ServerFacts.
Import PyStr SerialDeviceServer SerialDeviceServerFacts HV500Server.

(** For all channels 1..16 the code is the two-digit, zero-padded
    decimal. *)
Example channel_to_str_two_digits :
  map channel_to_str (map Z.of_nat (seq 1 16))
  = ["01"; "02"; "03"; "04"; "05"; "06"; "07"; "08";
     "09"; "10"; "11"; "12"; "13"; "14"; "15"; "16"].
Proof. reflexivity. Qed.

(** The transport after one more write and one more read of a line. *)
Definition after_query (cmd : string) (w : World) : World :=
  set_wire (mkWire (trace (wire w)
                    ++ [Write cmd; ReadLine (hd "" (rx (wire w)))])
                   (tl (rx (wire w)))) w.

(** Python's [float] on the one reply of the running example. *)
Definition float_of_reply (s : string) : result PyFloat.float :=
  if String.eqb s "12.50"
  then Ok (PyFloat.div (PyFloat.of_int 25) (PyFloat.of_int 2))
  else Raise (ValueError
                ("could not convert string to float: '" ++ s ++ "'")).

(** C1 (as stated, refuted): [get_voltage(17)] on a connected server
    raises nothing: it writes the query for channel 17 to the serial
    handle, reads the reply and returns it. *)
Lemma get_voltage_channel_17_reaches_wire :
  get_voltage float_of_reply 17 example_world
  = (Ok (PyFloat.div (PyFloat.of_int 25) (PyFloat.of_int 2)),
     set_wire (mkWire [Write ("HV264 Q17" ++ CR); ReadLine ("12.50" ++ LF)]
                      []) example_world).
Proof. reflexivity. Qed.

(** C1 (amended): [get_voltage] does not validate the channel. For every
    integer channel, inside [1,16] or not, a call on a server that holds a
    handle writes ["<IDN> Q" + channel_to_str(channel) + "\r"] to the handle
    and reads one line; what it returns or raises is what [float] returns
    or raises on the line without its last character. *)
Theorem get_voltage_does_not_check_channel
        (float_of_str : string -> result PyFloat.float)
        (channel : Z) (w : World) (c : SerialConnection) :
  ser (self w) = Some c ->
  get_voltage float_of_str channel w
  = (float_of_str (but_last (hd "" (rx (wire w)))),
     after_query (IDN (self w) ++ " Q" ++ channel_to_str channel ++ CR) w).
Proof.
  intro H. unfold get_voltage, ser_write, ser_read_line, after_query. run.
  rewrite H. unfold set_wire. cbn [self wire trace rx]. rewrite H.
  cbn [self wire trace rx registry servers open_error].
  rewrite <- app_assoc. cbn [app].
  destruct (rx (wire w)) as [|l ls]; cbn [hd tl];
    destruct (float_of_str _); reflexivity.
Qed.

Lemma get_voltage_does_not_check_channel_witness :
  ser (self example_world) = Some example_connection
  /\ get_voltage float_of_reply 0 example_world
     = (Ok (PyFloat.div (PyFloat.of_int 25) (PyFloat.of_int 2)),
        after_query ("HV264 Q00" ++ CR) example_world).
Proof.
  split; [reflexivity|].
  apply (get_voltage_does_not_check_channel float_of_reply 0 example_world
           example_connection eq_refl).
Defined.

(** The server of the running example after its serial server went away. *)
Definition disconnected_world : World :=
  set_self (set_ser None (self example_world)) example_world.

Definition no_write : exn :=
  AttributeError "'NoneType' object has no attribute 'write'".
Definition out_of_bounds : exn :=
  ValueError "Voltage setpoint out of bounds.".

(** C4 (as stated, refuted): without a handle [get_voltage] and
    [set_voltage] do not raise [SerialConnectionError(2)]; what comes out
    is the [AttributeError] of calling [write] on [None]. *)
Lemma no_handle_raises_AttributeError :
  get_voltage float_of_reply 1 disconnected_world
  = (Raise no_write, disconnected_world)
  /\ set_voltage 1 (PyFloat.of_int 10) disconnected_world
     = (Raise no_write, disconnected_world).
Proof. split; reflexivity. Qed.

(** The test [set_voltage] makes on its argument. *)
Definition exceeds_VLIM (v : PyFloat.float) : bool :=
  PyFloat.gt v (PyFloat.of_int VLIM) || PyFloat.lt v (PyFloat.of_int (- VLIM)).

(** C4 (amended): when no handle is held, [checkConnection] raises
    [SerialConnectionError(2)], but [get_voltage] and [set_voltage] do not
    call it. Every call to them still fails at once and leaves the world,
    the transport included, untouched: [get_voltage] with the
    [AttributeError] of [None.write], [set_voltage] with the out-of-bounds
    [ValueError] when the voltage exceeds the limit and with that
    [AttributeError] otherwise. *)
Theorem no_handle_fails_fast
        (float_of_str : string -> result PyFloat.float)
        (channel : Z) (v : PyFloat.float) (w : World) :
  ser (self w) = None ->
  checkConnection w = (Raise (SerialConnectionError 2), w)
  /\ get_voltage float_of_str channel w = (Raise no_write, w)
  /\ set_voltage channel v w
     = (Raise (if exceeds_VLIM v then out_of_bounds else no_write), w).
Proof.
  intro H. unfold checkConnection, get_voltage, set_voltage, ser_write.
  fold (exceeds_VLIM v). run. rewrite H.
  destruct (exceeds_VLIM v); repeat split. now rewrite H.
Qed.

Lemma no_handle_fails_fast_witness :
  ser (self disconnected_world) = None
  /\ checkConnection disconnected_world
     = (Raise (SerialConnectionError 2), disconnected_world)
  /\ get_voltage float_of_reply 16 disconnected_world
     = (Raise no_write, disconnected_world)
  /\ set_voltage 16 (PyFloat.of_int 301) disconnected_world
     = (Raise (if exceeds_VLIM (PyFloat.of_int 301)
               then out_of_bounds else no_write), disconnected_world).
Proof.
  split; [reflexivity|].
  apply (no_handle_fails_fast float_of_reply 16 (PyFloat.of_int 301)
           disconnected_world eq_refl).
Defined.

(** *** The voltage bound *)

(** Against a positive bound, the absolute value is above the bound
    exactly when the number is above it or below its opposite. *)
Lemma abs_above_bound (mb : positive) (eb : Z) (v : PyFloat.float) :
  let b := S754_finite false mb eb in
  SFltb b (SFabs v) = SFltb b v || SFltb v (SFopp b).
Proof.
  cbv zeta. destruct v as [s|s| |s m e]; try (destruct s; reflexivity).
  - reflexivity.
  - destruct s; unfold SFltb, SFcompare, SFabs, SFopp; cbn [negb].
    + rewrite (Z.compare_antisym eb e), !Pos.compare_cont_spec.
      rewrite (Pos.compare_antisym mb m). cbn [Pos.switch_Eq].
      destruct (eb ?= e); cbn [CompOpp]; try reflexivity.
      destruct (mb ?= m)%positive; reflexivity.
    + destruct (match eb ?= e with
                | Eq => Pos.compare_cont Eq mb m
                | Lt => Lt
                | Gt => Gt
                end); reflexivity.
Qed.

(** The transport after one more write. *)
Definition after_write (cmd : string) (w : World) : World :=
  set_wire (mkWire (trace (wire w) ++ [Write cmd]) (rx (wire w))) w.

Lemma set_voltage_accepted (channel : Z) (v : PyFloat.float) (w : World)
      (c : SerialConnection) :
  exceeds_VLIM v = false ->
  ser (self w) = Some c ->
  set_voltage channel v w
  = (Ok tt,
     after_write (IDN (self w) ++ " CH" ++ channel_to_str channel ++ " "
                  ++ voltage_to_kw v ++ CR) w).
Proof.
  intros B H. unfold set_voltage, ser_write. fold (exceeds_VLIM v). run.
  now rewrite B, H.
Qed.

(** 300.0001, the double nearest to it. *)
Definition just_above_VLIM : PyFloat.float :=
  PyFloat.div (PyFloat.of_int 3000001) (PyFloat.of_int 10000).

(** C2: [set_voltage] raises the out-of-bounds [ValueError] exactly when
    the voltage is above 300 or below -300, which is when its absolute
    value is above 300, and then nothing is written: the world, the
    transport included, is as before the call. The voltages 300.0 and
    -300.0 are within bounds, and on a server that holds a handle they are
    written to the wire (encoded as 0.800000 and 0.200000); 300.0001 is
    out of bounds. *)
Theorem set_voltage_bound_check
        (channel : Z) (v : PyFloat.float) (w : World) :
  PyFloat.gt (SFabs v) (PyFloat.of_int VLIM)
  = (PyFloat.gt v (PyFloat.of_int VLIM)
     || PyFloat.lt v (PyFloat.of_int (- VLIM)))
  /\ (fst (set_voltage channel v w) = Raise out_of_bounds
      <-> PyFloat.gt v (PyFloat.of_int VLIM)
          || PyFloat.lt v (PyFloat.of_int (- VLIM)) = true)
  /\ (PyFloat.gt (SFabs v) (PyFloat.of_int VLIM) = true ->
      set_voltage channel v w = (Raise out_of_bounds, w))
  /\ (forall c, ser (self w) = Some c ->
        set_voltage channel (PyFloat.of_int 300) w
        = (Ok tt, after_write (IDN (self w) ++ " CH"
                               ++ channel_to_str channel
                               ++ " 0.800000" ++ CR) w)
        /\ set_voltage channel (PyFloat.of_int (-300)) w
           = (Ok tt, after_write (IDN (self w) ++ " CH"
                                  ++ channel_to_str channel
                                  ++ " 0.200000" ++ CR) w))
  /\ fst (set_voltage channel just_above_VLIM w) = Raise out_of_bounds.
Proof.
  assert (A : PyFloat.gt (SFabs v) (PyFloat.of_int VLIM) = exceeds_VLIM v).
  { exact (abs_above_bound 5277655813324800 (-44) v). }
  fold (exceeds_VLIM v). split; [exact A|]. split; [|split; [|split]].
  - unfold set_voltage, ser_write. fold (exceeds_VLIM v). run.
    destruct (exceeds_VLIM v).
    + split; reflexivity.
    + split; [|discriminate].
      destruct (ser (self w)); cbn [fst]; discriminate.
  - rewrite A. intro B. unfold set_voltage. fold (exceeds_VLIM v).
    now rewrite B.
  - intros c H. split.
    + now rewrite (set_voltage_accepted channel (PyFloat.of_int 300) w c
                                         eq_refl H).
    + now rewrite (set_voltage_accepted channel (PyFloat.of_int (-300)) w c
                                         eq_refl H).
  - reflexivity.
Qed.

End HV500ServerFacts.

(** ** The encoding of voltages

    The keyword sent for a voltage is computed in binary64 arithmetic;
    what follows bounds the error of the two operations and of the
    formatting, on the exact values of the floats. *)

Module PyFloatFacts.
Import PyStr PyStrFacts PyFloat HV500Server HV500Device HV500ServerFacts.

(** *** Bit lengths *)

Lemma digits2_bounds (m : positive) :
  2 ^ (Zpos (digits2_pos m) - 1) <= Zpos m < 2 ^ Zpos (digits2_pos m).
Proof.
  induction m as [m IH|m IH|]; cbn [digits2_pos].
  - rewrite Pos2Z.inj_succ.
    replace (Z.succ (Zpos (digits2_pos m)) - 1)
      with (Z.succ (Zpos (digits2_pos m) - 1)) by lia.
    rewrite !Z.pow_succ_r by lia. lia.
  - rewrite Pos2Z.inj_succ.
    replace (Z.succ (Zpos (digits2_pos m)) - 1)
      with (Z.succ (Zpos (digits2_pos m) - 1)) by lia.
    rewrite !Z.pow_succ_r by lia. lia.
  - simpl. lia.
Qed.

Lemma Zdigits2_nonneg (m : Z) : 0 <= Zdigits2 m.
Proof. destruct m; simpl; lia. Qed.

Lemma Zdigits2_bounds (m : Z) :
  0 < m -> 2 ^ (Zdigits2 m - 1) <= m < 2 ^ Zdigits2 m.
Proof. destruct m; try lia. intros _. apply digits2_bounds. Qed.

(** A number below [2 ^ k] has at most [k] bits. *)
Lemma Zdigits2_le (m k : Z) : 0 <= k -> 0 <= m < 2 ^ k -> Zdigits2 m <= k.
Proof.
  intros Hk [H0 H]. destruct (Z.eq_dec m 0) as [->|N]; [simpl; lia|].
  destruct (Zdigits2_bounds m ltac:(lia)) as [L _].
  destruct (Z_le_gt_dec (Zdigits2 m) k) as [|G]; [assumption|].
  exfalso. assert (2 ^ k <= 2 ^ (Zdigits2 m - 1)).
  { apply Z.pow_le_mono_r; lia. }
  lia.
Qed.

(** *** Shifting right *)

Lemma shr_1_m (mrs : shr_record) :
  0 <= shr_m mrs -> shr_m (shr_1 mrs) = shr_m mrs / 2.
Proof.
  destruct mrs as [m r s]. cbn [shr_m]. intro H.
  destruct m as [|p|p]; [reflexivity| |lia].
  destruct p as [p|p|]; cbn [shr_1 shr_m].
  - rewrite Pos2Z.inj_xI. apply Z.div_unique with 1; lia.
  - rewrite Pos2Z.inj_xO. apply Z.div_unique with 0; lia.
  - reflexivity.
Qed.

Lemma pow2_xO (p : positive) : 2 ^ Zpos p~0 = 2 ^ Zpos p * 2 ^ Zpos p.
Proof.
  rewrite (Pos2Z.inj_xO p). replace (2 * Zpos p) with (Zpos p + Zpos p) by lia.
  apply Z.pow_add_r; lia.
Qed.

Lemma pow2_xI (p : positive) : 2 ^ Zpos p~1 = 2 * (2 ^ Zpos p * 2 ^ Zpos p).
Proof.
  rewrite (Pos2Z.inj_xI p).
  replace (2 * Zpos p + 1) with (Z.succ (Zpos p + Zpos p)) by lia.
  rewrite Z.pow_succ_r, Z.pow_add_r; lia.
Qed.

Lemma pow2_pos (k : Z) : 0 <= k -> 0 < 2 ^ k.
Proof. intro. apply Z.pow_pos_nonneg; lia. Qed.

Lemma iter_shr_1_m (p : positive) :
  forall mrs, 0 <= shr_m mrs ->
              shr_m (iter_pos shr_1 p mrs) = shr_m mrs / 2 ^ Zpos p.
Proof.
  assert (P : forall k a, 0 <= a -> 0 <= a / 2 ^ Zpos k).
  { intros. apply Z.div_pos; [lia|]. apply pow2_pos; lia. }
  induction p as [p IH|p IH|]; intros mrs H; cbn [iter_pos].
  - assert (H1 : 0 <= shr_m (shr_1 mrs)).
    { rewrite shr_1_m by assumption. apply Z.div_pos; lia. }
    assert (H2 : 0 <= shr_m (iter_pos shr_1 p (shr_1 mrs))).
    { rewrite IH by assumption. now apply P. }
    rewrite IH, IH, shr_1_m by assumption.
    rewrite !Z.div_div by (try apply pow2_pos; lia).
    now rewrite pow2_xI.
  - assert (H2 : 0 <= shr_m (iter_pos shr_1 p mrs)).
    { rewrite IH by assumption. now apply P. }
    rewrite IH, IH by assumption.
    rewrite !Z.div_div by (try apply pow2_pos; lia).
    now rewrite pow2_xO.
  - now rewrite shr_1_m.
Qed.

Lemma shr_spec (mrs : shr_record) (e n : Z) :
  0 <= shr_m mrs ->
  exists mrs',
    shr mrs e n = (mrs', e + Z.max 0 n)
    /\ shr_m mrs' = shr_m mrs / 2 ^ Z.max 0 n.
Proof.
  intro H. destruct n as [|p|p]; cbn [shr].
  - exists mrs. rewrite Z.add_0_r. split; [reflexivity|].
    now rewrite Z.div_1_r.
  - exists (iter_pos shr_1 p mrs). rewrite Z.max_r by lia.
    split; [reflexivity|]. now apply iter_shr_1_m.
  - exists mrs. rewrite Z.max_l by lia. rewrite Z.add_0_r.
    split; [reflexivity|]. now rewrite Z.div_1_r.
Qed.

Lemma shr_record_of_loc_m (m : Z) (l : location) :
  shr_m (shr_record_of_loc m l) = m.
Proof. destruct l as [|[| |]]; reflexivity. Qed.

Definition fexp64 : Z -> Z := fexp prec emax.

Lemma fexp64_eq (e : Z) : fexp64 e = Z.max (e - 53) (-1074).
Proof. reflexivity. Qed.

Lemma shr_fexp_spec (m e : Z) (l : location) :
  0 <= m ->
  exists mrs',
    shr_fexp prec emax m e l = (mrs', Z.max e (fexp64 (Zdigits2 m + e)))
    /\ shr_m mrs' = m / 2 ^ (Z.max e (fexp64 (Zdigits2 m + e)) - e).
Proof.
  intro H. unfold shr_fexp. fold fexp64.
  destruct (shr_spec (shr_record_of_loc m l) e
                     (fexp64 (Zdigits2 m + e) - e)) as (mrs' & E & M).
  { now rewrite shr_record_of_loc_m. }
  exists mrs'. rewrite E, M, shr_record_of_loc_m.
  replace (e + Z.max 0 (fexp64 (Zdigits2 m + e) - e))
    with (Z.max e (fexp64 (Zdigits2 m + e))) by lia.
  replace (Z.max e (fexp64 (Zdigits2 m + e)) - e)
    with (Z.max 0 (fexp64 (Zdigits2 m + e) - e)) by lia.
  split; reflexivity.
Qed.

Lemma round_nearest_even_bounds (m : Z) (l : location) :
  m <= round_nearest_even m l <= m + 1.
Proof.
  destruct l as [|[| |]]; cbn [round_nearest_even]; try lia.
  destruct (Z.even m); lia.
Qed.

(** What rounding does to a mantissa [mx] at exponent [ex]: the result
    has an exponent [e2] between [ex] and any bound [E] of the exponents
    the format gives to numbers of that size, and a mantissa within two
    units of the last place. *)
Lemma binary_round_aux_spec (s : bool) (mx ex : Z) (lx : location) (E : Z) :
  0 < mx ->
  ex <= E ->
  fexp64 (Zdigits2 mx + ex + 1) <= E ->
  E <= emax - prec ->
  exists m2 e2,
    binary_round_aux prec emax s mx ex lx
    = match m2 with
      | Z0 => S754_zero s
      | Zpos m => S754_finite s m e2
      | Zneg _ => S754_nan
      end
    /\ 0 <= m2
    /\ ex <= e2 <= E
    /\ mx - 2 * 2 ^ (e2 - ex) < m2 * 2 ^ (e2 - ex) <= mx + 2 ^ (e2 - ex).
Proof.
  intros Hm HE HF HM. unfold binary_round_aux.
  destruct (shr_fexp_spec mx ex lx ltac:(lia)) as (mrs1 & E1 & M1).
  rewrite E1.
  remember (Z.max ex (fexp64 (Zdigits2 mx + ex))) as e1 eqn:He1.
  remember (round_nearest_even (shr_m mrs1) (loc_of_shr_record mrs1))
    as m1 eqn:Hm1.
  assert (B1 := round_nearest_even_bounds (shr_m mrs1)
                                          (loc_of_shr_record mrs1)).
  rewrite <- Hm1, M1 in B1.
  remember (e1 - ex) as n1 eqn:Hn1.
  rewrite fexp64_eq in He1, HF.
  assert (N1 : 0 <= n1) by lia.
  assert (P1 := pow2_pos n1 N1).
  assert (Q1 : 0 <= mx / 2 ^ n1) by (apply Z.div_pos; lia).
  destruct (shr_fexp_spec m1 e1 loc_Exact ltac:(lia)) as (mrs2 & E2 & M2).
  rewrite E2.
  remember (Z.max e1 (fexp64 (Zdigits2 m1 + e1))) as e2 eqn:He2.
  remember (e2 - e1) as n2 eqn:Hn2.
  rewrite fexp64_eq in He2.
  assert (N2 : 0 <= n2) by lia.
  assert (P2 := pow2_pos n2 N2).
  (* bit lengths *)
  assert (Dm := Zdigits2_bounds mx Hm).
  assert (Dn := Zdigits2_nonneg mx).
  remember (Z.max (Zdigits2 mx - n1) 0) as k eqn:Hk.
  assert (Hq : mx / 2 ^ n1 < 2 ^ k).
  { apply Z.div_lt_upper_bound; [lia|].
    rewrite <- Z.pow_add_r by lia.
    apply Z.lt_le_trans with (2 ^ Zdigits2 mx); [lia|].
    apply Z.pow_le_mono_r; lia. }
  assert (D1 : Zdigits2 m1 <= k + 1).
  { apply Zdigits2_le; [lia|]. split; [lia|].
    rewrite Z.pow_add_r by lia. change (2 ^ 1) with 2.
    assert (0 < 2 ^ k) by (apply pow2_pos; lia). lia. }
  assert (D1n := Zdigits2_nonneg m1).
  assert (LE : e2 <= E) by lia.
  (* values *)
  assert (V1 : 2 ^ n1 * (mx / 2 ^ n1) <= mx < 2 ^ n1 * (mx / 2 ^ n1 + 1)).
  { split; [apply Z.mul_div_le; lia|].
    rewrite Z.add_1_r. apply Z.mul_succ_div_gt. lia. }
  assert (V2 : 2 ^ n2 * (m1 / 2 ^ n2) <= m1 < 2 ^ n2 * (m1 / 2 ^ n2 + 1)).
  { split; [apply Z.mul_div_le; lia|].
    rewrite Z.add_1_r. apply Z.mul_succ_div_gt. lia. }
  assert (Q2 : 0 <= m1 / 2 ^ n2) by (apply Z.div_pos; lia).
  exists (shr_m mrs2), e2. rewrite M2.
  replace (e2 - ex) with (n1 + n2) by lia.
  rewrite Z.pow_add_r by lia.
  remember (mx / 2 ^ n1) as q1. remember (m1 / 2 ^ n2) as m2.
  remember (2 ^ n1) as p1. remember (2 ^ n2) as p2.
  split; [|split; [assumption|split; [lia|]]].
  - destruct m2 as [|p|p]; try reflexivity.
    replace (e2 <=? emax - prec) with true; [reflexivity|].
    symmetry. apply Z.leb_le. lia.
  - assert (A1 : (p1 * (p2 * m2) <= p1 * m1)%Z)
      by (apply Z.mul_le_mono_nonneg_l; lia).
    assert (A2 : (p1 * m1 <= p1 * (q1 + 1))%Z)
      by (apply Z.mul_le_mono_nonneg_l; lia).
    assert (A3 : (p1 * m1 < p1 * (p2 * (m2 + 1)))%Z)
      by (apply Z.mul_lt_mono_pos_l; lia).
    assert (A4 : (p1 * q1 <= p1 * m1)%Z)
      by (apply Z.mul_le_mono_nonneg_l; lia).
    assert (A5 : (p1 * 1 <= p1 * p2)%Z)
      by (apply Z.mul_le_mono_nonneg_l; lia).
    split; lia.
Qed.

(** *** Values *)

Local Open Scope Q_scope.

Definition p2 (e : Z) : Q := 2 ^ e.

Lemma p2_pos (e : Z) : 0 < p2 e.
Proof. apply Qpower_0_lt. reflexivity. Qed.

Lemma p2_add (a b : Z) : p2 (a + b) == p2 a * p2 b.
Proof. apply Qpower_plus. discriminate. Qed.

Lemma p2_Z (n : Z) : (0 <= n)%Z -> p2 n == inject_Z (2 ^ n).
Proof. intro H. unfold p2. now rewrite Zpower_Qpower. Qed.

Lemma p2_le (a b : Z) : (a <= b)%Z -> p2 a <= p2 b.
Proof. intro H. apply Qpower_le_compat_l; [assumption | discriminate]. Qed.

Lemma p2_lt_inv (a b : Z) : p2 a < p2 b -> (a < b)%Z.
Proof.
  intro H. apply (Qpower_lt_compat_l_inv 2); [assumption | reflexivity].
Qed.

Lemma scale_le (a b e : Z) :
  (a <= b)%Z -> inject_Z a * p2 e <= inject_Z b * p2 e.
Proof.
  intro H. apply Qmult_le_compat_r; [now rewrite <- Zle_Qle|].
  apply Qlt_le_weak, p2_pos.
Qed.

Lemma scale_lt (a b e : Z) :
  (a < b)%Z -> inject_Z a * p2 e < inject_Z b * p2 e.
Proof.
  intro H. apply Qmult_lt_compat_r; [apply p2_pos | now rewrite <- Zlt_Qlt].
Qed.

Lemma scale_shift (m n e : Z) :
  (0 <= n)%Z -> inject_Z (m * 2 ^ n) * p2 e == inject_Z m * p2 (n + e).
Proof.
  intro H. rewrite inject_Z_mult, p2_add, <- (p2_Z n H). ring.
Qed.

(** A mantissa of [d] bits at exponent [e] stands for a number between
    [2 ^ (d + e - 1)] and [2 ^ (d + e)]. *)
Lemma value_digits (m e : Z) :
  (0 < m)%Z ->
  p2 (Zdigits2 m + e - 1) <= inject_Z m * p2 e < p2 (Zdigits2 m + e).
Proof.
  intro H. destruct (Zdigits2_bounds m H) as [L U].
  assert (D : (1 <= Zdigits2 m)%Z).
  { destruct m; try lia. simpl. lia. }
  split.
  - replace (Zdigits2 m + e - 1)%Z with ((Zdigits2 m - 1) + e)%Z by lia.
    rewrite p2_add, (p2_Z (Zdigits2 m - 1)) by lia. now apply scale_le.
  - rewrite p2_add, (p2_Z (Zdigits2 m)) by lia. now apply scale_lt.
Qed.

Lemma fexp64_mono (a b : Z) : (a <= b)%Z -> (fexp64 a <= fexp64 b)%Z.
Proof. rewrite !fexp64_eq. lia. Qed.

(** Rounding a positive number below [2 ^ B]: the result is zero or a
    positive float whose exponent [e2] is at most that of the numbers just
    below [2 ^ (B + 1)], and which is less than two units of its last
    place away from the number rounded. *)
Lemma binary_round_aux_value (mx ex : Z) (lx : location) (B : Z) :
  (0 < mx)%Z ->
  inject_Z mx * p2 ex < p2 B ->
  (ex <= fexp64 (B + 1))%Z ->
  (fexp64 (B + 1) <= emax - prec)%Z ->
  exists m2 e2,
    binary_round_aux prec emax false mx ex lx
    = match m2 with
      | Z0 => S754_zero false
      | Zpos m => S754_finite false m e2
      | Zneg _ => S754_nan
      end
    /\ (0 <= m2)%Z
    /\ (ex <= e2 <= fexp64 (B + 1))%Z
    /\ inject_Z mx * p2 ex - 2 * p2 e2 < inject_Z m2 * p2 e2
    /\ inject_Z m2 * p2 e2 <= inject_Z mx * p2 ex + p2 e2.
Proof.
  intros Hm HB He HM.
  assert (D : (Zdigits2 mx + ex <= B)%Z).
  { destruct (value_digits mx ex Hm) as [L _].
    assert (p2 (Zdigits2 mx + ex - 1) < p2 B) by (eapply Qle_lt_trans; eauto).
    apply p2_lt_inv in H. lia. }
  destruct (binary_round_aux_spec false mx ex lx (fexp64 (B + 1)) Hm He)
    as (m2 & e2 & R & P & [L U] & [VL VU]); [|assumption|].
  { apply fexp64_mono. lia. }
  exists m2, e2. split; [assumption|]. split; [assumption|].
  split; [split; assumption|]. split.
  - apply (scale_lt _ _ ex) in VL.
    rewrite scale_shift in VL by lia.
    replace (e2 - ex + ex)%Z with e2 in VL by lia.
    eapply Qle_lt_trans; [|exact VL].
    unfold Zminus. rewrite inject_Z_plus, inject_Z_opp, inject_Z_mult.
    rewrite <- (p2_Z (e2 - ex)) by lia.
    setoid_replace (p2 e2) with (p2 (e2 - ex) * p2 ex) at 1.
    + apply Qle_lteq. right. change (inject_Z 2) with 2. ring.
    + rewrite <- p2_add. now replace (e2 - ex + ex)%Z with e2 by lia.
  - apply (scale_le _ _ ex) in VU.
    rewrite scale_shift in VU by lia.
    replace (e2 - ex + ex)%Z with e2 in VU by lia.
    eapply Qle_trans; [exact VU|].
    rewrite inject_Z_plus, <- (p2_Z (e2 - ex)) by lia.
    setoid_replace (p2 e2) with (p2 (e2 - ex) * p2 ex) at 1.
    + apply Qle_lteq. right. ring.
    + rewrite <- p2_add. now replace (e2 - ex + ex)%Z with e2 by lia.
Qed.

(** *** Addition *)

Lemma iter_xO (m d : positive) :
  Zpos (Pos.iter xO m d) = (Zpos m * 2 ^ Zpos d)%Z.
Proof.
  induction d as [|d IH] using Pos.peano_ind.
  - simpl. rewrite (Pos2Z.inj_xO m). lia.
  - rewrite Pos.iter_succ, (Pos2Z.inj_xO (Pos.iter xO m d)), IH.
    rewrite Pos2Z.inj_succ, Z.pow_succ_r by lia. lia.
Qed.

Lemma shl_align_spec (m : positive) (e e' : Z) :
  snd (shl_align m e e') = Z.min e e'
  /\ Zpos (fst (shl_align m e e'))
     = (Zpos m * 2 ^ (e - Z.min e e'))%Z.
Proof.
  unfold shl_align. destruct (e' - e)%Z as [|d|d] eqn:E; cbn [fst snd].
  - rewrite Z.min_l by lia. rewrite Z.sub_diag. simpl. lia.
  - rewrite Z.min_l by lia. rewrite Z.sub_diag. simpl. lia.
  - rewrite Z.min_r by lia. split; [reflexivity|].
    rewrite iter_xO. f_equal. f_equal. lia.
Qed.

Lemma shl_align_value (m : positive) (e e' : Z) :
  inject_Z (Zpos (fst (shl_align m e e'))) * p2 (snd (shl_align m e e'))
  == inject_Z (Zpos m) * p2 e.
Proof.
  destruct (shl_align_spec m e e') as [-> ->].
  rewrite scale_shift by lia.
  now replace (e - Z.min e e' + Z.min e e')%Z with e by lia.
Qed.

Lemma cond_Zopp_value (s : bool) (m e : Z) :
  inject_Z (cond_Zopp s m) * p2 e
  == (if s then - (inject_Z m * p2 e) else inject_Z m * p2 e).
Proof. destruct s; simpl; [rewrite inject_Z_opp; ring | reflexivity]. Qed.

Lemma F2Q_finite (s : bool) (m : positive) (e : Z) :
  F2Q (S754_finite s m e) = inject_Z (cond_Zopp s (Zpos m)) * p2 e.
Proof. reflexivity. Qed.

(** The integer [binary_normalize] is given by [SFadd] stands for the sum
    of the two numbers. *)
Lemma add_aligned (sx sy : bool) (mx my : positive) (ex ey : Z) :
  let ez := Z.min ex ey in
  inject_Z (cond_Zopp sx (Zpos (fst (shl_align mx ex ez)))
            + cond_Zopp sy (Zpos (fst (shl_align my ey ez)))) * p2 ez
  == F2Q (S754_finite sx mx ex) + F2Q (S754_finite sy my ey).
Proof.
  cbv zeta. rewrite inject_Z_plus, Qmult_plus_distr_l, !F2Q_finite.
  rewrite !cond_Zopp_value.
  assert (X : inject_Z (Zpos (fst (shl_align mx ex (Z.min ex ey))))
              * p2 (Z.min ex ey) == inject_Z (Zpos mx) * p2 ex).
  { rewrite <- (shl_align_value mx ex (Z.min ex ey)).
    destruct (shl_align_spec mx ex (Z.min ex ey)) as [-> _].
    now replace (Z.min ex (Z.min ex ey)) with (Z.min ex ey) by lia. }
  assert (Y : inject_Z (Zpos (fst (shl_align my ey (Z.min ex ey))))
              * p2 (Z.min ex ey) == inject_Z (Zpos my) * p2 ey).
  { rewrite <- (shl_align_value my ey (Z.min ex ey)).
    destruct (shl_align_spec my ey (Z.min ex ey)) as [-> _].
    now replace (Z.min ey (Z.min ex ey)) with (Z.min ex ey) by lia. }
  destruct sx, sy; rewrite X, Y; reflexivity.
Qed.

(** Normalizing a positive integer [m] at exponent [e]. *)
Lemma binary_normalize_value (m e B : Z) :
  (0 < m)%Z ->
  inject_Z m * p2 e < p2 B ->
  (fexp64 (B + 1) <= emax - prec)%Z ->
  exists m2 e2,
    binary_normalize prec emax m e false
    = match m2 with
      | Z0 => S754_zero false
      | Zpos p => S754_finite false p e2
      | Zneg _ => S754_nan
      end
    /\ (0 <= m2)%Z
    /\ (e2 <= fexp64 (B + 1))%Z
    /\ inject_Z m * p2 e - 2 * p2 e2 < inject_Z m2 * p2 e2
    /\ inject_Z m2 * p2 e2 <= inject_Z m * p2 e + p2 e2.
Proof.
  intros Hm HB HM. destruct m as [|m|m]; try lia.
  unfold binary_normalize, binary_round. fold fexp64.
  destruct (shl_align m e (fexp64 (Zpos (digits2_pos m) + e)))
    as [mz ez] eqn:S.
  assert (V := shl_align_value m e (fexp64 (Zpos (digits2_pos m) + e))).
  destruct (shl_align_spec m e (fexp64 (Zpos (digits2_pos m) + e)))
    as [Se _].
  rewrite S in V, Se. cbn [fst snd] in V, Se.
  assert (D : (Zpos (digits2_pos m) + e <= B)%Z).
  { destruct (value_digits (Zpos m) e ltac:(lia)) as [L _]. simpl in L.
    assert (p2 (Zpos (digits2_pos m) + e - 1) < p2 B)
      by (eapply Qle_lt_trans; eauto).
    apply p2_lt_inv in H. lia. }
  destruct (binary_round_aux_value (Zpos mz) ez loc_Exact B)
    as (m2 & e2 & R & P & [L U] & VL & VU).
  - lia.
  - now rewrite V.
  - assert (fexp64 (Zpos (digits2_pos m) + e) <= fexp64 (B + 1))%Z
      by (apply fexp64_mono; lia). lia.
  - assumption.
  - exists m2, e2. rewrite <- V. repeat split; assumption.
Qed.

Lemma scale_pos_inv (z e : Z) : 0 < inject_Z z * p2 e -> (0 < z)%Z.
Proof.
  intro H. destruct (Z_lt_le_dec 0 z) as [|L]; [assumption|exfalso].
  apply (scale_le z 0 e) in L. change (inject_Z 0) with 0 in L.
  assert (0 * p2 e == 0) by ring. lra.
Qed.

Definition f500 : float := S754_finite false 8796093022208000 (-44).
Definition f1000 : float := S754_finite false 8796093022208000 (-43).

Lemma of_int_500 : of_int 500 = f500.
Proof. reflexivity. Qed.

Lemma of_int_1000 : of_int 1000 = f1000.
Proof. reflexivity. Qed.

Lemma F2Q_f500 : F2Q f500 == 500.
Proof. reflexivity. Qed.

Lemma F2Q_f1000 : F2Q f1000 == 1000.
Proof. reflexivity. Qed.

Lemma p2_small (e b : Z) : (e <= b)%Z -> (b <= 0)%Z -> p2 e <= 1.
Proof.
  intros H H0. apply Qle_trans with (p2 0); [apply p2_le; lia|].
  apply Qle_lteq. right. reflexivity.
Qed.

(** [v + 500] for a voltage within the bounds: a positive float at most
    two units of its last place, which is at most [2 ^ -42], away from
    the sum. *)
Lemma add_500_value (v : float) :
  is_finite v = true ->
  -300 <= F2Q v <= 300 ->
  exists m1 e1,
    add v (of_int 500) = S754_finite false m1 e1
    /\ (e1 <= -42)%Z
    /\ F2Q v + 500 - 2 * p2 e1 < inject_Z (Zpos m1) * p2 e1
    /\ inject_Z (Zpos m1) * p2 e1 <= F2Q v + 500 + p2 e1.
Proof.
  intros Hf [Hl Hu]. rewrite of_int_500.
  destruct v as [s|s| |s m e]; try discriminate.
  - exists 8796093022208000%positive, (-44)%Z.
    assert (P := p2_pos (-44)). assert (V := F2Q_f500).
    unfold f500 in V. rewrite F2Q_finite in V. cbn [cond_Zopp] in V.
    split; [reflexivity|]. split; [lia|]. cbn [F2Q]. split; lra.
  - unfold add, f500, SFadd.
    assert (A := add_aligned s false m 8796093022208000 e (-44)).
    cbv zeta in A. fold f500 in A. rewrite F2Q_f500 in A.
    set (sum := (cond_Zopp s (Zpos (fst (shl_align m e (Z.min e (-44)))))
                 + cond_Zopp false
                     (Zpos (fst (shl_align 8796093022208000 (-44)
                                           (Z.min e (-44))))))%Z) in *.
    destruct (binary_normalize_value sum (Z.min e (-44)) 10)
      as (m2 & e2 & R & P & L & VL & VU).
    + apply (scale_pos_inv _ (Z.min e (-44))). rewrite A. lra.
    + rewrite A. assert (p2 10 == 1024) by reflexivity. lra.
    + vm_compute. discriminate.
    + change (fexp64 (10 + 1)) with (-42)%Z in L.
      assert (S := p2_small e2 (-42) L ltac:(lia)).
      rewrite A in VL, VU.
      destruct m2 as [|p|p]; try lia.
      * exfalso. change (inject_Z 0) with 0 in VL. lra.
      * exists p, e2. repeat split; assumption.
Qed.

(** *** Division *)

Lemma div_core_spec (mx my : positive) (ex ey : Z) :
  exists q e' l,
    SFdiv_core_binary prec emax (Zpos mx) ex (Zpos my) ey = (q, e', l)
    /\ e' = Z.min (fexp64 (Zpos (digits2_pos mx) + ex
                           - (Zpos (digits2_pos my) + ey))) (ex - ey)
    /\ (0 <= q)%Z
    /\ inject_Z q * p2 e'
       <= (inject_Z (Zpos mx) * p2 ex) / (inject_Z (Zpos my) * p2 ey)
    /\ (inject_Z (Zpos mx) * p2 ex) / (inject_Z (Zpos my) * p2 ey)
       < inject_Z (q + 1) * p2 e'.
Proof.
  unfold SFdiv_core_binary. fold fexp64. cbn [Zdigits2].
  set (e' := Z.min (fexp64 (Zpos (digits2_pos mx) + ex
                            - (Zpos (digits2_pos my) + ey))) (ex - ey)).
  set (s := (ex - ey - e')%Z).
  assert (Hs : (0 <= s)%Z) by (unfold s, e'; lia).
  set (m' := match s with
             | Zpos _ => Z.shiftl (Zpos mx) s
             | Z0 => Zpos mx
             | Zneg _ => Z0
             end).
  assert (Hm' : m' = (Zpos mx * 2 ^ s)%Z).
  { unfold m'. destruct s; [simpl; lia | |lia].
    apply Z.shiftl_mul_pow2. lia. }
  assert (DM := Z_div_mod m' (Zpos my) ltac:(lia)).
  destruct (Z.div_eucl m' (Zpos my)) as [q r]. destruct DM as [DE DR].
  exists q, e', (new_location (Zpos my) r).
  assert (Y : 0 < inject_Z (Zpos my) * p2 ey).
  { apply Qmult_lt_0_compat; [reflexivity | apply p2_pos]. }
  assert (X : inject_Z (Zpos mx) * p2 ex
              == inject_Z m' * p2 (e' + ey)).
  { rewrite Hm', scale_shift by assumption.
    now replace (s + (e' + ey))%Z with ex by (unfold s; lia). }
  assert (Q0 : (0 <= q)%Z) by nia.
  split; [reflexivity|]. split; [reflexivity|]. split; [assumption|]. split.
  - apply Qle_shift_div_l; [assumption|]. rewrite X.
    setoid_replace (inject_Z q * p2 e' * (inject_Z (Zpos my) * p2 ey))
      with (inject_Z (q * Zpos my) * p2 (e' + ey))
      by (rewrite inject_Z_mult, p2_add; ring).
    apply scale_le. nia.
  - apply Qlt_shift_div_r; [assumption|]. rewrite X.
    setoid_replace (inject_Z (q + 1) * p2 e' * (inject_Z (Zpos my) * p2 ey))
      with (inject_Z ((q + 1) * Zpos my) * p2 (e' + ey))
      by (rewrite inject_Z_mult, p2_add; ring).
    apply scale_lt. nia.
Qed.

(** [x / 1000] for a float [x] between 199 and 801: a positive float
    less than three units of its last place, which is at most [2 ^ -52],
    away from the quotient. *)
Lemma div_1000_value (m1 : positive) (e1 : Z) :
  199 <= inject_Z (Zpos m1) * p2 e1 <= 801 ->
  exists m2 e2,
    div (S754_finite false m1 e1) (of_int 1000) = S754_finite false m2 e2
    /\ (e2 <= -52)%Z
    /\ inject_Z (Zpos m1) * p2 e1 * (1 # 1000) - 3 * p2 e2
       < inject_Z (Zpos m2) * p2 e2
    /\ inject_Z (Zpos m2) * p2 e2
       <= inject_Z (Zpos m1) * p2 e1 * (1 # 1000) + p2 e2.
Proof.
  intros [Hl Hu]. rewrite of_int_1000. unfold div, f1000, SFdiv.
  destruct (div_core_spec m1 8796093022208000 e1 (-43))
    as (q & e' & l & E & He' & Q0 & QL & QU).
  rewrite E. cbn [xorb].
  assert (Y := F2Q_f1000). unfold f1000 in Y. rewrite F2Q_finite in Y.
  cbn [cond_Zopp] in Y. rewrite Y in QL, QU. clear Y.
  unfold Qdiv in QL, QU. change (/ 1000) with (1 # 1000) in QL, QU.
  set (V1 := inject_Z (Zpos m1) * p2 e1) in *.
  assert (D : (Zpos (digits2_pos m1) + e1 <= 10)%Z).
  { destruct (value_digits (Zpos m1) e1 ltac:(lia)) as [L _].
    change (Zdigits2 (Zpos m1)) with (Zpos (digits2_pos m1)) in L.
    fold V1 in L. assert (T : p2 10 == 1024) by reflexivity.
    assert (p2 (Zpos (digits2_pos m1) + e1 - 1) < p2 10) by lra.
    apply p2_lt_inv in H. lia. }
  assert (Le' : (e' <= -53)%Z).
  { change (Zpos (digits2_pos 8796093022208000)) with 53%Z in He'.
    rewrite fexp64_eq in He'. lia. }
  assert (T53 : p2 (-53) <= 1 # 1000) by (vm_compute; discriminate).
  assert (Pe' : p2 e' <= 1 # 1000).
  { eapply Qle_trans; [apply p2_le; eassumption | exact T53]. }
  assert (P0 := p2_pos e').
  assert (Hq : (0 < q)%Z).
  { destruct (Z_lt_le_dec 0 q) as [|L]; [assumption|exfalso].
    assert (L1 : (q + 1 <= 1)%Z) by lia.
    apply (scale_le _ _ e') in L1. change (inject_Z 1) with 1 in L1. lra. }
  destruct (binary_round_aux_value q e' l 0 Hq)
    as (m2 & e2 & R & P & [L U] & VL & VU).
  - assert (p2 0 == 1) by reflexivity. lra.
  - change (fexp64 (0 + 1)) with (-52)%Z. lia.
  - vm_compute. discriminate.
  - change (fexp64 (0 + 1)) with (-52)%Z in U.
    assert (T52 : p2 (-52) <= 1 # 1000) by (vm_compute; discriminate).
    assert (Pe2 : p2 e2 <= 1 # 1000).
    { eapply Qle_trans; [apply p2_le; eassumption | exact T52]. }
    assert (Pm : p2 e' <= p2 e2) by (apply p2_le; lia).
    assert (Q1 : inject_Z (q + 1) * p2 e' == inject_Z q * p2 e' + p2 e').
    { rewrite inject_Z_plus. change (inject_Z 1) with 1. ring. }
    rewrite Q1 in QU.
    destruct m2 as [|p|p]; try lia.
    + exfalso. change (inject_Z 0) with 0 in VL. lra.
    + exists p, e2. rewrite R. split; [reflexivity|]. split; [lia|].
      split; lra.
Qed.

(** *** Formatting *)

Lemma round_half_even_bounds (num den : Z) :
  (0 < den)%Z ->
  ((2 * round_half_even num den - 1) * den <= 2 * num
   <= (2 * round_half_even num den + 1) * den)%Z.
Proof.
  intro H. unfold round_half_even.
  assert (E := Z.div_mod num den ltac:(lia)).
  assert (R := Z.mod_pos_bound num den H).
  destruct (Z.compare_spec (2 * (num mod den)) den) as [C|C|C].
  - destruct (Z.even (num / den)); nia.
  - nia.
  - nia.
Qed.

Lemma digit_char_value (d : Z) :
  (0 <= d <= 9)%Z ->
  Ascii.eqb (digit_char d) "." = false
  /\ digit_value (digit_char d) = Some d.
Proof.
  intro H.
  assert (C : (d = 0 \/ d = 1 \/ d = 2 \/ d = 3 \/ d = 4 \/ d = 5
               \/ d = 6 \/ d = 7 \/ d = 8 \/ d = 9)%Z) by lia.
  repeat (destruct C as [->|C]; [split; reflexivity|]).
  subst d. split; reflexivity.
Qed.

Lemma read_frac_digits (w : nat) :
  forall (n acc k : Z) (rest : string),
    read_decimal (frac_digits w n ++ rest) acc (Some k)
    = read_decimal rest (acc * 10 ^ Z.of_nat w + n mod 10 ^ Z.of_nat w)%Z
                               (Some (k * 10 ^ Z.of_nat w)%Z).
Proof.
  induction w as [|w IH]; intros n acc k rest.
  - cbn [frac_digits String.append]. change (10 ^ Z.of_nat 0)%Z with 1%Z.
    rewrite Z.mod_1_r. f_equal; [lia | f_equal; lia].
  - cbn [frac_digits]. rewrite append_assoc, IH.
    cbn [String.append read_decimal].
    destruct (digit_char_value (n mod 10)) as [-> ->].
    { assert (R := Z.mod_pos_bound n 10). lia. }
    cbn [option_map]. rewrite Nat2Z.inj_succ, Z.pow_succ_r by lia.
    f_equal; [|f_equal; lia].
    assert (P : (0 < 10 ^ Z.of_nat w)%Z) by (apply Z.pow_pos_nonneg; lia).
    rewrite (Z.rem_mul_r n 10 (10 ^ Z.of_nat w)) by lia. ring.
Qed.

Lemma read_zero_point (s : string) :
  read_decimal (String "0" (String "." s)) 0 None
  = read_decimal s 0 (Some 1%Z).
Proof. reflexivity. Qed.

(** Reading back the six decimals of a count of millionths below one. *)
Lemma kw_to_voltage_fixed6 (n : Z) :
  (0 <= n < 10 ^ 6)%Z ->
  kw_to_voltage (fixed6 n)
  = Some (inject_Z n / inject_Z 1000000 * 1000 - 500).
Proof.
  intro H. unfold kw_to_voltage, fixed6.
  rewrite Z.div_small, Z.mod_small by assumption.
  change (PyStr.str_of_int 0) with "0"%string.
  cbn [String.append]. rewrite read_zero_point.
  rewrite <- (append_nil_r (frac_digits 6 n)).
  rewrite read_frac_digits. cbn [read_decimal option_map].
  change (10 ^ Z.of_nat 6)%Z with 1000000%Z.
  rewrite Z.mod_small by (change (10 ^ 6)%Z with 1000000%Z in H; lia).
  reflexivity.
Qed.

(** Six decimals are within half a millionth of the float formatted. *)
Lemma format_6f_value (m : positive) (e : Z) :
  (e < 0)%Z ->
  exists n,
    format_6f (S754_finite false m e) = fixed6 n
    /\ inject_Z n - (1 # 2) <= 1000000 * (inject_Z (Zpos m) * p2 e)
    /\ 1000000 * (inject_Z (Zpos m) * p2 e) <= inject_Z n + (1 # 2).
Proof.
  intro He. unfold format_6f.
  replace (0 <=? e)%Z with false by (symmetry; apply Z.leb_gt; lia).
  set (n := round_half_even (Zpos m * 10 ^ 6) (2 ^ (- e))).
  exists n. split; [reflexivity|].
  assert (P : (0 < 2 ^ (- e))%Z) by (apply pow2_pos; lia).
  destruct (round_half_even_bounds (Zpos m * 10 ^ 6) (2 ^ (- e)) P)
    as [L U]. fold n in L, U.
  apply (scale_le _ _ e) in L. apply (scale_le _ _ e) in U.
  rewrite scale_shift in L, U by lia.
  replace (- e + e)%Z with 0%Z in L, U by lia.
  assert (T : p2 0 == 1) by reflexivity. rewrite T in L, U.
  change (10 ^ 6)%Z with 1000000%Z in L, U.
  assert (X : inject_Z (2 * (Zpos m * 1000000)) * p2 e
              == 2 * (1000000 * (inject_Z (Zpos m) * p2 e))).
  { rewrite !inject_Z_mult. change (inject_Z 2) with 2.
    change (inject_Z 1000000) with 1000000. ring. }
  rewrite X in L, U.
  unfold Zminus in L. rewrite inject_Z_plus, inject_Z_mult in L, U.
  rewrite inject_Z_opp in L. change (inject_Z 1) with 1 in L, U.
  change (inject_Z 2) with 2 in L, U.
  split; lra.
Qed.



(** *** The bound, on values *)

Lemma canonical_digits (m : positive) (e : Z) :
  bounded prec emax m e = true -> (Zpos (digits2_pos m) <= 53)%Z.
Proof.
  unfold bounded, canonical_mantissa. fold fexp64. rewrite fexp64_eq.
  intro H. apply andb_true_iff in H. destruct H as [H _].
  apply Z.eqb_eq in H. lia.
Qed.

(** A canonical mantissa at an exponent [e] stays below [2 ^ (53 + e)]. *)
Lemma canonical_value (m : positive) (e : Z) :
  bounded prec emax m e = true ->
  inject_Z (Zpos m) * p2 e < p2 (53 + e).
Proof.
  intro H. apply canonical_digits in H.
  destruct (value_digits (Zpos m) e ltac:(lia)) as [_ U].
  change (Zdigits2 (Zpos m)) with (Zpos (digits2_pos m)) in U.
  eapply Qlt_le_trans; [exact U|]. apply p2_le. lia.
Qed.

Definition f300 : float := S754_finite false 5277655813324800 (-44).

Lemma magnitude_within (m : positive) (e : Z) :
  bounded prec emax m e = true ->
  SFltb f300 (S754_finite false m e) = false ->
  inject_Z (Zpos m) * p2 e <= 300.
Proof.
  intros V H. unfold SFltb, SFcompare, f300 in H.
  destruct (Z.compare_spec (-44) e) as [C|C|C]; [| discriminate |].
  - subst e. rewrite Pos.compare_cont_spec in H. cbn [Pos.switch_Eq] in H.
    assert (L : (Zpos m <= 5277655813324800)%Z).
    { destruct (5277655813324800 ?= m)%positive eqn:C; [|discriminate|].
      - apply Pos.compare_eq in C. subst m. apply Z.le_refl.
      - apply Pos.compare_gt_iff in C. apply Pos2Z.pos_lt_pos in C.
        apply Z.lt_le_incl. exact C. }
    apply (scale_le _ _ (-44)) in L.
    assert (T : inject_Z 5277655813324800 * p2 (-44) == 300) by reflexivity.
    lra.
  - apply canonical_value in V.
    assert (P : p2 (53 + e) <= p2 8) by (apply p2_le; lia).
    assert (T : p2 8 == 256) by reflexivity. lra.
Qed.

(** What the test of [set_voltage] lets through, NaN apart, is a finite
    number between -300 and 300. *)
Lemma within_bounds_value (v : float) :
  valid_binary prec emax v = true ->
  v <> S754_nan ->
  exceeds_VLIM v = false ->
  is_finite v = true /\ -300 <= F2Q v <= 300.
Proof.
  intros V N H. unfold exceeds_VLIM, gt, lt in H.
  apply orb_false_iff in H. destruct H as [Hg Hl].
  change (of_int VLIM) with f300 in Hg.
  change (of_int (- VLIM)) with (SFopp f300) in Hl.
  destruct v as [s|s| |s m e].
  - split; [reflexivity|]. cbn [F2Q]. lra.
  - destruct s; discriminate.
  - now elim N.
  - split; [reflexivity|]. cbn [valid_binary] in V.
    rewrite F2Q_finite, cond_Zopp_value.
    assert (P : 0 < inject_Z (Zpos m) * p2 e).
    { apply Qmult_lt_0_compat; [reflexivity | apply p2_pos]. }
    destruct s.
    + assert (M : inject_Z (Zpos m) * p2 e <= 300).
      { apply magnitude_within; [assumption|].
        assert (A := abs_above_bound
                       5277655813324800 (-44) (S754_finite true m e)).
        cbv zeta in A. fold f300 in A. rewrite Hg, Hl in A. exact A. }
      lra.
    + assert (M := magnitude_within m e V Hg). lra.
Qed.

(** *** The round trip *)

(** For a voltage within the bounds the keyword is a count [n] of
    millionths below one, and decoding it gives the voltage back to
    within six tenths of a millivolt. *)
Lemma voltage_to_kw_decoded (v : float) :
  is_finite v = true ->
  -300 <= F2Q v <= 300 ->
  exists n,
    (0 <= n < 10 ^ 6)%Z
    /\ voltage_to_kw v = fixed6 n
    /\ Qabs (inject_Z n / inject_Z 1000000 * 1000 - 500 - F2Q v)
       <= 6 # 10000.
Proof.
  intros Hf Hr.
  destruct (add_500_value v Hf Hr) as (m1 & e1 & A & Le1 & AL & AU).
  assert (T42 : p2 (-42) <= 1 # 1000000000) by (vm_compute; discriminate).
  assert (Pe1 : p2 e1 <= 1 # 1000000000).
  { eapply Qle_trans; [apply p2_le; eassumption | exact T42]. }
  assert (P1 := p2_pos e1).
  destruct (div_1000_value m1 e1) as (m2 & e2 & Dv & Le2 & DL & DU).
  { split; lra. }
  assert (T52 : p2 (-52) <= 1 # 1000000000000) by (vm_compute; discriminate).
  assert (Pe2 : p2 e2 <= 1 # 1000000000000).
  { eapply Qle_trans; [apply p2_le; eassumption | exact T52]. }
  assert (P2 := p2_pos e2).
  destruct (format_6f_value m2 e2 ltac:(lia)) as (n & Fm & FL & FU).
  assert (N0 : (0 <= n)%Z).
  { rewrite Zle_Qle. change (inject_Z 0) with 0. lra. }
  assert (N1 : (n < 1000000)%Z).
  { rewrite Zlt_Qlt. change (inject_Z 1000000) with 1000000. lra. }
  exists n. split; [change (10 ^ 6)%Z with 1000000%Z; lia|]. split.
  - unfold voltage_to_kw. now rewrite A, Dv.
  - apply Qabs_Qle_condition. unfold Qdiv.
    change (/ inject_Z 1000000) with (1 # 1000000). split; lra.
Qed.

(** Reading back 150.0 volts. *)
Definition f150 : float := of_int 150.

(** C9: the keyword of a voltage is [(volts + 500) / 1000] formatted with
    six decimals: 0, -300 and 300 volts give "0.500000", "0.200000" and
    "0.800000", and for every finite voltage between -300 and 300 the
    keyword is "0." followed by the six digits of a count of millionths
    that is within 0.6 millionths of [(volts + 500) / 1000]; decoding the
    keyword ([kw * 1000 - 500]) gives the voltage back to within 10 mV. *)
Theorem voltage_to_kw_round_trip :
  voltage_to_kw (of_int 0) = "0.500000"%string
  /\ voltage_to_kw (of_int (-300)) = "0.200000"%string
  /\ voltage_to_kw (of_int 300) = "0.800000"%string
  /\ (forall v,
        voltage_to_kw v
        = format_6f (div (add v (of_int 500)) (of_int 1000)))
  /\ (forall v,
        is_finite v = true ->
        -300 <= F2Q v <= 300 ->
        exists n q,
          (0 <= n < 10 ^ 6)%Z
          /\ voltage_to_kw v = ("0." ++ frac_digits 6 n)%string
          /\ Qabs (inject_Z n / inject_Z 1000000 - (F2Q v + 500) / 1000)
             <= 6 # 10000000
          /\ kw_to_voltage (voltage_to_kw v) = Some q
          /\ Qabs (q - F2Q v) <= 1 # 100).
Proof.
  split; [reflexivity|]. split; [reflexivity|]. split; [reflexivity|].
  split; [reflexivity|].
  intros v Hf Hr.
  destruct (voltage_to_kw_decoded v Hf Hr) as (n & Hn & E & B).
  exists n, (inject_Z n / inject_Z 1000000 * 1000 - 500).
  split; [assumption|]. split; [|split; [|split]].
  - rewrite E. unfold fixed6.
    rewrite Z.div_small, Z.mod_small by assumption. reflexivity.
  - apply Qabs_Qle_condition in B. apply Qabs_Qle_condition.
    unfold Qdiv in *. change (/ inject_Z 1000000) with (1 # 1000000) in *.
    change (/ 1000) with (1 # 1000). split; lra.
  - rewrite E. now apply kw_to_voltage_fixed6.
  - apply Qabs_Qle_condition in B. apply Qabs_Qle_condition.
    unfold Qdiv in *. change (/ inject_Z 1000000) with (1 # 1000000) in *.
    split; lra.
Qed.

Lemma voltage_to_kw_round_trip_witness :
  is_finite f150 = true
  /\ -300 <= F2Q f150 <= 300
  /\ exists n q,
      (0 <= n < 10 ^ 6)%Z
      /\ voltage_to_kw f150 = ("0." ++ frac_digits 6 n)%string
      /\ Qabs (inject_Z n / inject_Z 1000000 - (F2Q f150 + 500) / 1000)
         <= 6 # 10000000
      /\ kw_to_voltage (voltage_to_kw f150) = Some q
      /\ Qabs (q - F2Q f150) <= 1 # 100.
Proof.
  split; [reflexivity|].
  assert (R : -300 <= F2Q f150 <= 300)
    by (split; vm_compute; discriminate).
  split; [exact R|].
  exact (proj2 (proj2 (proj2 (proj2 voltage_to_kw_round_trip)))
               f150 eq_refl R).
Defined.

(** Every voltage [set_voltage] accepts, NaN apart, makes the round
    trip. *)
Corollary accepted_voltage_round_trip (v : float) :
  valid_binary prec emax v = true ->
  v <> S754_nan ->
  exceeds_VLIM v = false ->
  exists q, kw_to_voltage (voltage_to_kw v) = Some q
            /\ Qabs (q - F2Q v) <= 1 # 100.
Proof.
  intros V N H. destruct (within_bounds_value v V N H) as [Hf Hr].
  destruct (voltage_to_kw_decoded v Hf Hr) as (n & Hn & E & B).
  exists (inject_Z n / inject_Z 1000000 * 1000 - 500). split.
  - rewrite E. now apply kw_to_voltage_fixed6.
  - eapply Qle_trans; [exact B | discriminate].
Qed.

End PyFloatFacts.

(** ** The connection manager, further *)

Module ConnectionManagerFacts.
Import PyStr PyStrFacts Registry RegistryFacts.
Import SerialDeviceServer SerialDeviceServerFacts.

Lemma lower_ascii_idempotent (c : ascii) :
  lower_ascii (lower_ascii c) = lower_ascii c.
Proof. destruct c as [[] [] [] [] [] [] [] []]; reflexivity. Qed.

Lemma lower_idempotent (s : string) : lower (lower s) = lower s.
Proof.
  induction s as [|c s IH]; [reflexivity|].
  cbn [lower]. now rewrite lower_ascii_idempotent, IH.
Qed.

(** X1: [_matchSerial] does not look at the case of letters: two node
    names and two server names that agree once in lower case match alike,
    and putting both in lower case beforehand changes nothing. *)
Theorem matchSerial_ignores_case
        (serNode serNode' potMatch potMatch' : string) :
  lower serNode = lower serNode' ->
  lower potMatch = lower potMatch' ->
  _matchSerial serNode potMatch = _matchSerial serNode' potMatch'
  /\ _matchSerial (lower serNode) (lower potMatch)
     = _matchSerial serNode potMatch.
Proof.
  intros Hn Hm. unfold _matchSerial. rewrite !lower_idempotent, Hn, Hm.
  split; reflexivity.
Qed.

Lemma matchSerial_ignores_case_witness :
  lower "LAB" = lower "lab"
  /\ lower "Lab Serial Server" = lower "lab serial server"
  /\ _matchSerial "LAB" "Lab Serial Server"
     = _matchSerial "lab" "lab serial server"
  /\ _matchSerial (lower "LAB") (lower "Lab Serial Server")
     = _matchSerial "LAB" "Lab Serial Server".
Proof.
  split; [reflexivity|]. split; [reflexivity|].
  apply (matchSerial_ignores_case "LAB" "lab" "Lab Serial Server"
           "lab serial server"); reflexivity.
Defined.

(** The first element a filter keeps, in the list filtered. *)
Lemma filter_first {A : Type} (f : A -> bool) (l : list A) (x : A)
      (r : list A) :
  filter f l = x :: r ->
  exists before after,
    l = (before ++ x :: after)%list
    /\ f x = true
    /\ Forall (fun y => f y = false) before.
Proof.
  induction l as [|a l IH]; [discriminate|]. cbn [filter].
  destruct (f a) eqn:E; intro H.
  - injection H as -> _. exists [], l. repeat split; auto.
  - destruct (IH H) as (b & af & -> & Fx & Fb).
    exists (a :: b), af. repeat split; auto.
Qed.

Lemma filter_none {A : Type} (f : A -> bool) (l : list A) :
  filter f l = [] <-> forall y, In y l -> f y = false.
Proof.
  induction l as [|a l IH]; cbn [filter]; [now split|].
  destruct (f a) eqn:E; split.
  - discriminate.
  - intro H. rewrite (H a) in E; [discriminate | now left].
  - intros H y [<-|I]; [assumption | now apply IH].
  - intro H. apply IH. intros y I. apply H. now right.
Qed.

(** The node name [findSerial] looks for. *)
Definition node_sought (w : World) (serNode : option string) : option string :=
  if truthy serNode then serNode else SerialDeviceServer.serNode (self w).

(** X2: [findSerial] answers with the first server, in the order of the
    manager's list, whose name matches the node; it raises
    [SerialConnectionError(0)] exactly when none matches; it changes
    nothing. *)
Theorem findSerial_first_match (w : World) (serNode : option string)
        (node : string) :
  node_sought w serNode = Some node ->
  snd (findSerial serNode w) = w
  /\ (forall name,
        fst (findSerial serNode w) = Ok name ->
        exists before id after,
          servers w = (before ++ (id, name) :: after)%list
          /\ _matchSerial node name = true
          /\ Forall (fun j => _matchSerial node (snd j) = false) before)
  /\ (fst (findSerial serNode w) = Raise (SerialConnectionError 0)
      <-> forall j, In j (servers w) -> _matchSerial node (snd j) = false)
  /\ ((exists j, In j (servers w) /\ _matchSerial node (snd j) = true) ->
      exists name, fst (findSerial serNode w) = Ok name).
Proof.
  intro N. unfold findSerial, node_sought in *. run. rewrite N.
  destruct (filter (fun i => _matchSerial node (snd i)) (servers w))
    as [|[id name] rest] eqn:F; cbn [fst snd].
  - split; [reflexivity|]. split; [discriminate|]. split.
    + split; [intros _; now apply filter_none | reflexivity].
    + intros (j & I & M). rewrite (proj1 (filter_none _ _) F j I) in M.
      discriminate.
  - split; [reflexivity|]. split; [|split].
    + intros name' E. injection E as <-.
      destruct (filter_first _ _ _ _ F) as (b & a & L & M & B).
      exists b, id, a. auto.
    + split; [discriminate|]. intro H.
      apply filter_none in H. congruence.
    + intros _. now exists name.
Qed.


Lemma findSerial_first_match_witness :
  let w := startup "lab" example_registry
                   [(5, "other Serial Server"); (3, "lab Serial Server");
                    (4, "LAB serial server 2")] (fun _ _ => None) in
  node_sought w None = Some "lab"
  /\ fst (findSerial None w) = Ok "lab Serial Server"
  /\ snd (findSerial None w) = w.
Proof.
  cbv zeta. split; [reflexivity|]. split; [reflexivity|].
  apply (findSerial_first_match
           (startup "lab" example_registry
                    [(5, "other Serial Server"); (3, "lab Serial Server");
                     (4, "LAB serial server 2")] (fun _ _ => None))
           None "lab" eq_refl).
Defined.

(** *** Start-up *)

(** The timeout a handle gets when none is passed to [initSerial]. *)
Definition default_timeout (w : World) : option Q :=
  if truthy_timeout (timeout (self w)) then timeout (self w) else None.

(** The handle [initServer] ends up with once the port [p] is known. *)
Definition handle_for (w : World) (node p : string)
  : option SerialConnection :=
  match filter (fun i => _matchSerial node (snd i)) (servers w) with
  | [] => None
  | i :: _ =>
      match proxy_ID (snd i) (servers w), open_error w (snd i) p with
      | Some id, None =>
          Some (mkConn id p (default_timeout w) (baudrate (self w)))
      | _, _ => None
      end
  end.

(** The world with the port [p] recorded, the handle [h] and the registry
    [r']. *)
Definition settled (w : World) (r' : Registry.t) (p : string)
           (h : option SerialConnection) : World :=
  mkWorld (mkServer (name (self w)) (regKey (self w)) (serNode (self w))
                    (Some p) (timeout (self w)) (baudrate (self w)) h
                    (IDN (self w)) (listeners (self w)))
          r' (servers w) (open_error w) (wire w).

(** What reading [self.baudrate] raises where the class assigns none. *)
Definition no_baudrate : exn :=
  AttributeError "object has no attribute 'baudrate'".

Lemma initServer_of_unfolded (b : bool) (w : World) (node : string) :
  truthy (regKey (self w)) = true ->
  serNode (self w) = Some node ->
  node <> "" ->
  initServer_of b w
  = match getPortFromReg (name (self w)) (regKey (self w)) (registry w) with
    | (Raise e, r') => (Raise e, set_registry r' w)
    | (Ok p, r') =>
        if b then (Ok tt, settled w r' p (handle_for w node p))
        else match filter (fun i => _matchSerial node (snd i)) (servers w) with
             | [] => (Ok tt, settled w r' p None)
             | _ :: _ => (Raise no_baudrate, settled w r' p (ser (self w)))
             end
    end.
Proof.
  intros Hk Hn Ne.
  assert (T : truthy (Some node) = true).
  { destruct node; [now elim Ne | reflexivity]. }
  destruct w as [[n k sn po to ba se idn li] r sv oe wi].
  cbn [self regKey serNode name registry] in *. subst sn.
  unfold initServer_of. run. cbn [self regKey serNode name registry].
  rewrite Hk, T. cbn [negb orb].
  destruct (getPortFromReg _ _ _) as [[p|e] r']; [|reflexivity].
  unfold findSerial, initSerial, handle_for, settled, default_timeout. run.
  unfold set_registry, set_self, set_port, set_ser.
  cbv beta iota delta [self serNode servers open_error timeout baudrate
                       registry wire name regKey port ser IDN listeners].
  rewrite T.
  destruct (filter _ sv) as [|i rest] eqn:F; [now destruct b|].
  destruct b; [|reflexivity].
  assert (P := proxy_ID_listed _ _ _ _ F).
  destruct (proxy_ID (snd i) sv); [|now elim P].
  destruct (oe (snd i) p); reflexivity.
Qed.

Lemma initServer_unfolded (w : World) (node : string) :
  truthy (regKey (self w)) = true ->
  serNode (self w) = Some node ->
  node <> "" ->
  initServer w
  = match getPortFromReg (name (self w)) (regKey (self w)) (registry w) with
    | (Raise e, r') => (Raise e, set_registry r' w)
    | (Ok p, r') => (Ok tt, settled w r' p (handle_for w node p))
    end.
Proof. exact (initServer_of_unfolded true w node). Qed.

Lemma truthy_Some (o : option string) :
  truthy o = true -> exists s, o = Some s /\ s <> "".
Proof.
  destruct o as [[|c s]|]; try discriminate. intros _.
  exists (String c s). split; [reflexivity | discriminate].
Qed.

Lemma initServer_of_unconfigured (b : bool) (w : World) :
  truthy (regKey (self w)) && truthy (serNode (self w)) = false ->
  initServer_of b w
  = (Raise (SerialDeviceError "Must define regKey & serNode attributes"), w).
Proof.
  intro H. unfold initServer_of. run.
  destruct (truthy (regKey (self w))), (truthy (serNode (self w)));
    try discriminate; reflexivity.
Qed.

Lemma initServer_unconfigured (w : World) :
  truthy (regKey (self w)) && truthy (serNode (self w)) = false ->
  initServer w
  = (Raise (SerialDeviceError "Must define regKey & serNode attributes"), w).
Proof. exact (initServer_of_unconfigured true w). Qed.


Lemma assoc_In {A : Type} (k : string) (l : list (string * A)) (a : A) :
  assoc k l = Some a -> In (k, a) l.
Proof.
  induction l as [|[k' a'] l IH]; cbn [assoc]; [discriminate|].
  destruct (String.eqb k' k) eqn:E.
  - apply String.eqb_eq in E. intro H. injection H as ->. subst. now left.
  - intro H. right. auto.
Qed.

(** Every way out of [getPortFromReg]. *)
Inductive lookup_outcome (r : Registry.t) (n k : option string)
  : result string * Registry.t -> Prop :=
| Found d key found v :
    ports r = Some d ->
    lookup_substring n k = Some key ->
    find (str_in key) (map fst (keys d)) = Some found ->
    assoc found (keys d) = Some v ->
    lookup_outcome r n k (Ok v, snd (cd (Some (cwd r)) (at_ports r)))
| NoKey d key :
    ports r = Some d ->
    lookup_substring n k = Some key ->
    find (str_in key) (map fst (keys d)) = None ->
    lookup_outcome r n k (Raise (PortRegError 1), at_ports r)
| NoName d :
    ports r = Some d ->
    lookup_substring n k = None ->
    lookup_outcome r n k
      (Raise (SerialDeviceError "name attribute is None"), at_ports r)
| NoPorts :
    ports r = None ->
    lookup_outcome r n k
      (if nodir_code r =? 17 then Raise (PortRegError 0)
       else Raise (Error (nodir_code r)),
       snd (cd (Some (cwd r)) r)).

Lemma getPortFromReg_outcome (r : Registry.t) (n k : option string) :
  lookup_outcome r n k (getPortFromReg n k r).
Proof.
  destruct (ports r) as [d|] eqn:H.
  - destruct (lookup_substring n k) as [key|] eqn:L.
    + destruct (find (str_in key) (map fst (keys d))) as [found|] eqn:F.
      * destruct (getPortFromReg_match r n k d key found H L F)
          as (v & Hv & ->). now apply (Found r n k d key found v).
      * rewrite (getPortFromReg_no_match r n k d key H L F).
        now apply (NoKey r n k d key).
    + rewrite (getPortFromReg_no_name r n k d H L).
      now apply (NoName r n k d).
  - rewrite (getPortFromReg_no_ports r n k H). now apply NoPorts.
Qed.


Lemma initServer_Ok_configured (w : World) :
  fst (initServer w) = Ok tt ->
  truthy (regKey (self w)) = true /\ truthy (serNode (self w)) = true.
Proof.
  intro E.
  destruct (truthy (regKey (self w)) && truthy (serNode (self w))) eqn:T.
  - now apply andb_true_iff in T.
  - rewrite (initServer_unconfigured w T) in E. discriminate.
Qed.

(** A handle [initServer] sets up. *)
Lemma handle_for_sound (w : World) (node p : string)
      (c : SerialConnection) :
  handle_for w node p = Some c ->
  conn_port c = p
  /\ conn_baudrate c = baudrate (self w)
  /\ conn_timeout c = default_timeout w
  /\ exists serStr,
       In (ID c, serStr) (servers w)
       /\ _matchSerial node serStr = true
       /\ open_error w serStr p = None.
Proof.
  unfold handle_for.
  destruct (filter _ (servers w)) as [|i rest] eqn:F; [discriminate|].
  destruct (proxy_ID (snd i) (servers w)) as [id|] eqn:X; [|discriminate].
  destruct (open_error w (snd i) p) as [e|] eqn:O; [discriminate|].
  intro C. injection C as <-.
  cbn [conn_port conn_baudrate conn_timeout ID]. repeat split.
  exists (snd i). unfold proxy_ID in X.
  destruct (find _ (servers w)) as [[id' nm]|] eqn:Fd; [|discriminate].
  injection X as <-. apply find_some in Fd. destruct Fd as [I Eq].
  apply String.eqb_eq in Eq. cbn [snd fst] in *. subst nm.
  split; [assumption|]. split; [|assumption].
  assert (I' : In i (filter (fun i => _matchSerial node (snd i))
                            (servers w))) by (rewrite F; now left).
  apply filter_In in I'. tauto.
Qed.

(** What [initServer] leaves alone. *)
Lemma initServer_of_frame (b : bool) (w : World) :
  servers (snd (initServer_of b w)) = servers w
  /\ wire (snd (initServer_of b w)) = wire w
  /\ open_error (snd (initServer_of b w)) = open_error w
  /\ set_ser None (set_port None (self (snd (initServer_of b w))))
     = set_ser None (set_port None (self w)).
Proof.
  destruct (truthy (regKey (self w)) && truthy (serNode (self w))) eqn:T.
  - apply andb_true_iff in T. destruct T as [Tk Tn].
    destruct (truthy_Some _ Tn) as (node & Hn & Ne).
    rewrite (initServer_of_unfolded b w node Tk Hn Ne).
    destruct (getPortFromReg _ _ _) as [[p|e] r']; [|repeat split].
    destruct b; [repeat split|].
    destruct (filter _ (servers w)); repeat split.
  - rewrite (initServer_of_unconfigured b w T). repeat split.
Qed.

Lemma initServer_frame (w : World) :
  servers (snd (initServer w)) = servers w
  /\ wire (snd (initServer w)) = wire w
  /\ open_error (snd (initServer w)) = open_error w
  /\ set_ser None (set_port None (self (snd (initServer w))))
     = set_ser None (set_port None (self w)).
Proof. exact (initServer_of_frame true w). Qed.

(** X4: what comes out of [initServer], on an instance of a class that
    assigns [baudrate] and on one of a class that does not. It raises the
    [SerialDeviceError] of a server that lacks [regKey] or [serNode];
    whatever the registry lookup raises ([PortRegError] 0 or 1, or the
    registry's error for a missing [Ports] directory when its code is not
    17); and, where the class assigns no [baudrate] and a listed server
    matches the node, the [AttributeError] of reading [self.baudrate],
    the port being recorded by then and the handle left as it was. It
    raises nothing else: no [SerialConnectionError] comes out of it.
    Whatever the outcome, the manager's list, the serial line and every
    attribute but [port] and [ser] are as before. *)
Theorem initServer_raises_only (has_baudrate : bool) (w : World) :
  match fst (initServer_of has_baudrate w) with
  | Ok _ => truthy (regKey (self w)) = true
            /\ truthy (serNode (self w)) = true
  | Raise (SerialDeviceError _) =>
      truthy (regKey (self w)) && truthy (serNode (self w)) = false
      /\ snd (initServer_of has_baudrate w) = w
  | Raise (PortRegError c) =>
      (c = 0 /\ ports (registry w) = None)
      \/ (c = 1 /\ ports (registry w) <> None)
  | Raise (Error c) =>
      ports (registry w) = None /\ c = nodir_code (registry w) /\ c <> 17
  | Raise (AttributeError _) =>
      has_baudrate = false
      /\ (exists p,
            fst (getPortFromReg (name (self w)) (regKey (self w))
                                (registry w)) = Ok p
            /\ port (self (snd (initServer_of has_baudrate w))) = Some p)
      /\ ser (self (snd (initServer_of has_baudrate w))) = ser (self w)
      /\ exists node j,
           serNode (self w) = Some node
           /\ In j (servers w) /\ _matchSerial node (snd j) = true
  | Raise _ => False
  end
  /\ (truthy (regKey (self w)) && truthy (serNode (self w)) = false ->
      fst (initServer_of has_baudrate w)
      = Raise (SerialDeviceError "Must define regKey & serNode attributes"))
  /\ (forall e,
        truthy (regKey (self w)) && truthy (serNode (self w)) = true ->
        fst (getPortFromReg (name (self w)) (regKey (self w)) (registry w))
        = Raise e ->
        fst (initServer_of has_baudrate w) = Raise e)
  /\ (forall p node j,
        has_baudrate = false ->
        truthy (regKey (self w)) = true ->
        serNode (self w) = Some node -> node <> "" ->
        fst (getPortFromReg (name (self w)) (regKey (self w)) (registry w))
        = Ok p ->
        In j (servers w) -> _matchSerial node (snd j) = true ->
        fst (initServer_of has_baudrate w) = Raise no_baudrate)
  /\ servers (snd (initServer_of has_baudrate w)) = servers w
  /\ wire (snd (initServer_of has_baudrate w)) = wire w
  /\ set_ser None (set_port None (self (snd (initServer_of has_baudrate w))))
     = set_ser None (set_port None (self w)).
Proof.
  destruct (initServer_of_frame has_baudrate w) as (F1 & F2 & _ & F3).
  split; [|split; [|split; [|split; [|repeat split; assumption]]]];
    clear F1 F2 F3.
  - destruct (truthy (regKey (self w)) && truthy (serNode (self w))) eqn:T.
    + apply andb_true_iff in T. destruct T as [Tk Tn].
      destruct (truthy_Some _ Tn) as (node & Hn & Ne).
      rewrite (initServer_of_unfolded has_baudrate w node Tk Hn Ne).
      destruct (getPortFromReg_outcome (registry w) (name (self w))
                  (regKey (self w)))
        as [d key found v H L F A | d key H L F | d H L | H]; cbn [fst snd].
      * destruct has_baudrate; cbn [fst snd]; [now split|].
        destruct (filter _ (servers w)) as [|j rest] eqn:Fl; cbn [fst snd];
          [now split|].
        split; [reflexivity|]. split; [now exists v|].
        split; [reflexivity|]. exists node, j.
        assert (I : In j (filter (fun i => _matchSerial node (snd i))
                                 (servers w))) by (rewrite Fl; now left).
        apply filter_In in I. tauto.
      * right. split; [reflexivity | congruence].
      * unfold lookup_substring in L. rewrite Tk in L. discriminate.
      * destruct (nodir_code (registry w) =? 17) eqn:C; cbn [fst snd].
        -- left. now split.
        -- apply Z.eqb_neq in C. repeat split; assumption.
    + rewrite (initServer_of_unconfigured has_baudrate w T). cbn [fst snd].
      now split.
  - intro T. now rewrite (initServer_of_unconfigured has_baudrate w T).
  - intros e T E. apply andb_true_iff in T. destruct T as [Tk Tn].
    destruct (truthy_Some _ Tn) as (node & Hn & Ne).
    rewrite (initServer_of_unfolded has_baudrate w node Tk Hn Ne).
    destruct (getPortFromReg _ _ _) as [[p|e'] r']; cbn [fst] in *;
      congruence.
  - intros p node j -> Tk Hn Ne E I M.
    rewrite (initServer_of_unfolded false w node Tk Hn Ne).
    destruct (getPortFromReg _ _ _) as [[p'|e'] r']; cbn [fst] in *;
      [|discriminate].
    destruct (filter _ (servers w)) as [|j' rest] eqn:Fl; [|reflexivity].
    exfalso. assert (N := proj1 (filter_none _ _) Fl j I). cbv beta in N.
    congruence.
Qed.

(** X5: when [initServer] completes, the port recorded is the one the
    registry lookup returned. A handle, if one is held then, is on that
    port, with the server's baudrate, with the server's timeout when that
    is set and not zero, and with the identity of a listed server whose
    name matches the node and on which the port opened; no handle is held
    exactly when no listed server matches the node or the port did not
    open on the first that does. *)
Theorem initServer_connection (w : World) (node : string) :
  serNode (self w) = Some node ->
  fst (initServer w) = Ok tt ->
  exists p,
    fst (getPortFromReg (name (self w)) (regKey (self w)) (registry w))
    = Ok p
    /\ port (self (snd (initServer w))) = Some p
    /\ ser (self (snd (initServer w))) = handle_for w node p
    /\ (forall c,
          ser (self (snd (initServer w))) = Some c ->
          conn_port c = p
          /\ conn_baudrate c = baudrate (self w)
          /\ conn_timeout c = default_timeout w
          /\ exists serStr,
               In (ID c, serStr) (servers w)
               /\ _matchSerial node serStr = true
               /\ open_error w serStr p = None)
    /\ (ser (self (snd (initServer w))) = None <->
        match filter (fun i => _matchSerial node (snd i)) (servers w) with
        | [] => True
        | i :: _ => open_error w (snd i) p <> None
        end).
Proof.
  intros Hn E.
  destruct (initServer_Ok_configured w E) as [Tk Tn].
  assert (Ne : node <> "").
  { rewrite Hn in Tn. destruct node; [discriminate | discriminate]. }
  rewrite (initServer_unfolded w node Tk Hn Ne) in *.
  destruct (getPortFromReg _ _ _) as [[p|e] r']; [|discriminate].
  exists p. cbn [fst snd settled self port ser].
  split; [reflexivity|]. split; [reflexivity|]. split; [reflexivity|].
  split; [intros c C; now apply handle_for_sound|].
  unfold handle_for.
  destruct (filter _ (servers w)) as [|i rest] eqn:F; [tauto|].
  assert (P := proxy_ID_listed _ _ _ _ F).
  destruct (proxy_ID (snd i) (servers w)) as [id|] eqn:X; [|now elim P].
  destruct (open_error w (snd i) p) as [c|] eqn:O.
  - split; [discriminate | reflexivity].
  - split; [discriminate | congruence].
Qed.

Lemma initServer_connection_witness :
  let w := startup "lab" example_registry [(3, "lab Serial Server")]
                   (fun _ _ => None) in
  serNode (self w) = Some "lab"
  /\ fst (initServer w) = Ok tt
  /\ exists p,
      fst (getPortFromReg (name (self w)) (regKey (self w)) (registry w))
      = Ok p
      /\ port (self (snd (initServer w))) = Some p.
Proof.
  cbv zeta. split; [reflexivity|]. split; [reflexivity|].
  destruct (initServer_connection
              (startup "lab" example_registry [(3, "lab Serial Server")]
                       (fun _ _ => None)) "lab" eq_refl eq_refl)
    as (p & A & B & _).
  exists p. split; assumption.
Defined.


(** *** Notifications of the manager *)

Lemma serverConnected_unfolded (w : World) (id : Z) (serStr : string) :
  serverConnected id serStr w
  = match ser (self w), port (self w), serNode (self w) with
    | None, Some p, Some node =>
        if _matchSerial node serStr
        then match proxy_ID serStr (servers w) with
             | None => (Raise (KeyError serStr), w)
             | Some i =>
                 match open_error w serStr p with
                 | Some _ =>
                     (Raise (SerialConnectionError 1),
                      set_self (set_ser None (self w)) w)
                 | None =>
                     (Ok tt,
                      set_self
                        (set_ser (Some (mkConn i p (default_timeout w) None))
                                 (self w)) w)
                 end
             end
        else (Ok tt, w)
    | _, _, _ => (Ok tt, w)
    end.
Proof.
  unfold serverConnected, initSerial, default_timeout. run.
  destruct (ser (self w)); [reflexivity|].
  destruct (port (self w)) as [p|]; [|reflexivity].
  destruct (serNode (self w)) as [node|]; [|reflexivity].
  destruct (_matchSerial node serStr); [|reflexivity].
  destruct (proxy_ID serStr (servers w)); [|reflexivity].
  destruct (open_error w serStr p); reflexivity.
Qed.

Lemma proxy_ID_In (serStr : string) (l : list (Z * string)) (i : Z) :
  proxy_ID serStr l = Some i -> In (i, serStr) l.
Proof.
  unfold proxy_ID. destruct (find _ l) as [[i' nm]|] eqn:F; [|discriminate].
  intro H. injection H as <-. apply find_some in F. destruct F as [I E].
  apply String.eqb_eq in E. cbn [snd fst] in *. now subst nm.
Qed.


(** X7: when the serial server of a connected device goes away and comes
    back, the two notifications leave the server with a handle on the same
    port and with the same identity, but opened without the baudrate:
    [serverConnected] calls [initSerial] without it, whatever [baudrate]
    the server has and [initServer] used. *)
Theorem reconnection_drops_baudrate
        (w : World) (c : SerialConnection) (node serStr : string) :
  ser (self w) = Some c ->
  port (self w) = Some (conn_port c) ->
  serNode (self w) = Some node ->
  _matchSerial node serStr = true ->
  proxy_ID serStr (servers w) = Some (ID c) ->
  open_error w serStr (conn_port c) = None ->
  (serverDisconnected (ID c) serStr ;;; serverConnected (ID c) serStr) w
  = (Ok tt,
     set_self (set_ser (Some (mkConn (ID c) (conn_port c)
                                     (default_timeout w) None))
                       (self w)) w).
Proof.
  intros S P Nd Mt X O. unfold bind at 1.
  assert (D : serverDisconnected (ID c) serStr w
              = (Ok tt, set_self (set_ser None (self w)) w)).
  { unfold serverDisconnected. run. now rewrite S, Z.eqb_refl. }
  rewrite D, serverConnected_unfolded.
  unfold set_self, set_ser, default_timeout.
  cbn [self ser port serNode servers open_error timeout].
  now rewrite P, Nd, Mt, X, O.
Qed.

Lemma reconnection_drops_baudrate_witness :
  ser (self example_world) = Some example_connection
  /\ baudrate (self example_world) = Some 9600
  /\ (serverDisconnected 3 "lab Serial Server" ;;;
      serverConnected 3 "lab Serial Server") example_world
     = (Ok tt,
        set_self (set_ser (Some (mkConn 3 "COM3" (Some (1 # 10)%Q) None))
                          (self example_world)) example_world).
Proof.
  split; [reflexivity|]. split; [reflexivity|].
  apply (reconnection_drops_baudrate example_world example_connection
           "lab" "lab Serial Server"); reflexivity.
Defined.

End ConnectionManagerFacts.

(** ** The life of an HV500 server *)

Module HV500LifecycleFacts.
Import PyStr Registry RegistryFacts.
Import SerialDeviceServer SerialDeviceServerFacts ConnectionManagerFacts.
Import HV500Server HV500ServerFacts.

(** What reaches a running server: its start-up, the notifications of the
    manager, the settings a client calls, and the shutdown. *)
Inductive call : Type :=
| InitServer
| ServerConnected (ID : Z) (serStr : string)
| ServerDisconnected (ID : Z) (serStr : string)
| GetID
| GetVoltage (channel : Z)
| SetVoltage (channel : Z) (voltage : PyFloat.float)
| StopServer.

Section Calls.

Variable float_of_str : string -> result PyFloat.float.

(** The method a call runs. *)
Definition method (c : call) : M World unit :=
  match c with
  | InitServer => HV500Server.initServer
  | ServerConnected id serStr => serverConnected id serStr
  | ServerDisconnected id serStr => serverDisconnected id serStr
  | GetID => get_ID ;;; ret tt
  | GetVoltage channel => get_voltage float_of_str channel ;;; ret tt
  | SetVoltage channel voltage => set_voltage channel voltage
  | StopServer => stopServer
  end.

(** What a notification reports has happened at the manager by the time
    it arrives: the server that connected is on the manager's list, the
    server that went away is off it. *)
Definition arrives (c : call) (w : World) : World :=
  match c with
  | ServerConnected id serStr =>
      mkWorld (self w) (registry w) (servers w ++ [(id, serStr)])
              (open_error w) (wire w)
  | ServerDisconnected id _ =>
      mkWorld (self w) (registry w)
              (filter (fun j => negb (fst j =? id)) (servers w))
              (open_error w) (wire w)
  | _ => w
  end.

Definition perform (c : call) : M World unit :=
  modify (arrives c) ;;; method c.

(** The world after a sequence of calls: a call that raises leaves the
    server running, with the changes made up to the exception. *)
Definition after (calls : list call) (w : World) : World :=
  fold_left (fun w c => snd (perform c w)) calls w.

(** A handle, when one is held, is on the port recorded, to a listed
    serial server of the node. *)
Definition handle_sound (w : World) : Prop :=
  forall c,
    ser (self w) = Some c ->
    port (self w) = Some (conn_port c)
    /\ exists node serStr,
         serNode (self w) = Some node
         /\ In (ID c, serStr) (servers w)
         /\ _matchSerial node serStr = true.

(** What the method of one call can change. *)
Record step (w w' : World) : Prop := mkStep {
  step_servers : servers w' = servers w;
  step_serNode : serNode (self w') = serNode (self w);
  step_trace : exists evs, trace (wire w') = (trace (wire w) ++ evs)%list;
  step_silent : ser (self w) = None -> wire w' = wire w;
  step_handle :
    forall c,
      ser (self w') = Some c ->
      (ser (self w) = Some c /\ port (self w') = port (self w))
      \/ (port (self w') = Some (conn_port c)
          /\ exists node serStr,
               serNode (self w) = Some node
               /\ In (ID c, serStr) (servers w)
               /\ _matchSerial node serStr = true)
}.

Lemma step_refl (w : World) : step w w.
Proof.
  split; auto. exists []. now rewrite app_nil_r.
Qed.

(** A change of the attributes that keeps the node, the port and the
    handle. *)
Lemma step_attrs (w w' : World) (s : Server) :
  step w w' ->
  serNode s = serNode (self w') -> port s = port (self w') ->
  ser s = ser (self w') ->
  step w (set_self s w').
Proof.
  intros [A B C D E] Hn Hp Hs.
  split; cbn [set_self servers self wire]; try assumption.
  - congruence.
  - intros c H. rewrite Hs in H. rewrite Hp. auto.
Qed.

Lemma step_wire (w : World) (x : Wire) (evs : list io_event) :
  ser (self w) <> None ->
  trace x = (trace (wire w) ++ evs)%list ->
  step w (set_wire x w).
Proof.
  intros S T. split; cbn [set_wire servers self wire]; auto.
  - now exists evs.
  - intro N. now elim S.
Qed.

Lemma step_initServer (w : World) :
  step w (snd (SerialDeviceServer.initServer w)).
Proof.
  destruct (truthy (regKey (self w)) && truthy (serNode (self w))) eqn:T.
  - apply andb_true_iff in T. destruct T as [Tk Tn].
    destruct (truthy_Some _ Tn) as (node & Hn & Ne).
    rewrite (initServer_unfolded w node Tk Hn Ne).
    destruct (getPortFromReg _ _ _) as [[p|e] r'] eqn:G; cbn [snd].
    + split; cbn [settled servers self serNode wire ser port]; auto.
      * exists []. now rewrite app_nil_r.
      * intros c H.
        destruct (handle_for_sound w node p c H)
          as (Cp & _ & _ & serStr & I & M & _).
        right. split; [now rewrite Cp|]. now exists node, serStr.
    + split; cbn [set_registry servers self wire]; auto.
      exists []. now rewrite app_nil_r.
  - rewrite (initServer_unconfigured w T). apply step_refl.
Qed.

Lemma step_method (c : call) (w : World) : step w (snd (method c w)).
Proof.
  destruct c as [|id serStr|id serStr| |channel|channel voltage|];
    cbn [method].
  - unfold HV500Server.initServer. unfold bind at 1.
    assert (S := step_initServer w).
    destruct (SerialDeviceServer.initServer w) as [[[]|e] w1];
      cbn [snd] in *; [|assumption].
    run. cbn [fst snd set_self self set_listeners regKey].
    destruct (regKey (self w1)) as [k|]; cbn [snd].
    + now apply (step_attrs w w1 (set_IDN (last_n 5 k)
                                          (set_listeners [] (self w1)))).
    + now apply (step_attrs w w1 (set_listeners [] (self w1))).
  - rewrite serverConnected_unfolded.
    destruct (ser (self w)) as [c|] eqn:S; [apply step_refl|].
    destruct (port (self w)) as [p|] eqn:P; [|apply step_refl].
    destruct (serNode (self w)) as [node|] eqn:Nd; [|apply step_refl].
    destruct (_matchSerial node serStr) eqn:Mt; [|apply step_refl].
    destruct (proxy_ID serStr (servers w)) as [i|] eqn:X; [|apply step_refl].
    destruct (open_error w serStr p) as [c|] eqn:O; cbn [snd].
    + split; cbn [set_self servers self wire set_ser serNode ser]; auto.
      * exists []. now rewrite app_nil_r.
      * discriminate.
    + split; cbn [set_self servers self wire set_ser serNode ser port]; auto.
      * exists []. now rewrite app_nil_r.
      * intros c H. injection H as <-. right. cbn [conn_port ID].
        split; [assumption|]. exists node, serStr.
        repeat split; auto. now apply proxy_ID_In.
  - unfold serverDisconnected. run.
    destruct (ser (self w)) as [c|] eqn:S; [|apply step_refl].
    destruct (ID c =? id); [|apply step_refl]. cbn [snd].
    split; cbn [set_self servers self wire set_ser serNode ser]; auto.
    + exists []. now rewrite app_nil_r.
    + discriminate.
  - unfold get_ID, ser_write, ser_read_line. run.
    destruct (ser (self w)) as [c|] eqn:S; [|apply step_refl].
    unfold set_wire. cbn [self wire trace rx]. rewrite S.
    cbn [snd self wire trace rx].
    split; cbn [servers self wire trace]; auto; [|congruence].
    eexists. rewrite <- app_assoc. reflexivity.
  - unfold get_voltage, ser_write, ser_read_line. run.
    destruct (ser (self w)) as [c|] eqn:S; [|apply step_refl].
    unfold set_wire. cbn [self wire trace rx]. rewrite S.
    cbn [snd self wire trace rx].
    destruct (float_of_str _); cbn [snd];
      (split; cbn [servers self wire trace]; auto; [|congruence];
       eexists; rewrite <- app_assoc; reflexivity).
  - unfold set_voltage, ser_write. run.
    destruct (_ || _); [apply step_refl|].
    destruct (ser (self w)) as [c|] eqn:S; [|apply step_refl].
    cbn [snd]. eapply step_wire; [congruence | reflexivity].
  - unfold stopServer. run.
    destruct (ser (self w)) as [c|] eqn:S; [|apply step_refl].
    cbn [snd]. eapply step_wire; [congruence | reflexivity].
Qed.

Lemma perform_unfolded (c : call) (w : World) :
  snd (perform c w) = snd (method c (arrives c w)).
Proof.
  unfold perform. run. now destruct (method c (arrives c w)) as [[] ?].
Qed.

Lemma step_sound (w w' : World) :
  step w w' -> handle_sound w -> handle_sound w'.
Proof.
  intros [A B _ _ E] H h Hh.
  destruct (E h Hh) as [[S P]|[P (node & serStr & N & I & M)]].
  - destruct (H h S) as (P' & node & serStr & N & I & M).
    split; [congruence|]. exists node, serStr. rewrite A, B. auto.
  - split; [assumption|]. exists node, serStr. rewrite A, B. auto.
Qed.

(** A longer list keeps a handle sound. *)
Lemma handle_sound_listed (w : World) (l : list (Z * string)) :
  handle_sound w ->
  (forall j, In j (servers w) -> In j l) ->
  handle_sound (mkWorld (self w) (registry w) l (open_error w) (wire w)).
Proof.
  intros H Sub c C. cbn [self servers] in *.
  destruct (H c C) as (P & node & serStr & N & I & M).
  split; [exact P|]. exists node, serStr. auto.
Qed.

Lemma perform_sound (c : call) (w : World) :
  handle_sound w -> handle_sound (snd (perform c w)).
Proof.
  intro H. rewrite perform_unfolded.
  destruct c as [|id serStr|id serStr| |channel|channel voltage|];
    try (apply (step_sound _ _ (step_method _ _)); exact H).
  - apply (step_sound _ _ (step_method _ _)). cbn [arrives].
    apply handle_sound_listed; [exact H|].
    intros j I. apply in_or_app. now left.
  - cbn [arrives method]. unfold serverDisconnected. run. cbn [self ser].
    destruct (ser (self w)) as [h|] eqn:S.
    + destruct (ID h =? id) eqn:E; cbn [snd].
      * intros c C. discriminate C.
      * intros c C. cbn [self servers] in *. rewrite S in C.
        injection C as <-.
        destruct (H h S) as (P & node & nm & N & I & M).
        split; [exact P|]. exists node, nm. repeat split; auto.
        apply filter_In. split; [exact I|]. cbn [fst]. now rewrite E.
    + cbn [snd]. intros c C. cbn [self] in C. congruence.
Qed.

(** X8: through every sequence of calls a server receives, a handle it
    holds is on the port it has recorded and has the identity of a listed
    serial server whose name matches its node. *)
Theorem handle_stays_sound (calls : list call) (w : World) :
  handle_sound w -> handle_sound (after calls w).
Proof.
  revert w. induction calls as [|c calls IH]; intros w H; [exact H|].
  cbn [after fold_left]. apply IH. now apply perform_sound.
Qed.

(** No serial server of the node [node] is heard of in a call. *)
Definition brings_no_match (node : string) (c : call) : Prop :=
  match c with
  | ServerConnected _ serStr => _matchSerial node serStr = false
  | _ => True
  end.

(** A server without a handle and without a serial server for its
    node. *)
Definition alone (node : string) (w : World) : Prop :=
  ser (self w) = None
  /\ serNode (self w) = Some node
  /\ forall j, In j (servers w) -> _matchSerial node (snd j) = false.

Lemma arrives_alone (node : string) (c : call) (w : World) :
  brings_no_match node c -> alone node w -> alone node (arrives c w).
Proof.
  intros B (S & N & F).
  destruct c as [|id serStr|id serStr| |channel|channel voltage|];
    try (now repeat split).
  - repeat split; try assumption. cbn [arrives servers].
    intros j I. apply in_app_or in I. destruct I as [I|[<-|[]]]; auto.
  - repeat split; try assumption. cbn [arrives servers].
    intros j I. apply filter_In in I. destruct I as [I _]. auto.
Qed.

Lemma method_alone (node : string) (c : call) (w : World) :
  alone node w ->
  alone node (snd (method c w)) /\ wire (snd (method c w)) = wire w.
Proof.
  intros (S & N & F). destruct (step_method c w) as [A B _ D E].
  assert (S' : ser (self (snd (method c w))) = None).
  { destruct (ser (self (snd (method c w)))) as [h|] eqn:Hh;
      [|reflexivity].
    destruct (E h eq_refl) as [[S1 _]|[_ (nd & serStr & N' & I & M)]].
    - congruence.
    - rewrite N in N'. injection N' as <-.
      assert (M' := F _ I). cbn [snd] in M'. congruence. }
  split; [|exact (D S)]. repeat split.
  - exact S'.
  - congruence.
  - now rewrite A.
Qed.

(** X9: a server that holds no handle stays silent as long as no serial
    server of its node is there: when no listed server matches the node
    and none that connects later does, then whatever calls it receives
    it never gets a handle and nothing is written to, read from or
    closed on the serial line. *)
Theorem silent_without_serial_server
        (calls : list call) (w : World) (node : string) :
  ser (self w) = None ->
  serNode (self w) = Some node ->
  (forall j, In j (servers w) -> _matchSerial node (snd j) = false) ->
  Forall (brings_no_match node) calls ->
  ser (self (after calls w)) = None
  /\ wire (after calls w) = wire w.
Proof.
  intros S N F B.
  assert (A : alone node w) by now repeat split.
  clear S N F. revert w A.
  induction B as [|c calls Bc _ IH]; intros w A.
  - split; [apply A | reflexivity].
  - change (after (c :: calls) w) with (after calls (snd (perform c w))).
    rewrite perform_unfolded.
    destruct (method_alone node c (arrives c w) (arrives_alone node c w Bc A))
      as [A' W].
    destruct (IH _ A') as [R1 R2]. split; [exact R1|].
    rewrite R2, W. now destruct c.
Qed.

End Calls.

Lemma handle_stays_sound_witness :
  let w := startup "lab" example_registry [(3, "lab Serial Server")]
                   (fun _ _ => None) in
  let calls := [InitServer; SetVoltage 1 (PyFloat.of_int 10);
                ServerDisconnected 3 "lab Serial Server";
                ServerConnected 3 "lab Serial Server"; GetVoltage 1] in
  handle_sound w
  /\ ser (self (after float_of_reply calls w))
     = Some (mkConn 3 "COM3" (Some (1 # 10)%Q) None)
  /\ handle_sound (after float_of_reply calls w).
Proof.
  cbv zeta.
  assert (H : handle_sound (startup "lab" example_registry
                                    [(3, "lab Serial Server")]
                                    (fun _ _ => None))).
  { intros c C. discriminate C. }
  split; [exact H|]. split; [reflexivity|].
  apply (handle_stays_sound float_of_reply). exact H.
Defined.

(** A serial server that starts after the device server is found by
    [serverConnected]. *)
Example late_serial_server :
  let w := startup "lab" example_registry [] (fun _ _ => None) in
  ser (self (after float_of_reply [InitServer] w)) = None
  /\ ser (self (after float_of_reply
                      [InitServer; ServerConnected 3 "lab Serial Server"] w))
     = Some (mkConn 3 "COM3" (Some (1 # 10)%Q) None).
Proof. cbv zeta. split; reflexivity. Qed.

Lemma silent_without_serial_server_witness :
  let w := startup "lab" example_registry [(5, "other Serial Server")]
                   (fun _ _ => None) in
  let calls := [InitServer; ServerConnected 6 "shop Serial Server";
                SetVoltage 1 (PyFloat.of_int 10); GetID;
                ServerDisconnected 5 "other Serial Server"; StopServer] in
  ser (self w) = None
  /\ serNode (self w) = Some "lab"
  /\ Forall (brings_no_match "lab") calls
  /\ ser (self (after float_of_reply calls w)) = None
  /\ wire (after float_of_reply calls w) = wire w.
Proof.
  cbv zeta. split; [reflexivity|]. split; [reflexivity|].
  assert (B : Forall (brings_no_match "lab")
                [InitServer; ServerConnected 6 "shop Serial Server";
                 SetVoltage 1 (PyFloat.of_int 10); GetID;
                 ServerDisconnected 5 "other Serial Server"; StopServer]).
  { repeat constructor. }
  split; [exact B|].
  apply (silent_without_serial_server float_of_reply
           [InitServer; ServerConnected 6 "shop Serial Server";
            SetVoltage 1 (PyFloat.of_int 10); GetID;
            ServerDisconnected 5 "other Serial Server"; StopServer]
           (startup "lab" example_registry [(5, "other Serial Server")]
                    (fun _ _ => None)) "lab");
    [reflexivity | reflexivity | | exact B].
  intros j [<-|[]]. reflexivity.
Defined.

End HV500LifecycleFacts.

(** ** Selecting a port at the console *)

Module ConsoleFacts.
Import PyStr Registry RegistryFacts.
Import SerialDeviceServer SerialDeviceServerFacts ConnectionManagerFacts.

(** With an empty dictionary no selection is ever in it. *)
Lemma select_loop_empty (lines : list string) :
  select_loop [] lines = (ret AwaitingInput, []).
Proof. induction lines as [|l lines IH]; [reflexivity | exact IH]. Qed.

Lemma selectPortFromReg_unfolded (c : Console) :
  selectPortFromReg c
  = match ports (con_registry c) with
    | None =>
        (if nodir_code (con_registry c) =? 13 then Raise (PortRegError 0)
         else Raise (Error (nodir_code (con_registry c))), c)
    | Some d =>
        match keys d with
        | [] => (Raise (PortRegError 2),
                 mkConsole (at_ports (con_registry c)) (stdin c))
        | _ :: _ => (Ok AwaitingInput,
                     mkConsole (at_ports (con_registry c)) [])
        end
    end.
Proof.
  unfold selectPortFromReg, on_con_registry, map_statement. run.
  rewrite cd_ports. destruct (ports (con_registry c)) as [d|] eqn:H.
  - unfold dir. fold (at_ports (con_registry c)).
    cbn [con_registry stdin]. rewrite dir_at_ports, H. cbn [snd].
    destruct (keys d) as [|k ks]; [reflexivity|]. cbn [map].
    cbn [con_registry stdin]. rewrite select_loop_empty. reflexivity.
  - cbn [is_Error code_of].
    destruct (nodir_code (con_registry c) =? 13); destruct c; reflexivity.
Qed.

(** X10: [selectPortFromReg] never returns a port. The dictionary of
    choices is filled by a [map] whose result is dropped, so it stays
    empty: with keys in [Ports] the loop takes every line typed at the
    console, accepts none, and waits for more, the cursor staying in
    [Ports]. With no key in [Ports] the call raises [PortRegError(2)],
    and without a [Ports] directory [PortRegError(0)] exactly when the
    registry's code for a missing directory is 13. *)
Theorem selectPortFromReg_never_returns (c : Console) :
  (forall p, fst (selectPortFromReg c) <> Ok (Returned p))
  /\ (forall d,
        ports (con_registry c) = Some d ->
        keys d <> [] ->
        selectPortFromReg c
        = (Ok AwaitingInput, mkConsole (at_ports (con_registry c)) []))
  /\ (forall d,
        ports (con_registry c) = Some d ->
        keys d = [] ->
        fst (selectPortFromReg c) = Raise (PortRegError 2))
  /\ (ports (con_registry c) = None ->
      (fst (selectPortFromReg c) = Raise (PortRegError 0)
       <-> nodir_code (con_registry c) = 13)
      /\ snd (selectPortFromReg c) = c).
Proof.
  rewrite selectPortFromReg_unfolded.
  destruct (ports (con_registry c)) as [d|] eqn:H.
  - split; [|split; [|split]].
    + intro p. destruct (keys d); discriminate.
    + intros d' E N. injection E as <-.
      destruct (keys d); [now elim N | reflexivity].
    + intros d' E N. injection E as <-. now rewrite N.
    + discriminate.
  - split; [|split; [|split]]; try discriminate.
    + intro p. destruct (_ =? 13); discriminate.
    + intros _. split; [|reflexivity].
      destruct (nodir_code (con_registry c) =? 13) eqn:C; cbn [fst].
      * apply Z.eqb_eq in C. tauto.
      * apply Z.eqb_neq in C. split; [discriminate | tauto].
Qed.

(** X11: the two lookups do not agree on the code by which the registry
    reports a missing directory: [getPortFromReg] turns code 17 into
    [PortRegError(0)], [selectPortFromReg] code 13. On a registry without
    a [Ports] directory they never both report [PortRegError(0)]: one
    of them lets the registry's own error through. *)
Theorem NotConfigured_codes_disagree
        (c : Console) (self_name regKey : option string) :
  ports (con_registry c) = None ->
  (fst (getPortFromReg self_name regKey (con_registry c))
   = Raise (PortRegError 0)
   -> fst (selectPortFromReg c)
      = Raise (Error (nodir_code (con_registry c))))
  /\ (fst (selectPortFromReg c) = Raise (PortRegError 0)
      -> fst (getPortFromReg self_name regKey (con_registry c))
         = Raise (Error (nodir_code (con_registry c)))).
Proof.
  intro H. rewrite selectPortFromReg_unfolded, H.
  rewrite (getPortFromReg_no_ports _ self_name regKey H). cbn [fst].
  destruct (nodir_code (con_registry c) =? 17) eqn:A;
    destruct (nodir_code (con_registry c) =? 13) eqn:B;
    split; intro E; try discriminate; try reflexivity;
    apply Z.eqb_eq in A, B; congruence.
Qed.

Lemma NotConfigured_codes_disagree_witness :
  let c := mkConsole unconfigured_registry ["0"] in
  ports (con_registry c) = None
  /\ fst (getPortFromReg (Some "hv500_server") (Some "HV500_HV264")
                         (con_registry c))
     = Raise (PortRegError 0)
  /\ fst (selectPortFromReg c) = Raise (Error 17).
Proof.
  cbv zeta. split; [reflexivity|]. split; [reflexivity|].
  apply (proj1 (NotConfigured_codes_disagree
                  (mkConsole unconfigured_registry ["0"])
                  (Some "hv500_server") (Some "HV500_HV264") eq_refl)).
  reflexivity.
Defined.

End ConsoleFacts.

(** ** The TCP server, further *)

Module TCPConnectionFacts.
Import PyStr PyStrFacts Registry RegistryFacts.
Import SerialDeviceServerFacts ConnectionManagerFacts.
Import TCPServer TCPServerFacts.

Definition no_Ports : exn :=
  Exception_ "Cannot find 'Ports' directory in registry.".
Definition no_key (key : string) : exn :=
  Exception_ ("Cannot find key '" ++ key ++ "' in 'Ports' directory.").

Lemma existsb_assoc_none (key : string) (l : list (string * string)) :
  existsb (String.eqb key) (map fst l) = false -> assoc key l = None.
Proof.
  induction l as [|[k v] l IH]; cbn [map fst existsb assoc]; [reflexivity|].
  rewrite (String.eqb_sym key k).
  destruct (String.eqb k key); [discriminate | exact IH].
Qed.

Lemma get_address_unfolded (r : Registry.t) (key : string) :
  fst (get_address key r)
  = match ports r with
    | None => Raise no_Ports
    | Some d => match assoc key (keys d) with
                | Some v => Ok v
                | None => Raise (no_key key)
                end
    end.
Proof.
  unfold get_address. run. rewrite cd_none, cd_ports.
  destruct (ports r) as [d|] eqn:H; [|reflexivity].
  unfold dir, get. fold (at_ports r). rewrite dir_at_ports, H. cbn [snd].
  destruct (existsb _ _) eqn:X.
  - destruct (existsb_assoc key (keys d) X) as [v Hv].
    rewrite dir_at_ports, H, Hv. reflexivity.
  - now rewrite (existsb_assoc_none key (keys d) X).
Qed.

(** X12: [get_address] returns the value stored in [Ports] under exactly
    the key it is given (a key that only contains it is no match, unlike
    in [getPortFromReg]), and raises a plain [Exception] naming the key
    when [Ports] has no such key and one naming the directory when there
    is no [Ports]. *)
Theorem get_address_exact_key (r : Registry.t) (key : string) :
  (forall d v, ports r = Some d -> assoc key (keys d) = Some v ->
               fst (get_address key r) = Ok v)
  /\ (forall d, ports r = Some d -> ~ In key (map fst (keys d)) ->
                fst (get_address key r) = Raise (no_key key))
  /\ (ports r = None -> fst (get_address key r) = Raise no_Ports)
  /\ (forall v, fst (get_address key r) = Ok v ->
                exists d, ports r = Some d /\ In (key, v) (keys d)).
Proof.
  rewrite get_address_unfolded. split; [|split; [|split]].
  - intros d v -> ->. reflexivity.
  - intros d -> N. destruct (assoc key (keys d)) as [v|] eqn:A;
      [|reflexivity].
    elim N. apply assoc_In in A. apply (in_map fst) in A. exact A.
  - intros ->. reflexivity.
  - intros v. destruct (ports r) as [d|]; [|discriminate].
    destruct (assoc key (keys d)) as [v'|] eqn:A; [|discriminate].
    intro E. injection E as <-. exists d. split; [reflexivity|].
    now apply assoc_In.
Qed.

Lemma get_address_of_restores_cursor (r : Registry.t) (key : option string) :
  wf_cursor r -> snd (get_address_of key r) = r.
Proof.
  intro W. destruct key as [k|]; [now apply get_address_restores_cursor|].
  unfold get_address_of. run. rewrite cd_none, cd_ports.
  destruct (ports r) as [d|] eqn:H; [|reflexivity].
  unfold dir. fold (at_ports r). rewrite dir_at_ports, H. cbn [snd].
  unfold at_ports. now rewrite cd_back.
Qed.




(** X14: on every path through [initServer] of the TCP server, failures
    included, the cursor of the registry is put back: from a cursor the
    registry handed out, the registry is afterwards as before. *)
Theorem initServer_leaves_registry (w : World) :
  wf_cursor (registry w) -> registry (snd (initServer w)) = registry w.
Proof.
  intro W.
  assert (R := get_address_of_restores_cursor (registry w)
                 (regKey (self w)) W).
  destruct w as [[k po to so] r ce].
  cbn [self regKey registry port timeout connect_error socket] in *.
  unfold initServer, on_registry, on_self. run.
  cbv beta iota delta [self regKey registry port timeout connect_error
                       socket set_socket].
  destruct (get_address_of k r) as [[a|e] r'];
    cbn [fst snd] in *; [|assumption].
  destruct po as [p|]; [|assumption].
  destruct (ce a p); assumption.
Qed.

Definition example_server : World :=
  mkWorld (mkServer (Some "scope") (Some 5025) 1 None)
          (Registry.mk (Dir [("Ports", Dir [] [("scope", "192.168.1.7")])] [])
                       [""] 17 0)
          (fun _ _ => None).

Lemma example_cursor : wf_cursor (registry example_server).
Proof.
  exists []. split; [reflexivity|]. split; [constructor | discriminate].
Qed.

Lemma initServer_leaves_registry_witness :
  wf_cursor (registry example_server)
  /\ fst (initServer example_server) = Ok tt
  /\ registry (snd (initServer example_server)) = registry example_server.
Proof.
  split; [exact example_cursor|]. split; [reflexivity|].
  apply (initServer_leaves_registry example_server example_cursor).
Defined.

(** *** Reading a line that does not come *)








End TCPConnectionFacts.

(** ** Port resolution, in both base classes *)

Module PortResolutionFacts.
Import PyStr Registry RegistryFacts.
Import SerialDeviceServer SerialDeviceServerFacts.
Import ConnectionManagerFacts TCPConnectionFacts.

(** A registry without a [Ports] directory that reports a missing
    directory with the code 13. *)
Definition unconfigured_registry_13 : Registry.t :=
  Registry.mk (Dir [("Servers", Dir [] [])] []) [""] 13 0.

(** C6 (as stated, refuted): on the keys ["HV500_HV264"; "OTHER_KEY"]
    and the substring "HV500", [get_address] of the TCP server finds
    nothing, as it looks for a key equal to its argument; and without a
    [Ports] directory [getPortFromReg] raises [PortRegError(0)] only for
    the registry code 17: with the code 13 the registry's own error comes
    out. *)
Lemma port_resolution_counterexample :
  map fst (keys (Dir [] [("HV500_HV264", "COM3"); ("OTHER_KEY", "COM9")]))
  = ["HV500_HV264"; "OTHER_KEY"]
  /\ ports example_registry
     = Some (Dir [] [("HV500_HV264", "COM3"); ("OTHER_KEY", "COM9")])
  /\ fst (TCPServer.get_address "HV500" example_registry)
     = Raise (no_key "HV500")
  /\ ports unconfigured_registry_13 = None
  /\ fst (getPortFromReg (Some "hv500_server") (Some "HV500")
                         unconfigured_registry_13)
     = Raise (Error 13).
Proof. repeat split. Qed.

(** C6 (amended): port resolution looks in the directory [Ports] at the
    registry root. [getPortFromReg] of the serial device server returns
    the value stored under the first listed key that contains the lookup
    substring; it fails with [PortRegError(1)] (key not found) when no
    key of [Ports] contains the substring, and, when there is no [Ports]
    directory, with [PortRegError(0)] (registry not configured) if the
    registry signals that with the error code 17 and with the registry's
    own error otherwise. [get_address] of the TCP server looks the key up
    as it is, not as a substring: it returns the value stored under the
    key equal to its argument, and raises a plain [Exception] that names
    the key when [Ports] has no such key and one that names the directory
    when there is no [Ports]. *)
Theorem port_resolution
        (r : Registry.t) (self_name regKey : option string) (key : string) :
  lookup_substring self_name regKey = Some key ->
  (forall d found,
      ports r = Some d ->
      find (str_in key) (map fst (keys d)) = Some found ->
      exists v, assoc found (keys d) = Some v
                /\ fst (getPortFromReg self_name regKey r) = Ok v)
  /\ (forall d,
         ports r = Some d ->
         find (str_in key) (map fst (keys d)) = None ->
         fst (getPortFromReg self_name regKey r) = Raise (PortRegError 1))
  /\ (ports r = None ->
      fst (getPortFromReg self_name regKey r)
      = if nodir_code r =? 17 then Raise (PortRegError 0)
        else Raise (Error (nodir_code r)))
  /\ (forall d v,
         ports r = Some d -> assoc key (keys d) = Some v ->
         fst (TCPServer.get_address key r) = Ok v)
  /\ (forall d,
         ports r = Some d -> assoc key (keys d) = None ->
         fst (TCPServer.get_address key r) = Raise (no_key key))
  /\ (ports r = None -> fst (TCPServer.get_address key r) = Raise no_Ports).
Proof.
  intro L. split; [|split; [|split; [|split; [|split]]]].
  - intros d found H F.
    destruct (getPortFromReg_match r _ _ d key found H L F) as (v & Hv & E).
    exists v. now rewrite E.
  - intros d H F. now rewrite (getPortFromReg_no_match r _ _ d key H L F).
  - intro H. now rewrite (getPortFromReg_no_ports r _ _ H).
  - intros d v H A. now rewrite get_address_unfolded, H, A.
  - intros d H A. now rewrite get_address_unfolded, H, A.
  - intro H. now rewrite get_address_unfolded, H.
Qed.

Lemma port_resolution_witness :
  lookup_substring (Some "hv500_server") (Some "HV500") = Some "HV500"
  /\ (exists v,
        assoc "HV500_HV264" [("HV500_HV264", "COM3"); ("OTHER_KEY", "COM9")]
        = Some v
        /\ fst (getPortFromReg (Some "hv500_server") (Some "HV500")
                               example_registry) = Ok v)
  /\ fst (TCPServer.get_address "HV500" example_registry)
     = Raise (no_key "HV500").
Proof.
  split; [reflexivity|].
  destruct (port_resolution example_registry (Some "hv500_server")
              (Some "HV500") "HV500" eq_refl) as (A & _ & _ & _ & B & _).
  split.
  - apply (A (Dir [] [("HV500_HV264", "COM3"); ("OTHER_KEY", "COM9")])
             "HV500_HV264"); reflexivity.
  - apply (B (Dir [] [("HV500_HV264", "COM3"); ("OTHER_KEY", "COM9")]));
      reflexivity.
Defined.

End PortResolutionFacts.

(** ** The HV500 commands, further *)

Module HV500CommandFacts.
Import PyStr PyStrFacts.
Import SerialDeviceServer SerialDeviceServerFacts ConnectionManagerFacts.
Import PyFloat HV500Server HV500Device HV500ServerFacts PyFloatFacts.

(** *** Channel codes *)

(** The decimal numeral of a positive number has no leading zero. *)
Lemma to_uint_no_leading_zero (p : positive) (d : Decimal.uint) :
  Pos.to_uint p <> Decimal.D0 d.
Proof.
  intro E.
  assert (U := DecimalPos.Unsigned.to_of (Pos.to_uint p)).
  rewrite DecimalPos.Unsigned.of_to in U. cbn [N.to_uint] in U.
  rewrite E, DecimalFacts.unorm_D0 in U. unfold Decimal.unorm in U.
  destruct (Decimal.nzhead d) eqn:Z; try discriminate.
  - injection U as ->. exact (DecimalPos.Unsigned.to_uint_nonzero p E).
  - exact (DecimalFacts.nzhead_nonzero d _ Z).
Qed.

Lemma to_int_proper (z : Z) :
  Z.to_int z <> Decimal.Pos Decimal.Nil
  /\ Z.to_int z <> Decimal.Neg Decimal.Nil.
Proof.
  destruct z as [|p|p]; cbn [Z.to_int]; split; try discriminate;
    intro E; injection E as E;
    exact (DecimalPos.Unsigned.to_uint_nonnil p E).
Qed.

(** [str] is one-to-one on the integers. *)
Lemma str_of_int_inj (a b : Z) : str_of_int a = str_of_int b -> a = b.
Proof.
  unfold str_of_int. intro H. apply DecimalZ.to_int_inj.
  destruct (to_int_proper a) as [A1 A2]. destruct (to_int_proper b) as [B1 B2].
  assert (Ea := NilZero.isi _ A1 A2). assert (Eb := NilZero.isi _ B1 B2).
  rewrite H in Ea. congruence.
Qed.

(** Only zero is written with a leading zero. *)
Lemma str_of_int_leading_zero (z : Z) (s : string) :
  str_of_int z = String "0" s -> z = 0.
Proof.
  destruct z as [|p|p]; [reflexivity| |discriminate].
  unfold str_of_int. cbn [Z.to_int NilZero.string_of_int]. intro H.
  destruct (Pos.to_uint p) eqn:E; try discriminate.
  - elim (DecimalPos.Unsigned.to_uint_nonnil p E).
  - elim (to_uint_no_leading_zero p _ E).
Qed.

Lemma channel_to_str_two_chars :
  forallb (fun n => Nat.eqb (String.length (channel_to_str (Z.of_nat n))) 2)
          (seq 0 100) = true.
Proof. vm_compute. reflexivity. Qed.

(** X16: [channel_to_str] never gives two channels the same code,
    whatever integers they are, so a command always names the channel it
    was called with; for the channels 0 to 99 the code has two
    characters. *)
Theorem channel_to_str_injective :
  (forall a b : Z, channel_to_str a = channel_to_str b -> a = b)
  /\ (forall c : Z, 0 <= c <= 99 ->
                    String.length (channel_to_str c) = 2%nat).
Proof.
  split.
  - intros a b. unfold channel_to_str.
    destruct (Nat.ltb 1 (String.length (str_of_int a))) eqn:La;
      destruct (Nat.ltb 1 (String.length (str_of_int b))) eqn:Lb;
      intro H.
    + now apply str_of_int_inj.
    + cbn [String.append] in H.
      assert (Z := str_of_int_leading_zero a _ H). subst a. discriminate.
    + cbn [String.append] in H. symmetry in H.
      assert (Z := str_of_int_leading_zero b _ H). subst b. discriminate.
    + cbn [String.append] in H. injection H as H. now apply str_of_int_inj.
  - intros c H.
    assert (F := proj1 (forallb_forall _ _) channel_to_str_two_chars
                       (Z.to_nat c)).
    cbv beta in F. rewrite Z2Nat.id in F by lia.
    apply Nat.eqb_eq, F, in_seq. lia.
Qed.

(** *** The bound, as a condition on the number *)

Lemma canonical_full (m : positive) (e : Z) :
  bounded prec emax m e = true -> -1074 < e ->
  Zpos (digits2_pos m) = 53.
Proof.
  unfold bounded, canonical_mantissa. fold fexp64. rewrite fexp64_eq.
  intros H L. apply andb_true_iff in H. destruct H as [H _].
  apply Z.eqb_eq in H. lia.
Qed.

Lemma magnitude_above (m : positive) (e : Z) :
  bounded prec emax m e = true ->
  SFltb f300 (S754_finite false m e) = true ->
  (300 < inject_Z (Zpos m) * p2 e)%Q.
Proof.
  intros V H. unfold SFltb, SFcompare, f300 in H.
  destruct (Z.compare_spec (-44) e) as [C|C|C]; [| | discriminate].
  - subst e. rewrite Pos.compare_cont_spec in H. cbn [Pos.switch_Eq] in H.
    assert (L : 5277655813324800 < Zpos m).
    { destruct (5277655813324800 ?= m)%positive eqn:C; try discriminate.
      apply Pos.compare_lt_iff in C. apply Pos2Z.pos_lt_pos in C. exact C. }
    apply (scale_lt _ _ (-44)) in L.
    assert (T : (inject_Z 5277655813324800 * p2 (-44) == 300)%Q)
      by reflexivity.
    lra.
  - assert (D := canonical_full m e V ltac:(lia)).
    destruct (value_digits (Zpos m) e ltac:(lia)) as [L _].
    change (Zdigits2 (Zpos m)) with (Zpos (digits2_pos m)) in L.
    rewrite D in L.
    assert (P : (p2 9 <= p2 (53 + e - 1))%Q) by (apply p2_le; lia).
    assert (T : (p2 9 == 512)%Q) by reflexivity. lra.
Qed.

Lemma exceeds_VLIM_value (v : float) :
  valid_binary prec emax v = true ->
  (exceeds_VLIM v = true
   <-> match v with
       | S754_nan => False
       | S754_infinity _ => True
       | _ => (F2Q v < -300 \/ 300 < F2Q v)%Q
       end).
Proof.
  intro V. split.
  - intro H. destruct v as [s|s| |s m e]; try exact I.
    + destruct s; discriminate.
    + discriminate.
    + assert (A := abs_above_bound 5277655813324800 (-44)
                     (S754_finite s m e)).
      cbv zeta in A.
      change (SFltb f300 (SFabs (S754_finite s m e))
              = exceeds_VLIM (S754_finite s m e)) in A.
      rewrite H in A. cbn [SFabs] in A. cbn [valid_binary] in V.
      assert (M := magnitude_above m e V A).
      rewrite F2Q_finite, cond_Zopp_value. destruct s; [left | right]; lra.
  - intro H. destruct (exceeds_VLIM v) eqn:E; [reflexivity|exfalso].
    destruct v as [s|s| |s m e]; try (destruct s; discriminate);
      try contradiction.
    + cbn [F2Q] in H. lra.
    + destruct (within_bounds_value (S754_finite s m e) V ltac:(discriminate)
                                    E) as [_ R].
      lra.
Qed.

Lemma set_voltage_raises (channel : Z) (v : float) (w : World) :
  fst (set_voltage channel v w) = Raise out_of_bounds
  <-> exceeds_VLIM v = true.
Proof.
  unfold set_voltage, ser_write. fold (exceeds_VLIM v). run.
  destruct (exceeds_VLIM v); [split; reflexivity|].
  split; [|discriminate]. destruct (ser (self w)); discriminate.
Qed.

(** X17: what the test of [set_voltage] comes to, on the number the
    float stands for: the out-of-bounds [ValueError] is raised for the
    two infinities and for the finite voltages below -300 or above 300,
    and for no other. NaN passes the test: on a server that holds a
    handle it is written to the device, as the keyword "nan". *)
Theorem set_voltage_guard_on_values (channel : Z) (v : float) (w : World) :
  valid_binary prec emax v = true ->
  (fst (set_voltage channel v w) = Raise out_of_bounds
   <-> match v with
       | S754_nan => False
       | S754_infinity _ => True
       | _ => (F2Q v < -300 \/ 300 < F2Q v)%Q
       end)
  /\ (v = S754_nan ->
      forall c, ser (self w) = Some c ->
        set_voltage channel v w
        = (Ok tt, after_write (IDN (self w) ++ " CH"
                               ++ channel_to_str channel
                               ++ " nan" ++ CR) w)).
Proof.
  intro V. split.
  - rewrite set_voltage_raises. now apply exceeds_VLIM_value.
  - intros -> c S.
    now rewrite (set_voltage_accepted channel S754_nan w c eq_refl S).
Qed.

Lemma set_voltage_guard_on_values_witness :
  valid_binary prec emax just_above_VLIM = true
  /\ (300 < F2Q just_above_VLIM)%Q
  /\ fst (set_voltage 1 just_above_VLIM example_world) = Raise out_of_bounds.
Proof.
  split; [reflexivity|].
  assert (A : (300 < F2Q just_above_VLIM)%Q) by reflexivity.
  split; [exact A|].
  apply (proj1 (set_voltage_guard_on_values 1 just_above_VLIM example_world
                  eq_refl)).
  right. exact A.
Defined.

(** *** What is written for a voltage *)

Lemma length_append (a b : string) :
  String.length (a ++ b) = (String.length a + String.length b)%nat.
Proof. induction a as [|c a IH]; cbn; [reflexivity | now rewrite IH]. Qed.

Lemma frac_digits_length (w : nat) (n : Z) :
  String.length (frac_digits w n) = w.
Proof.
  revert n. induction w as [|w IH]; intro n; [reflexivity|].
  cbn [frac_digits]. rewrite length_append, IH. cbn. lia.
Qed.

(** X18: a call of [set_voltage] that completes has written exactly one
    command, ["<IDN> CH<channel> <keyword>\r"], and nothing else has
    changed; unless the voltage is NaN, the keyword has eight characters
    and the voltage the device reads from it is within 10 mV of the
    voltage asked for. *)
Theorem set_voltage_writes_decodable
        (channel : Z) (v : float) (w : World) :
  valid_binary prec emax v = true ->
  v <> S754_nan ->
  fst (set_voltage channel v w) = Ok tt ->
  exists kw q,
    snd (set_voltage channel v w)
    = after_write (IDN (self w) ++ " CH" ++ channel_to_str channel ++ " "
                   ++ kw ++ CR) w
    /\ kw = voltage_to_kw v
    /\ String.length kw = 8%nat
    /\ kw_to_voltage kw = Some q
    /\ (Qabs (q - F2Q v) <= 1 # 100)%Q.
Proof.
  intros V N E.
  assert (B : exceeds_VLIM v = false).
  { destruct (exceeds_VLIM v) eqn:X; [|reflexivity].
    apply set_voltage_raises with (channel := channel) (w := w) in X.
    rewrite X in E. discriminate. }
  destruct (ser (self w)) as [c|] eqn:S.
  - rewrite (set_voltage_accepted channel v w c B S). cbn [snd].
    destruct (within_bounds_value v V N B) as [Hf Hr].
    destruct (voltage_to_kw_decoded v Hf Hr) as (n & Hn & K & Q).
    exists (voltage_to_kw v), (inject_Z n / inject_Z 1000000 * 1000 - 500)%Q.
    split; [reflexivity|]. split; [reflexivity|]. split; [|split].
    + rewrite K. unfold fixed6.
      rewrite Z.div_small, Z.mod_small by assumption.
      change (str_of_int 0) with "0". rewrite !length_append.
      now rewrite frac_digits_length.
    + rewrite K. now apply kw_to_voltage_fixed6.
    + eapply Qle_trans; [exact Q | discriminate].
  - exfalso. unfold set_voltage, ser_write in E. fold (exceeds_VLIM v) in E.
    run. rewrite B, S in E. discriminate.
Qed.

Lemma set_voltage_writes_decodable_witness :
  valid_binary prec emax f150 = true
  /\ f150 <> S754_nan
  /\ fst (set_voltage 7 f150 example_world) = Ok tt
  /\ exists kw q,
      snd (set_voltage 7 f150 example_world)
      = after_write ("HV264 CH07 " ++ kw ++ CR) example_world
      /\ kw = voltage_to_kw f150
      /\ String.length kw = 8%nat
      /\ kw_to_voltage kw = Some q
      /\ (Qabs (q - F2Q f150) <= 1 # 100)%Q.
Proof.
  split; [reflexivity|]. split; [discriminate|]. split; [reflexivity|].
  apply (set_voltage_writes_decodable 7 f150 example_world);
    [reflexivity | discriminate | reflexivity].
Defined.

(** *** Start-up of the HV500 server *)

Lemma initServer_unfolded_HV500 (w : World) :
  HV500Server.initServer w
  = match SerialDeviceServer.initServer w with
    | (Ok _, w1) =>
        match regKey (self w1) with
        | Some k =>
            (Ok tt,
             set_self (set_IDN (last_n 5 k) (set_listeners [] (self w1))) w1)
        | None =>
            (Raise (TypeError "'NoneType' object is not subscriptable"),
             set_self (set_listeners [] (self w1)) w1)
        end
    | (Raise e, w1) => (Raise e, w1)
    end.
Proof.
  unfold HV500Server.initServer. run.
  destruct (SerialDeviceServer.initServer w) as [[[]|e] w1]; [|reflexivity].
  cbn [set_self self set_listeners regKey].
  destruct (regKey (self w1)); reflexivity.
Qed.

(** X19: [initServer] of the HV500 server completes exactly when that
    of the serial device server does, and then the identifier the
    commands start with is the last five characters of [regKey] and the
    list of listeners is empty; when the start-up of the base class
    raises, its exception comes out and neither has been set. *)
Theorem initServer_sets_IDN (w : World) :
  match fst (HV500Server.initServer w) with
  | Ok _ =>
      fst (SerialDeviceServer.initServer w) = Ok tt
      /\ exists k,
           regKey (self w) = Some k
           /\ IDN (self (snd (HV500Server.initServer w))) = last_n 5 k
           /\ listeners (self (snd (HV500Server.initServer w))) = []
  | Raise e =>
      fst (SerialDeviceServer.initServer w) = Raise e
      /\ snd (HV500Server.initServer w)
         = snd (SerialDeviceServer.initServer w)
  end.
Proof.
  rewrite initServer_unfolded_HV500.
  destruct (SerialDeviceServer.initServer w) as [[[]|e] w1] eqn:E;
    cbn [fst snd]; [|split; reflexivity].
  assert (Ok1 : fst (SerialDeviceServer.initServer w) = Ok tt)
    by now rewrite E.
  destruct (initServer_Ok_configured w Ok1) as [Tk _].
  destruct (truthy_Some _ Tk) as (k & Hk & _).
  assert (K1 : regKey (self w1) = Some k).
  { assert (F := proj2 (proj2 (proj2 (initServer_frame w)))).
    rewrite E in F. cbn [snd] in F.
    apply (f_equal regKey) in F. cbn [set_ser set_port regKey] in F.
    congruence. }
  rewrite K1. cbn [fst snd set_self self set_IDN IDN listeners
                   set_listeners].
  split; [reflexivity|]. now exists k.
Qed.

End HV500CommandFacts.

(** ** The VISA server *)

Module VisaServerFacts.
Import PyStr PyStrFacts Registry RegistryFacts.
Import SerialDeviceServerFacts ConnectionManagerFacts.
Import VisaServer.

(** What [e.code] raises on an exception that has no such attribute. *)
Definition no_code : exn :=
  AttributeError "'Exception' object has no attribute 'code'".

Lemma filter_head_In {A : Type} (f : A -> bool) (l : list A) (x : A)
      (rest : list A) :
  filter f l = x :: rest -> In x l.
Proof.
  intro F. apply (proj1 (filter_In f x l)). rewrite F. now left.
Qed.

Lemma getPortFromReg_unfolded (r : Registry.t) (n k : option string) :
  getPortFromReg n k r
  = match ports r with
    | None =>
        (if nodir_code r =? 17 then Ok None
         else Raise (Error (nodir_code r)),
         snd (cd (Some (cwd r)) r))
    | Some d =>
        (match lookup_substring n k with
         | None => Raise no_code
         | Some key =>
             match find (str_in key) (map fst (keys d)) with
             | None => Raise no_code
             | Some found => Ok (assoc found (keys d))
             end
         end,
         snd (cd (Some (cwd r)) (at_ports r)))
    end.
Proof.
  unfold getPortFromReg. run. rewrite cd_none, cd_ports.
  destruct (ports r) as [d|] eqn:H.
  - unfold dir, get. fold (at_ports r). rewrite dir_at_ports, H.
    unfold lookup_substring. cbn [snd].
    destruct (truthy k); [|destruct (truthy n)]; cbn [negb];
      [| |reflexivity];
      (rewrite filter_head_find;
       destruct (filter _ (map fst (keys d))) as [|found rest] eqn:F;
       [reflexivity|];
       assert (I := filter_head_In _ _ _ _ F);
       destruct (assoc_member found (keys d) I) as [v Hv];
       now rewrite dir_at_ports, H, Hv).
  - cbn [code_of]. destruct (nodir_code r =? 17); reflexivity.
Qed.


(** X20: [getPortFromReg] of the VISA server never raises the
    [PortRegError] its documentation announces. When no key of [Ports]
    contains the substring, and when the server has neither key nor name,
    the handler looks for the [code] of a plain [Exception] and an
    [AttributeError] comes out; when there is no [Ports] directory and the
    registry's code is 17 the call returns [None] for a port, with any
    other code the registry's error; otherwise it returns the value of
    the first key that contains the substring. *)
Theorem getPortFromReg_never_PortRegError
        (r : Registry.t) (self_name regKey : option string) :
  (forall c, fst (getPortFromReg self_name regKey r)
             <> Raise (PortRegError c))
  /\ (forall d, ports r = Some d ->
        match lookup_substring self_name regKey with
        | None => fst (getPortFromReg self_name regKey r) = Raise no_code
        | Some key =>
            match find (str_in key) (map fst (keys d)) with
            | None => fst (getPortFromReg self_name regKey r) = Raise no_code
            | Some found =>
                exists v,
                  assoc found (keys d) = Some v
                  /\ fst (getPortFromReg self_name regKey r) = Ok (Some v)
            end
        end)
  /\ (ports r = None ->
      fst (getPortFromReg self_name regKey r)
      = if nodir_code r =? 17 then Ok None
        else Raise (Error (nodir_code r))).
Proof.
  rewrite getPortFromReg_unfolded. destruct (ports r) as [d|] eqn:H.
  - cbn [fst]. split; [|split; [|discriminate]].
    + intro c. destruct (lookup_substring _ _); [|discriminate].
      destruct (find _ _); discriminate.
    + intros d' E. injection E as <-.
      destruct (lookup_substring _ _) as [key|]; [|reflexivity].
      destruct (find _ _) as [found|] eqn:F; [|reflexivity].
      apply find_some in F. destruct F as [I _].
      destruct (assoc_member found (keys d) I) as [v Hv].
      exists v. now rewrite Hv.
  - cbn [fst]. split; [|split; [discriminate | reflexivity]].
    intro c. destruct (nodir_code r =? 17); discriminate.
Qed.

(** X21: unlike that of the serial device server, [getPortFromReg] of
    the VISA server puts the cursor back on every path: from a cursor
    the registry handed out, the registry is afterwards as before,
    whatever is returned or raised. *)
Theorem getPortFromReg_always_restores
        (r : Registry.t) (self_name regKey : option string) :
  wf_cursor r -> snd (getPortFromReg self_name regKey r) = r.
Proof.
  intro W. rewrite getPortFromReg_unfolded.
  destruct (ports r); cbn [snd].
  - unfold at_ports. now rewrite cd_back.
  - now rewrite cd_back_same.
Qed.

Lemma keyless_cursor : wf_cursor keyless_registry.
Proof.
  exists []. split; [reflexivity|]. split; [constructor | discriminate].
Qed.

Lemma getPortFromReg_always_restores_witness :
  wf_cursor keyless_registry
  /\ fst (getPortFromReg (Some "scope_server") (Some "SCOPE")
                         keyless_registry) = Raise no_code
  /\ snd (getPortFromReg (Some "scope_server") (Some "SCOPE")
                         keyless_registry) = keyless_registry.
Proof.
  split; [exact keyless_cursor|]. split; [reflexivity|].
  apply (getPortFromReg_always_restores keyless_registry
           (Some "scope_server") (Some "SCOPE") keyless_cursor).
Defined.

(** *** Loading the configuration *)

(** X22: [loadConfigInfo] fails at once, changing nothing, when
    [regKey] is missing (the [AttributeError] of reading it: the class
    [VisaServer] assigns none) and when it holds [None] or the empty
    string (the [Exception] of its check); otherwise it forwards what
    [getPortFromReg] raises, the attributes being left as they were, and
    when that returns it records the result as [port] and as the only
    entry of [usb_links], under [regKey]. With no [Ports] directory in a
    registry whose code for it is 17, it completes with [None] for a
    port. *)
Theorem loadConfigInfo_records (w : World) :
  (regKey (self w) = Missing ->
   loadConfigInfo w
   = (Raise (AttributeError "object has no attribute 'regKey'"), w))
  /\ (forall k,
        regKey (self w) = Holds k -> truthy k = false ->
        loadConfigInfo w
        = (Raise (Exception_ "self.regKey must be defined to find the port!"),
           w))
  /\ (forall k,
        regKey (self w) = Holds (Some k) -> k <> "" ->
        match fst (getPortFromReg (name (self w)) (Some k) (registry w)) with
        | Ok p =>
            fst (loadConfigInfo w) = Ok tt
            /\ port (self (snd (loadConfigInfo w))) = Holds p
            /\ usb_links (self (snd (loadConfigInfo w))) = Holds [(k, p)]
        | Raise e =>
            fst (loadConfigInfo w) = Raise e
            /\ self (snd (loadConfigInfo w)) = self w
        end)
  /\ (forall k,
        regKey (self w) = Holds (Some k) -> k <> "" ->
        ports (registry w) = None ->
        nodir_code (registry w) = 17 ->
        fst (loadConfigInfo w) = Ok tt
        /\ port (self (snd (loadConfigInfo w))) = Holds None).
Proof.
  destruct w as [[n k po ul ins ad dv] r mg rs op].
  cbn [self regKey name registry].
  unfold loadConfigInfo, on_registry, on_self. run.
  cbv beta iota delta [self regKey name registry port usb_links set_port
                       set_usb_links instruments address device manager
                       resources opens].
  assert (T : forall k', k' <> "" -> truthy (Some k') = true).
  { intros k' Ne. destruct k'; [now elim Ne | reflexivity]. }
  split; [|split; [|split]].
  - intros ->. reflexivity.
  - intros k' -> F. rewrite F. reflexivity.
  - intros k' -> Ne. rewrite (T k' Ne). cbn [negb value].
    destruct (getPortFromReg n (Some k') r) as [[p|e] r']; cbn [fst snd];
      repeat split.
  - intros k' -> Ne H C. rewrite (T k' Ne). cbn [negb].
    rewrite getPortFromReg_unfolded, H, C. cbn [fst snd]. now split.
Qed.

(** *** Finding the instrument *)

(** The address picked is that of the first link, in the order given,
    whose address is among the instruments. *)
Lemma pick_address_first (links : list (string * string))
      (listed : list string) :
  pick_address links listed <> "" ->
  exists before nm after,
    links = (before ++ (nm, pick_address links listed) :: after)%list
    /\ In (pick_address links listed) listed
    /\ Forall (fun l => ~ In (snd l) listed) before.
Proof.
  induction links as [|[nm a] links IH]; cbn [pick_address].
  - intro N. now elim N.
  - destruct (existsb (String.eqb a) listed) eqn:X.
    + intros _. exists [], nm, links. split; [reflexivity|]. split.
      * apply existsb_exists in X. destruct X as (x & I & E).
        apply String.eqb_eq in E. now subst x.
      * constructor.
    + intro N. destruct (IH N) as (b & nm' & af & E & I & F).
      exists ((nm, a) :: b), nm', af. split; [|split].
      * cbn [app]. now rewrite <- E.
      * exact I.
      * constructor; [|exact F]. cbn [snd]. intro I'.
        assert (Y : existsb (String.eqb a) listed = true).
        { apply existsb_exists. exists a. split; [exact I'|].
          apply String.eqb_refl. }
        congruence.
Qed.

Definition with_self (s : Server) (w : World) : World :=
  mkWorld s (registry w) (manager w) (resources w) (opens w).

Lemma initServer_unfolded_Visa (links : list (string * string)) (w : World) :
  initServer links w
  = match manager w with
    | VisaIOError => (Ok tt, w)
    | Fails e => (Raise e, w)
    | Gives _ =>
        match resources w with
        | VisaIOError => (Ok tt, w)
        | Fails e => (Raise e, w)
        | Gives listed =>
            let s1 := set_instruments listed (self w) in
            let a := pick_address links listed in
            let s2 := set_address a s1 in
            match listed with
            | [] => (Ok tt, with_self s1 w)
            | _ :: _ =>
                if String.eqb a "" then (Ok tt, with_self s2 w)
                else match opens w a with
                     | Gives _ => (Ok tt, with_self (set_device a s2) w)
                     | VisaIOError => (Ok tt, with_self s2 w)
                     | Fails e => (Raise e, with_self s2 w)
                     end
            end
        end
    end.
Proof.
  destruct w as [[n k po ul ins ad dv] r mg rs op].
  unfold initServer, in_try, on_registry, on_self, with_self. run.
  cbv beta iota zeta delta [self registry manager resources opens
                            set_instruments set_address set_device name
                            regKey port usb_links instruments address
                            device].
  destruct mg as [u| |e]; try reflexivity.
  destruct rs as [listed| |e]; try reflexivity.
  destruct listed as [|i listed]; [reflexivity|].
  cbn [List.length Nat.eqb].
  destruct (String.eqb _ ""); [reflexivity|].
  destruct (op _); reflexivity.
Qed.

(** X23: [initServer] of the VISA server catches [VisaIOError] and
    nothing else: it completes when creating the resource manager,
    listing the resources or opening the device ends in [VisaIOError],
    and lets any other exception of these calls out (the [ValueError] of
    a missing VISA backend, say). It never touches the registry. A device
    it opens is at the address of the first link, in the order given,
    whose address is among the listed instruments, and that address is
    the one recorded; listing nothing, or failing before the listing,
    leaves address and device as they were. *)
Theorem initServer_opens_first_link
        (links : list (string * string)) (w : World) :
  registry (snd (initServer links w)) = registry w
  /\ (manager w = VisaIOError -> initServer links w = (Ok tt, w))
  /\ (forall e, manager w = Fails e -> initServer links w = (Raise e, w))
  /\ (manager w = Gives tt ->
      (resources w = VisaIOError -> initServer links w = (Ok tt, w))
      /\ (forall e, resources w = Fails e ->
                    initServer links w = (Raise e, w))
      /\ (forall listed,
            resources w = Gives listed ->
            instruments (self (snd (initServer links w))) = Holds listed
            /\ (listed = [] ->
                fst (initServer links w) = Ok tt
                /\ address (self (snd (initServer links w)))
                   = address (self w)
                /\ device (self (snd (initServer links w)))
                   = device (self w))
            /\ (listed <> [] ->
                address (self (snd (initServer links w)))
                = Holds (pick_address links listed)
                /\ (pick_address links listed = "" ->
                    fst (initServer links w) = Ok tt
                    /\ device (self (snd (initServer links w)))
                       = device (self w))
                /\ (pick_address links listed <> "" ->
                    (exists before nm after,
                        links = (before
                                 ++ (nm, pick_address links listed)
                                 :: after)%list
                        /\ In (pick_address links listed) listed
                        /\ Forall (fun l => ~ In (snd l) listed) before)
                    /\ match opens w (pick_address links listed) with
                       | Gives _ =>
                           fst (initServer links w) = Ok tt
                           /\ device (self (snd (initServer links w)))
                              = Holds (pick_address links listed)
                       | VisaIOError =>
                           fst (initServer links w) = Ok tt
                           /\ device (self (snd (initServer links w)))
                              = device (self w)
                       | Fails e =>
                           fst (initServer links w) = Raise e
                           /\ device (self (snd (initServer links w)))
                              = device (self w)
                       end)))).
Proof.
  rewrite initServer_unfolded_Visa. cbv zeta.
  destruct (manager w) as [[]| |e] eqn:Mg.
  2:{ split; [reflexivity|]. split; [reflexivity|].
      split; [intros e E; discriminate E | discriminate]. }
  2:{ split; [reflexivity|]. split; [discriminate|]. split; [|discriminate].
      intros e' E. injection E as <-. reflexivity. }
  destruct (resources w) as [listed| |e] eqn:Rs.
  2:{ split; [reflexivity|]. split; [discriminate|].
      split; [intros e E; discriminate E|]. intros _.
      split; [reflexivity|]. split; intros x E; discriminate E. }
  2:{ split; [reflexivity|]. split; [discriminate|].
      split; [intros e' E; discriminate E|]. intros _.
      split; [discriminate|]. split; [|intros x E; discriminate E].
      intros e' E. injection E as <-. reflexivity. }
  assert (R : registry
                (snd
                   match listed with
                   | [] =>
                       (@Ok unit tt,
                        with_self (set_instruments listed (self w)) w)
                   | _ :: _ =>
                       if String.eqb (pick_address links listed) ""
                       then (Ok tt,
                             with_self
                               (set_address (pick_address links listed)
                                  (set_instruments listed (self w))) w)
                       else
                         match opens w (pick_address links listed) with
                         | Gives _ =>
                             (Ok tt,
                              with_self
                                (set_device (pick_address links listed)
                                   (set_address (pick_address links listed)
                                      (set_instruments listed (self w)))) w)
                         | VisaIOError =>
                             (Ok tt,
                              with_self
                                (set_address (pick_address links listed)
                                   (set_instruments listed (self w))) w)
                         | Fails e =>
                             (Raise e,
                              with_self
                                (set_address (pick_address links listed)
                                   (set_instruments listed (self w))) w)
                         end
                   end) = registry w).
  { destruct listed as [|i listed]; [reflexivity|].
    destruct (String.eqb _ ""); [reflexivity|].
    destruct (opens w _); reflexivity. }
  split; [exact R|]. clear R.
  split; [discriminate|]. split; [intros e E; discriminate E|]. intros _.
  split; [discriminate|]. split; [intros e E; discriminate E|].
  intros listed' E. injection E as <-.
  destruct listed as [|i listed].
  { cbn [fst snd with_self self set_instruments instruments address device].
    split; [reflexivity|]. split; [intros _; repeat split|].
    intro N. now elim N. }
  set (a := pick_address links (i :: listed)).
  destruct (String.eqb a "") eqn:Ea.
  { apply String.eqb_eq in Ea.
    cbn [fst snd with_self self set_instruments set_address instruments
         address device].
    split; [reflexivity|]. split; [discriminate|]. intros _.
    split; [reflexivity|]. split; [intros _; split; reflexivity|].
    intro N. now elim N. }
  apply String.eqb_neq in Ea.
  assert (P := pick_address_first links (i :: listed) Ea). fold a in P.
  destruct (opens w a) as [[]| |e] eqn:O;
    cbn [fst snd with_self self set_instruments set_address set_device
         instruments address device];
    (split; [reflexivity|]); (split; [discriminate|]); intros _;
    (split; [reflexivity|]); (split; [intro Z; now elim Ea|]); intros _;
    (split; [exact P|]); split; reflexivity.
Qed.

End VisaServerFacts.

(** ** The default lookup key *)

Module DefaultKeyFacts.
Import PyStr PyStrFacts Registry RegistryFacts.
Import SerialDeviceServer SerialDeviceServerFacts ConnectionManagerFacts.

Definition is_upper (c : ascii) : bool :=
  (Nat.leb 65 (nat_of_ascii c) && Nat.leb (nat_of_ascii c) 90)%bool.
Definition is_lower (c : ascii) : bool :=
  (Nat.leb 97 (nat_of_ascii c) && Nat.leb (nat_of_ascii c) 122)%bool.

(** The characters of a string. *)
Definition chars : string -> list ascii := list_ascii_of_string.

Lemma lower_ascii_is_lower (c : ascii) :
  is_upper c || is_lower c = true -> is_lower (lower_ascii c) = true.
Proof.
  destruct c as [[] [] [] [] [] [] [] []]; intro H;
    first [reflexivity | discriminate H].
Qed.

Lemma chars_app (a b : string) : chars (a ++ b) = (chars a ++ chars b)%list.
Proof.
  induction a as [|c a IH]; [reflexivity|].
  cbn [String.append chars list_ascii_of_string app]. f_equal. exact IH.
Qed.

Lemma chars_lower (c : ascii) (s : string) :
  In c (chars s) -> In (lower_ascii c) (chars (lower s)).
Proof.
  induction s as [|x s IH]; cbn [chars list_ascii_of_string lower In];
    [tauto|].
  intros [->|H]; [now left | right; now apply IH].
Qed.

(** A substring has no character its string does not have. *)
Lemma str_in_chars (t h : string) (c : ascii) :
  str_in t h = true -> In c (chars t) -> In c (chars h).
Proof.
  intros H I. apply str_in_spec in H. destruct H as (p & s & ->).
  rewrite !chars_app. apply in_or_app. right. apply in_or_app. now left.
Qed.

(** X24: the key [getPortFromReg] falls back on when it is given none,
    the first four characters of the server's name, is put in lower case,
    and keys are compared as they are written: whenever those four
    characters hold a letter and the keys of [Ports] hold no lower-case
    letter, no key matches and [PortRegError(1)] is raised. *)
Theorem default_key_misses_capitals
        (r : Registry.t) (self_name : string) (d : RegDir) :
  ports r = Some d ->
  self_name <> "" ->
  (exists c, In c (chars (take 4 self_name))
             /\ is_upper c || is_lower c = true) ->
  (forall key c, In key (map fst (keys d)) -> In c (chars key) ->
                 is_lower c = false) ->
  fst (getPortFromReg (Some self_name) None r) = Raise (PortRegError 1).
Proof.
  intros H Ne (c & I & L) U.
  assert (K : lookup_substring (Some self_name) None
              = Some (lower (take 4 self_name))).
  { destruct self_name; [now elim Ne | reflexivity]. }
  rewrite (getPortFromReg_no_match r _ _ d _ H K); [reflexivity|].
  rewrite filter_head_find.
  replace (filter _ _) with (@nil string); [reflexivity|].
  symmetry. apply filter_none. intros key Ik.
  destruct (str_in (lower (take 4 self_name)) key) eqn:S; [|reflexivity].
  assert (C := str_in_chars _ _ _ S (chars_lower c _ I)).
  assert (E1 := U key _ Ik C). assert (E2 := lower_ascii_is_lower c L).
  congruence.
Qed.

Lemma default_key_misses_capitals_witness :
  ports example_registry
  = Some (Dir [] [("HV500_HV264", "COM3"); ("OTHER_KEY", "COM9")])
  /\ fst (getPortFromReg (Some "hv500_server") None example_registry)
     = Raise (PortRegError 1).
Proof.
  split; [reflexivity|].
  apply (default_key_misses_capitals example_registry "hv500_server"
           (Dir [] [("HV500_HV264", "COM3"); ("OTHER_KEY", "COM9")])).
  - reflexivity.
  - discriminate.
  - exists "h"%char. split; [now left | reflexivity].
  - intros key c [<-|[<-|[]]] I; cbn in I;
      repeat (destruct I as [<-|I]; [reflexivity|]); destruct I.
Defined.

End DefaultKeyFacts.
